(** * RoverJoystickHmi: the state synchronisation hub

    A shallow embedding of [server.js] (the authoritative server) and of
    [public/app.js] (the browser client), and the properties of the hub that
    the specification states about them; then further properties that the
    code of the two shows: of the normalizers, of the two directions of the
    wire, of the registry, of the forwarder and of the handlers of the page.

    Conventions of the embedding.
    - A JavaScript number is a [num]: a real number, or one of the three
      non-finite values.  Arithmetic is the exact arithmetic of the reals
      (no rounding, one zero); [Math.hypot] and [Math.atan2] are the
      mathematical functions.  Comparisons, [Math.min], [Math.max] and the
      clamps built from them are exact on binary64 numbers as well.  A
      property that would otherwise rest on the absence of rounding is
      stated through the operation of the code (the [deg] of a stick that
      goes through a normalizer again is the [deg] wrapped once more, see
      [rewrap]) or with closed bounds.
    - The reconnection interval of the client only goes through [*] and
      [Math.min]; it is kept as a binary64 float, on which these operations
      are evaluated exactly.
    - [Date.now()] is an integer number of milliseconds; every handler runs
      to completion at one instant [now], which it receives as an argument.
    - Handlers are functions from state to state.  What a handler does to
      the outside (console, sockets, HTTP, timers) is appended to the [log]
      of the state, oldest entry first. *)

From Stdlib Require Import Floats.
From Stdlib Require Import ZArith List Bool String Lia Reals Lra Psatz.
Import ListNotations.
Close Scope float_scope.

Set Implicit Arguments.

(** ** JavaScript numbers *)

Inductive num : Type :=
| Fin (r : R)
| NaN
| PosInf
| NegInf.

Definition Rltb (a b : R) : bool := if Rlt_dec a b then true else false.
Definition Rleb (a b : R) : bool := if Rle_dec a b then true else false.
Definition Reqb (a b : R) : bool := if Req_dec_T a b then true else false.

(** [r * Infinity] for a finite [r]. *)
Definition signed_inf (r : R) : num :=
  if Rltb 0 r then PosInf else if Rltb r 0 then NegInf else NaN.

Definition neg (a : num) : num :=
  match a with
  | Fin r => Fin (- r)
  | NaN => NaN
  | PosInf => NegInf
  | NegInf => PosInf
  end.

Definition add (a b : num) : num :=
  match a, b with
  | NaN, _ | _, NaN => NaN
  | Fin x, Fin y => Fin (x + y)
  | PosInf, NegInf | NegInf, PosInf => NaN
  | PosInf, _ | _, PosInf => PosInf
  | NegInf, _ | _, NegInf => NegInf
  end.

Definition sub (a b : num) : num := add a (neg b).

Definition mul (a b : num) : num :=
  match a, b with
  | NaN, _ | _, NaN => NaN
  | Fin x, Fin y => Fin (x * y)
  | Fin x, PosInf | PosInf, Fin x => signed_inf x
  | Fin x, NegInf | NegInf, Fin x => neg (signed_inf x)
  | PosInf, PosInf | NegInf, NegInf => PosInf
  | PosInf, NegInf | NegInf, PosInf => NegInf
  end.

(** Division; the divisor zero is the positive zero. *)
Definition div (a b : num) : num :=
  match a, b with
  | NaN, _ | _, NaN => NaN
  | Fin x, Fin y => if Reqb y 0 then signed_inf x else Fin (x / y)
  | Fin _, (PosInf | NegInf) => Fin 0
  | PosInf, Fin y => if Rltb y 0 then NegInf else PosInf
  | NegInf, Fin y => if Rltb y 0 then PosInf else NegInf
  | (PosInf | NegInf), (PosInf | NegInf) => NaN
  end.

(** Rounding towards zero. *)
Definition Rtrunc (r : R) : Z := if Rltb r 0 then Zceil r else Zfloor r.

(** The remainder operator [%]: the result has the sign of the dividend. *)
Definition rem (a b : num) : num :=
  match a, b with
  | NaN, _ | _, NaN => NaN
  | (PosInf | NegInf), _ => NaN
  | Fin x, (PosInf | NegInf) => Fin x
  | Fin x, Fin y => if Reqb y 0 then NaN else Fin (x - y * IZR (Rtrunc (x / y)))
  end.

(** [a < b]; false as soon as one side is [NaN]. *)
Definition lt (a b : num) : bool :=
  match a, b with
  | NaN, _ | _, NaN => false
  | Fin x, Fin y => Rltb x y
  | NegInf, (Fin _ | PosInf) => true
  | Fin _, PosInf => true
  | _, _ => false
  end.

Definition gt (a b : num) : bool := lt b a.

Definition Math_max (a b : num) : num :=
  match a, b with
  | NaN, _ | _, NaN => NaN
  | PosInf, _ | _, PosInf => PosInf
  | NegInf, c | c, NegInf => c
  | Fin x, Fin y => Fin (Rmax x y)
  end.

Definition Math_min (a b : num) : num :=
  match a, b with
  | NaN, _ | _, NaN => NaN
  | NegInf, _ | _, NegInf => NegInf
  | PosInf, c | c, PosInf => c
  | Fin x, Fin y => Fin (Rmin x y)
  end.

Definition Math_abs (a : num) : num :=
  match a with
  | Fin r => Fin (Rabs r)
  | NaN => NaN
  | PosInf | NegInf => PosInf
  end.

(** [Math.hypot(a, b)], the square root of the sum of the squares; the
    rounding of the implementation is not part of the embedding. *)
Definition Math_hypot (a b : num) : num :=
  match a, b with
  | (PosInf | NegInf), _ | _, (PosInf | NegInf) => PosInf
  | NaN, _ | _, NaN => NaN
  | Fin x, Fin y => Fin (sqrt (x * x + y * y))
  end.

(** The angle of the point [(x, y)], in [[-PI, PI]]. *)
Definition Ratan2 (y x : R) : R :=
  if Rltb 0 x then atan (y / x)
  else if Rltb x 0 then (if Rltb y 0 then atan (y / x) - PI else atan (y / x) + PI)
  else if Rltb 0 y then PI / 2
  else if Rltb y 0 then - (PI / 2)
  else 0.

(** [Math.atan2(y, x)], unrounded, there being one zero. *)
Definition Math_atan2 (y x : num) : num :=
  match y, x with
  | NaN, _ | _, NaN => NaN
  | Fin b, Fin a => Fin (Ratan2 b a)
  | Fin b, PosInf => Fin 0
  | Fin b, NegInf => if Rltb b 0 then Fin (- PI) else Fin PI
  | PosInf, Fin _ => Fin (PI / 2)
  | NegInf, Fin _ => Fin (- (PI / 2))
  | PosInf, PosInf => Fin (PI / 4)
  | PosInf, NegInf => Fin (3 * PI / 4)
  | NegInf, PosInf => Fin (- (PI / 4))
  | NegInf, NegInf => Fin (- (3 * PI / 4))
  end.

Definition Math_PI : num := Fin PI.

(** [Number.EPSILON], two to the power -52. *)
Definition Number_EPSILON : num := Fin (/ 2 ^ 52).

Definition isFinite (a : num) : bool :=
  match a with Fin _ => true | _ => false end.

(** Truthiness of a number: [0] and [NaN] are falsy. *)
Definition truthy_num (a : num) : bool :=
  match a with
  | Fin r => negb (Reqb r 0)
  | NaN => false
  | PosInf | NegInf => true
  end.

(** [a || b] on numbers. *)
Definition num_or (a b : num) : num := if truthy_num a then a else b.

(** ** JavaScript values, as [JSON.parse] builds them *)

(** A string carries the number [Number(s)] reads it as, an object or array
    the outcome of its conversion to a number: [None] when the conversion
    throws a [TypeError] (no callable [valueOf]/[toString] yields a
    primitive). *)
#[warnings="-register-all"]
Inductive jsval : Type :=
| JUndefined
| JNull
| JBool (b : bool)
| JNum (n : num)
| JStr (s : string) (asNumber : num)
| JObj (props : list (string * jsval)) (asNumber : option num).

(** Control either returns a value or leaves by an exception. *)
Inductive result (A : Type) : Type :=
| Ok (a : A)
| Throw.
Arguments Throw {A}.

Definition bind {A B : Type} (m : result A) (k : A -> result B) : result B :=
  match m with
  | Ok a => k a
  | Throw => Throw
  end.

Notation "'do' x <- m ;; k" := (bind m (fun x => k))
  (at level 10, x name, m at level 100, k at level 200).

(** Property read [o.k]; an absent property reads as [undefined]. *)
Fixpoint lookup (k : string) (props : list (string * jsval)) : jsval :=
  match props with
  | [] => JUndefined
  | (k', v) :: rest => if String.eqb k k' then v else lookup k rest
  end.

Definition get (k : string) (v : jsval) : jsval :=
  match v with
  | JObj props _ => lookup k props
  | _ => JUndefined
  end.

(** [Number(v)]. *)
Definition Number (v : jsval) : result num :=
  match v with
  | JUndefined => Ok NaN
  | JNull => Ok (Fin 0)
  | JBool b => Ok (Fin (if b then 1 else 0))
  | JNum n => Ok n
  | JStr _ n => Ok n
  | JObj _ (Some n) => Ok n
  | JObj _ None => Throw
  end.

(** [Number.isFinite(v)]: no conversion, only a finite number passes. *)
Definition Number_isFinite (v : jsval) : bool :=
  match v with
  | JNum n => isFinite n
  | _ => false
  end.

(** [v === 'literal']. *)
Definition is_string (v : jsval) (s : string) : bool :=
  match v with
  | JStr s' _ => String.eqb s' s
  | _ => false
  end.

(** Truthiness of a value. *)
Definition truthy (v : jsval) : bool :=
  match v with
  | JUndefined | JNull => false
  | JBool b => b
  | JNum n => truthy_num n
  | JStr s _ => negb (String.eqb s "")
  | JObj _ _ => true
  end.

(** [typeof v === 'object'] (which [null] satisfies as well). *)
Definition typeof_object (v : jsval) : bool :=
  match v with
  | JNull | JObj _ _ => true
  | _ => false
  end.

(** ** The stick vector *)

Record StickVector : Type := mkStick { x : num; y : num; mag : num; deg : num }.

Definition zeroStick : StickVector := mkStick (Fin 0) (Fin 0) (Fin 0) (Fin 0).

(** The object literal [{ x, y, mag, deg }] as a value. *)
Definition stick_value (s : StickVector) : jsval :=
  JObj [("x"%string, JNum (x s)); ("y"%string, JNum (y s));
        ("mag"%string, JNum (mag s)); ("deg"%string, JNum (deg s))]
       (Some NaN).

(** ** Timers of the event loop *)

(** [setTimeout] hands out a fresh handle; the loop keeps the timers that
    are armed and neither run nor cleared.  A variable that held a handle
    keeps it when the timer runs, unless the callback resets it. *)
Definition cancel {K : Type} (id : nat) (timers : list (nat * K)) : list (nat * K) :=
  filter (fun t => negb (Nat.eqb (fst t) id)) timers.

Fixpoint armed {K : Type} (id : nat) (timers : list (nat * K)) : option K :=
  match timers with
  | [] => None
  | (i, k) :: rest => if Nat.eqb i id then Some k else armed id rest
  end.

(** * The server: server.js *)

Module Server.

(** Read from the environment at start-up ([NODE_RED_HTTP_URL] non-empty,
    [NODE_RED_RETRY_COOLDOWN_MS]). *)
Record Config : Type := mkConfig {
  NODE_RED_ENABLED : bool;
  NODE_RED_RETRY_COOLDOWN_MS : Z
}.

Definition defaultConfig : Config := mkConfig true 10000.

Definition NODE_RED_THROTTLE_MS : Z := 50.
Definition HEARTBEAT_INTERVAL : Z := 30000.

(** The shared state [state = { mode, stick, ts }]. *)
Record State : Type := mkState { mode : jsval; stick : StickVector; ts : Z }.

(** A registered [ws] object: its identity, its [isAlive] property and
    whether [readyState === WebSocket.OPEN]. *)
Record Connection : Type := mkConnection {
  conn : nat;
  isAlive : bool;
  isOpen : bool
}.

(** What the server sends to a client. *)
Inductive ServerMessage : Type :=
| MsgState (mode : jsval) (stick : StickVector) (ts : Z)
| MsgMode (mode : jsval) (ts : Z)
| MsgStick (stick : StickVector) (ts : Z).

Inductive ConsoleText : Type :=
| InvalidJSON                    (* [WS] Invalid JSON received *)
| InvalidMode (received : jsval) (* [WS] Invalid mode received: *)
| UnknownType (received : jsval) (* [WS] Unknown message type: *)
| NodeRedHttpStatus              (* [Node-RED] HTTP <status>: *)
| NodeRedTimedOut                (* [Node-RED] Request timed out *)
| NodeRedSuppressing             (* [Node-RED] Unable to reach ... Suppressing requests *)
| NodeRedRequestFailed.          (* [Node-RED] Request failed: *)

Inductive TimerKind : Type :=
| DispatchTimer   (* setTimeout(dispatch, delay) *)
| CooldownTimer.  (* the callback armed by postToNodeRed on ECONNREFUSED *)

Inductive Effect : Type :=
| ConsoleWarn (text : ConsoleText)
| ConsoleError (text : ConsoleText)
| Uncaught                                  (* an exception left a listener *)
| Send (to : nat) (payload : ServerMessage) (* ws.send(JSON.stringify(payload)) *)
| Ping (to : nat)
| Terminate (target : nat)
| Fetch (body : State)                      (* fetch(NODE_RED_HTTP_URL, POST body) *)
| SetTimeout (id : nat) (kind : TimerKind) (delay : Z).

Record Server : Type := mkServer {
  state : State;
  clients : list Connection;
  lastNodeRedDispatch : Z;
  nodeRedTimeout : option nat;
  nodeRedNextAttemptAt : Z;
  nodeRedCooldownTimer : option nat;
  nodeRedSuppressedWarningLogged : bool;
  timers : list (nat * TimerKind);
  fresh : nat;
  log : list Effect
}.

Definition with_state (v : State) (s : Server) : Server :=
  mkServer v (clients s) (lastNodeRedDispatch s) (nodeRedTimeout s)
    (nodeRedNextAttemptAt s) (nodeRedCooldownTimer s)
    (nodeRedSuppressedWarningLogged s) (timers s) (fresh s) (log s).

Definition with_clients (v : list Connection) (s : Server) : Server :=
  mkServer (state s) v (lastNodeRedDispatch s) (nodeRedTimeout s)
    (nodeRedNextAttemptAt s) (nodeRedCooldownTimer s)
    (nodeRedSuppressedWarningLogged s) (timers s) (fresh s) (log s).

Definition with_lastNodeRedDispatch (v : Z) (s : Server) : Server :=
  mkServer (state s) (clients s) v (nodeRedTimeout s)
    (nodeRedNextAttemptAt s) (nodeRedCooldownTimer s)
    (nodeRedSuppressedWarningLogged s) (timers s) (fresh s) (log s).

Definition with_nodeRedTimeout (v : option nat) (s : Server) : Server :=
  mkServer (state s) (clients s) (lastNodeRedDispatch s) v
    (nodeRedNextAttemptAt s) (nodeRedCooldownTimer s)
    (nodeRedSuppressedWarningLogged s) (timers s) (fresh s) (log s).

Definition with_nodeRedNextAttemptAt (v : Z) (s : Server) : Server :=
  mkServer (state s) (clients s) (lastNodeRedDispatch s) (nodeRedTimeout s)
    v (nodeRedCooldownTimer s)
    (nodeRedSuppressedWarningLogged s) (timers s) (fresh s) (log s).

Definition with_nodeRedCooldownTimer (v : option nat) (s : Server) : Server :=
  mkServer (state s) (clients s) (lastNodeRedDispatch s) (nodeRedTimeout s)
    (nodeRedNextAttemptAt s) v
    (nodeRedSuppressedWarningLogged s) (timers s) (fresh s) (log s).

Definition with_nodeRedSuppressedWarningLogged (v : bool) (s : Server) : Server :=
  mkServer (state s) (clients s) (lastNodeRedDispatch s) (nodeRedTimeout s)
    (nodeRedNextAttemptAt s) (nodeRedCooldownTimer s)
    v (timers s) (fresh s) (log s).

Definition with_timers (v : list (nat * TimerKind)) (s : Server) : Server :=
  mkServer (state s) (clients s) (lastNodeRedDispatch s) (nodeRedTimeout s)
    (nodeRedNextAttemptAt s) (nodeRedCooldownTimer s)
    (nodeRedSuppressedWarningLogged s) v (fresh s) (log s).

Definition with_fresh (v : nat) (s : Server) : Server :=
  mkServer (state s) (clients s) (lastNodeRedDispatch s) (nodeRedTimeout s)
    (nodeRedNextAttemptAt s) (nodeRedCooldownTimer s)
    (nodeRedSuppressedWarningLogged s) (timers s) v (log s).

Definition emit (e : Effect) (s : Server) : Server :=
  mkServer (state s) (clients s) (lastNodeRedDispatch s) (nodeRedTimeout s)
    (nodeRedNextAttemptAt s) (nodeRedCooldownTimer s)
    (nodeRedSuppressedWarningLogged s) (timers s) (fresh s) (log s ++ [e]).

(** Several effects in a row. *)
Definition emits (es : list Effect) (s : Server) : Server :=
  fold_left (fun acc e => emit e acc) es s.

(** [setTimeout(callback, delay)]: the handle, and the state with the timer armed. *)
Definition setTimeout (kind : TimerKind) (delay : Z) (s : Server) : nat * Server :=
  let id := fresh s in
  (id, emit (SetTimeout id kind delay)
         (with_fresh (S id) (with_timers (timers s ++ [(id, kind)]) s))).

Definition clearTimeout (id : nat) (s : Server) : Server :=
  with_timers (cancel id (timers s)) s.

(** The module-level initial values, [Date.now()] being [now]. *)
Definition initialStickState : StickVector := zeroStick.

Definition init (now : Z) : Server :=
  mkServer (mkState (JStr "automatic" NaN) initialStickState now)
    [] 0 None 0 None false [] 0 [].

(** The connections a broadcast reaches: open, and not the excluded one. *)
Definition recipients (exclude : option nat) (cs : list Connection) : list nat :=
  map conn
    (filter
       (fun client =>
          negb match exclude with
               | Some e => Nat.eqb (conn client) e
               | None => false
               end
          && isOpen client)
       cs).

(** [broadcast(payload, exclude)]. *)
Definition broadcast (payload : ServerMessage) (exclude : option nat) (s : Server) : Server :=
  fold_left
    (fun acc client =>
       if match exclude with
          | Some e => Nat.eqb (conn client) e
          | None => false
          end
       then acc
       else if isOpen client then emit (Send (conn client) payload) acc
       else acc)
    (clients s) s.

(** [postToNodeRed(body)] up to the [await]: the request is issued or skipped. *)
Definition postToNodeRed (cfg : Config) (now : Z) (body : State) (s : Server) : Server :=
  if negb (NODE_RED_ENABLED cfg) then s
  else if negb (nodeRedNextAttemptAt s =? 0)%Z && (now <? nodeRedNextAttemptAt s)%Z then s
  else emit (Fetch body) s.

(** The [const dispatch = () => ...] of [scheduleNodeRedPush]. *)
Definition dispatch (cfg : Config) (now : Z) (s : Server) : Server :=
  let s := with_lastNodeRedDispatch now s in
  let s := with_nodeRedTimeout None s in
  if negb (nodeRedNextAttemptAt s =? 0)%Z && (now <? nodeRedNextAttemptAt s)%Z then s
  else postToNodeRed cfg now (state s) s.

(** [scheduleNodeRedPush()]. *)
Definition scheduleNodeRedPush (cfg : Config) (now : Z) (s : Server) : Server :=
  if negb (NODE_RED_ENABLED cfg) then s
  else if (now - lastNodeRedDispatch s >=? NODE_RED_THROTTLE_MS)%Z then dispatch cfg now s
  else match nodeRedTimeout s with
       | Some _ => s
       | None =>
           let delay := Z.max 0 (NODE_RED_THROTTLE_MS - (now - lastNodeRedDispatch s)) in
           let (id, s) := setTimeout DispatchTimer delay s in
           with_nodeRedTimeout (Some id) s
       end.

(** How a request issued by [postToNodeRed] ends. *)
Inductive Outcome : Type :=
| Responded (ok : bool)      (* fetch resolved; [response.ok] *)
| Aborted                    (* rejected, [error.name === 'AbortError'] *)
| Failed (errorCode : jsval). (* rejected, [error?.cause?.code || error.code] *)

(** [postToNodeRed(body)] after the [await], at the instant [now] the
    request ends.  The 5 s abort timer belongs to the request alone: it makes
    the request end as [Aborted] or is cleared in the [finally]. *)
Definition postToNodeRed_settled (cfg : Config) (now : Z) (o : Outcome) (s : Server) : Server :=
  match o with
  | Responded ok =>
      let s := if negb ok then emit (ConsoleError NodeRedHttpStatus) s else s in
      let s := with_nodeRedNextAttemptAt 0 s in
      let s := with_nodeRedSuppressedWarningLogged false s in
      match nodeRedCooldownTimer s with
      | Some id => with_nodeRedCooldownTimer None (clearTimeout id s)
      | None => s
      end
  | Aborted => emit (ConsoleWarn NodeRedTimedOut) s
  | Failed errorCode =>
      if is_string errorCode "ECONNREFUSED" then
        let s := with_nodeRedNextAttemptAt (now + NODE_RED_RETRY_COOLDOWN_MS cfg) s in
        let s := if negb (nodeRedSuppressedWarningLogged s)
                 then with_nodeRedSuppressedWarningLogged true
                        (emit (ConsoleWarn NodeRedSuppressing) s)
                 else s in
        match nodeRedCooldownTimer s with
        | Some _ => s
        | None =>
            let delay := Z.max 0 (nodeRedNextAttemptAt s - now) in
            let (id, s) :=
              setTimeout CooldownTimer
                (if (delay =? 0)%Z then NODE_RED_RETRY_COOLDOWN_MS cfg else delay) s in
            with_nodeRedCooldownTimer (Some id) s
        end
      else emit (ConsoleError NodeRedRequestFailed) s
  end.

(** A timer of the loop runs its callback. *)
Definition timerFired (cfg : Config) (now : Z) (id : nat) (s : Server) : Server :=
  match armed id (timers s) with
  | None => s
  | Some DispatchTimer => dispatch cfg now (with_timers (cancel id (timers s)) s)
  | Some CooldownTimer =>
      scheduleNodeRedPush cfg now
        (with_nodeRedCooldownTimer None (with_timers (cancel id (timers s)) s))
  end.

(** The argument of [updateState]: [{ mode }] or [{ stick }]. *)
Record NewState : Type := mkNewState { newMode : jsval; newStick : option StickVector }.

(** [a ?? b]. *)
Definition nullish_or (a b : jsval) : jsval :=
  match a with
  | JUndefined | JNull => b
  | _ => a
  end.

(** [updateState(newState)].  A stick passed in has the four fields, so the
    spread [{ ...state.stick, ...newState.stick }] is that stick. *)
Definition updateState (cfg : Config) (now : Z) (newState : NewState) (s : Server) : Server :=
  let mode' := nullish_or (newMode newState) (mode (state s)) in
  let stick' := match newStick newState with
                | Some stick => stick
                | None => stick (state s)
                end in
  scheduleNodeRedPush cfg now (with_state (mkState mode' stick' now) s).

Definition validateMode (value : jsval) : bool :=
  is_string value "automatic" || is_string value "manual".

(** [sanitizeNumber(value, fallback = 0)]. *)
Definition sanitizeNumber (value : jsval) : result num :=
  do n <- Number value ;;
  if negb (isFinite n) then Ok (Fin 0)
  else Ok (Math_max (Fin (-1)) (Math_min (Fin 1) n)).

(** [normalizeStickPayload(payload)]. *)
Definition normalizeStickPayload (payload : jsval) : result StickVector :=
  do x <- sanitizeNumber (get "x" payload) ;;
  do y <- sanitizeNumber (get "y" payload) ;;
  do m <- (if Number_isFinite (get "mag" payload)
           then Number (get "mag" payload)
           else Ok (Math_hypot x y)) ;;
  let mag := Math_max (Fin 0) (Math_min (Fin 1) m) in
  do deg <- (if Number_isFinite (get "deg" payload)
             then do d <- Number (get "deg" payload) ;;
                  Ok (rem (add (rem d (Fin 360)) (Fin 360)) (Fin 360))
             else
               let rad := Math_atan2 y x in
               Ok (rem (add (mul rad (div (Fin 180) Math_PI)) (Fin 360)) (Fin 360))) ;;
  Ok (mkStick x y mag deg).

(** What a socket delivers: text [JSON.parse] rejects, or the parsed value. *)
Inductive Frame : Type :=
| Malformed
| Parsed (message : jsval).

(** [ws.on('message', ...)]. *)
Definition onMessage (cfg : Config) (now : Z) (data : Frame) (s : Server) : Server :=
  match data with
  | Malformed => emit (ConsoleWarn InvalidJSON) s
  | Parsed message =>
      if negb (truthy message) || negb (typeof_object message) then s
      else if is_string (get "type" message) "setMode" then
        if negb (validateMode (get "mode" message))
        then emit (ConsoleWarn (InvalidMode (get "mode" message))) s
        else
          let s := updateState cfg now (mkNewState (get "mode" message) None) s in
          broadcast (MsgMode (mode (state s)) (ts (state s))) None s
      else if is_string (get "type" message) "stick" then
        match normalizeStickPayload message with
        | Throw => emit Uncaught s
        | Ok stick =>
            let s := updateState cfg now (mkNewState JUndefined (Some stick)) s in
            broadcast (MsgStick (Server.stick (state s)) (ts (state s))) None s
        end
      else emit (ConsoleWarn (UnknownType (get "type" message))) s
  end.

(** [wss.on('connection', ...)]: flag, registration, initial state. *)
Definition onConnection (ws : nat) (s : Server) : Server :=
  let s :=
    if existsb (fun c => Nat.eqb (conn c) ws) (clients s)
    then with_clients
           (map (fun c => if Nat.eqb (conn c) ws then mkConnection ws true (isOpen c) else c)
                (clients s)) s
    else with_clients (clients s ++ [mkConnection ws true true]) s in
  emit (Send ws (MsgState (mode (state s)) (stick (state s)) (ts (state s)))) s.

(** [ws.on('pong', ...)]. *)
Definition onPong (ws : nat) (s : Server) : Server :=
  with_clients
    (map (fun c => if Nat.eqb (conn c) ws then mkConnection ws true (isOpen c) else c)
         (clients s)) s.

(** [ws.on('close', ...)]. *)
Definition onClose (ws : nat) (s : Server) : Server :=
  with_clients (filter (fun c => negb (Nat.eqb (conn c) ws)) (clients s)) s.

(** The body of the heartbeat interval, over the registry in iteration
    order: the connections kept and what was done to each. *)
Fixpoint heartbeatSweep (cs : list Connection) : list Connection * list Effect :=
  match cs with
  | [] => ([], [])
  | ws :: rest =>
      let (kept, done) := heartbeatSweep rest in
      if negb (isAlive ws)
      then (kept, Terminate (conn ws) :: done)
      else (mkConnection (conn ws) false (isOpen ws) :: kept, Ping (conn ws) :: done)
  end.

Definition heartbeat (s : Server) : Server :=
  let (kept, done) := heartbeatSweep (clients s) in
  emits done (with_clients kept s).

(** The events of the loop. *)
Inductive Event : Type :=
| Connection_ (ws : nat)
| Message (ws : nat) (data : Frame)
| Pong (ws : nat)
| Close (ws : nat)
| HeartbeatTick
| TimerFired (id : nat)
| FetchSettled (o : Outcome).

Definition step (cfg : Config) (now : Z) (e : Event) (s : Server) : Server :=
  match e with
  | Connection_ ws => onConnection ws s
  | Message _ data => onMessage cfg now data s
  | Pong ws => onPong ws s
  | Close ws => onClose ws s
  | HeartbeatTick => heartbeat s
  | TimerFired id => timerFired cfg now id s
  | FetchSettled o => postToNodeRed_settled cfg now o s
  end.

(** A run: each event with the instant at which its handler runs. *)
Definition run (cfg : Config) (events : list (Z * Event)) (s : Server) : Server :=
  fold_left (fun acc te => step cfg (fst te) (snd te) acc) events s.

(** Start-up: the initial values, then the call [scheduleNodeRedPush()]. *)
Definition boot (cfg : Config) (now : Z) : Server :=
  scheduleNodeRedPush cfg now (init now).

End Server.

(** * The client: public/app.js *)

(** [Math.min] on binary64 floats. *)
Definition Math_min_float (a b : float) : float :=
  if (PrimFloat.is_nan a || PrimFloat.is_nan b)%bool then PrimFloat.nan
  else if PrimFloat.ltb a b then a
  else if PrimFloat.ltb b a then b
  else if PrimFloat.get_sign a then a else b.

Module Client.

Definition UI_THROTTLE_MS : Z := 33.
Definition MAX_RECONNECT_DELAY : float := 10000%float.

(** The local [state = { mode, stick }]. *)
Record State : Type := mkState { mode : jsval; stick : StickVector }.

Inductive ReadyState : Type := CONNECTING | OPEN | CLOSING | CLOSED.

(** What the client sends to the server. *)
Inductive ClientMessage : Type :=
| SetModeMsg (mode : jsval) (ts : Z)
| StickMsg (x y mag deg : num) (ts : Z).

Inductive Status : Type := Connecting | Connected | Reconnecting | ConnectionError.

Inductive ConsoleText : Type :=
| FailedToSend        (* [WS] Failed to send payload *)
| ConnectionFailed    (* [WS] Connection failed: *)
| UnhandledType (received : jsval) (* [WS] Unhandled message type *)
| FailedToParse       (* [WS] Failed to parse message *)
| SocketError.        (* [WS] Socket error *)

Inductive TimerKind : Type :=
| StickTimer       (* the callback armed by queueStickSend *)
| ReconnectTimer.  (* the callback armed by scheduleReconnect *)

Inductive Effect : Type :=
| SocketSend (payload : ClientMessage)   (* socket.send(JSON.stringify(payload)) *)
| NewWebSocket
| SetStatus (status : Status)
| ConsoleWarn (text : ConsoleText)
| ConsoleError (text : ConsoleText)
| Uncaught
| SetStickTimeout (id : nat) (delay : Z)
| SetReconnectTimeout (id : nat) (delay : float).

(** The geometry the handlers read from the page. *)
Record Layout : Type := mkLayout {
  padLeft : num; padTop : num; padWidth : num; padHeight : num;
  thumbWidth : num
}.

Record PointerEvent : Type := mkPointerEvent {
  pointerId : Z; clientX : num; clientY : num
}.

Record Client : Type := mkClient {
  state : State;
  isDragging : bool;
  activePointerId : option Z;
  lastStickSend : Z;
  pendingStickTimeout : option nat;
  reconnectDelay : float;
  reconnectTimer : option nat;
  socket : option ReadyState;        (* [undefined], or the [readyState] of [socket] *)
  modeSwitchChecked : bool;
  thumb : option (num * num);        (* the [--dx], [--dy] of the thumb, in px *)
  layout : Layout;
  timers : list (nat * TimerKind);
  fresh : nat;
  log : list Effect
}.

Definition with_state (v : State) (c : Client) : Client :=
  mkClient v (isDragging c) (activePointerId c) (lastStickSend c)
    (pendingStickTimeout c) (reconnectDelay c) (reconnectTimer c) (socket c)
    (modeSwitchChecked c) (thumb c) (layout c) (timers c) (fresh c) (log c).

Definition with_drag (dragging : bool) (pointer : option Z) (c : Client) : Client :=
  mkClient (state c) dragging pointer (lastStickSend c)
    (pendingStickTimeout c) (reconnectDelay c) (reconnectTimer c) (socket c)
    (modeSwitchChecked c) (thumb c) (layout c) (timers c) (fresh c) (log c).

Definition with_lastStickSend (v : Z) (c : Client) : Client :=
  mkClient (state c) (isDragging c) (activePointerId c) v
    (pendingStickTimeout c) (reconnectDelay c) (reconnectTimer c) (socket c)
    (modeSwitchChecked c) (thumb c) (layout c) (timers c) (fresh c) (log c).

Definition with_pendingStickTimeout (v : option nat) (c : Client) : Client :=
  mkClient (state c) (isDragging c) (activePointerId c) (lastStickSend c)
    v (reconnectDelay c) (reconnectTimer c) (socket c)
    (modeSwitchChecked c) (thumb c) (layout c) (timers c) (fresh c) (log c).

Definition with_reconnectDelay (v : float) (c : Client) : Client :=
  mkClient (state c) (isDragging c) (activePointerId c) (lastStickSend c)
    (pendingStickTimeout c) v (reconnectTimer c) (socket c)
    (modeSwitchChecked c) (thumb c) (layout c) (timers c) (fresh c) (log c).

Definition with_reconnectTimer (v : option nat) (c : Client) : Client :=
  mkClient (state c) (isDragging c) (activePointerId c) (lastStickSend c)
    (pendingStickTimeout c) (reconnectDelay c) v (socket c)
    (modeSwitchChecked c) (thumb c) (layout c) (timers c) (fresh c) (log c).

Definition with_socket (v : option ReadyState) (c : Client) : Client :=
  mkClient (state c) (isDragging c) (activePointerId c) (lastStickSend c)
    (pendingStickTimeout c) (reconnectDelay c) (reconnectTimer c) v
    (modeSwitchChecked c) (thumb c) (layout c) (timers c) (fresh c) (log c).

Definition with_modeSwitchChecked (v : bool) (c : Client) : Client :=
  mkClient (state c) (isDragging c) (activePointerId c) (lastStickSend c)
    (pendingStickTimeout c) (reconnectDelay c) (reconnectTimer c) (socket c)
    v (thumb c) (layout c) (timers c) (fresh c) (log c).

Definition with_thumb (v : option (num * num)) (c : Client) : Client :=
  mkClient (state c) (isDragging c) (activePointerId c) (lastStickSend c)
    (pendingStickTimeout c) (reconnectDelay c) (reconnectTimer c) (socket c)
    (modeSwitchChecked c) v (layout c) (timers c) (fresh c) (log c).

Definition with_layout (v : Layout) (c : Client) : Client :=
  mkClient (state c) (isDragging c) (activePointerId c) (lastStickSend c)
    (pendingStickTimeout c) (reconnectDelay c) (reconnectTimer c) (socket c)
    (modeSwitchChecked c) (thumb c) v (timers c) (fresh c) (log c).

Definition with_timers (v : list (nat * TimerKind)) (c : Client) : Client :=
  mkClient (state c) (isDragging c) (activePointerId c) (lastStickSend c)
    (pendingStickTimeout c) (reconnectDelay c) (reconnectTimer c) (socket c)
    (modeSwitchChecked c) (thumb c) (layout c) v (fresh c) (log c).

Definition with_fresh (v : nat) (c : Client) : Client :=
  mkClient (state c) (isDragging c) (activePointerId c) (lastStickSend c)
    (pendingStickTimeout c) (reconnectDelay c) (reconnectTimer c) (socket c)
    (modeSwitchChecked c) (thumb c) (layout c) (timers c) v (log c).

Definition emit (e : Effect) (c : Client) : Client :=
  mkClient (state c) (isDragging c) (activePointerId c) (lastStickSend c)
    (pendingStickTimeout c) (reconnectDelay c) (reconnectTimer c) (socket c)
    (modeSwitchChecked c) (thumb c) (layout c) (timers c) (fresh c) (log c ++ [e]).

(** [clearTimeout(handle)]; [undefined] and handles of timers that ran are ignored. *)
Definition clearTimeout (handle : option nat) (c : Client) : Client :=
  match handle with
  | Some id => with_timers (cancel id (timers c)) c
  | None => c
  end.

(** A handler ends normally or by an exception, in the state reached. *)
Inductive Outcome : Type :=
| Done (c : Client)
| Thrown (c : Client).

Definition andThen (o : Outcome) (k : Client -> Outcome) : Outcome :=
  match o with
  | Done c => k c
  | Thrown c => Thrown c
  end.

(** An exception nobody catches is reported by the browser. *)
Definition settle (o : Outcome) : Client :=
  match o with
  | Done c => c
  | Thrown c => emit Uncaught c
  end.

(** The module-level initial values. *)
Definition init (page : Layout) : Client :=
  mkClient (mkState (JStr "automatic" NaN) zeroStick)
    false None 0 None 1000%float None None false None page [] 0 [].

Definition setStatus (status : Status) (c : Client) : Client :=
  emit (SetStatus status) c.

Definition clamp (value min max : num) : num :=
  Math_min (Math_max value min) max.

(** [normalizeDegrees(value)]; on the reals the sum [+ 360] is exact. *)
Definition normalizeDegrees (value : num) : num :=
  rem (add (rem value (Fin 360)) (Fin 360)) (Fin 360).

Definition calculateJoystickDegrees (x y : num) : num :=
  if lt (Math_abs x) Number_EPSILON && lt (Math_abs y) Number_EPSILON
  then Fin 0
  else
    let standardDegrees := mul (Math_atan2 y x) (div (Fin 180) Math_PI) in
    normalizeDegrees (sub (Fin 90) standardDegrees).

(** [setThumbPosition(x, y)]. *)
Definition setThumbPosition (x y : num) (c : Client) : Client :=
  let maxRadius := div (padWidth (layout c)) (Fin 2) in
  let thumbRadius := div (thumbWidth (layout c)) (Fin 2) in
  let travel := sub maxRadius thumbRadius in
  let offsetX := mul (clamp x (Fin (-1)) (Fin 1)) travel in
  let offsetY := mul (clamp (neg y) (Fin (-1)) (Fin 1)) travel in
  with_thumb (Some (offsetX, offsetY)) c.

(** The four fields [applyStickData] computes from its argument. *)
Definition normalizeStick (raw : jsval) : result StickVector :=
  do nx <- Number (get "x" raw) ;;
  let x := clamp (num_or nx (Fin 0)) (Fin (-1)) (Fin 1) in
  do ny <- Number (get "y" raw) ;;
  let y := clamp (num_or ny (Fin 0)) (Fin (-1)) (Fin 1) in
  do magValue <- Number (get "mag" raw) ;;
  let mag := clamp (if isFinite magValue then magValue else Math_hypot x y)
                   (Fin 0) (Fin 1) in
  do d <- Number (get "deg" raw) ;;
  let deg := if negb (isFinite d) then calculateJoystickDegrees x y
             else normalizeDegrees d in
  Ok (mkStick x y mag deg).

(** [applyStickData(stick, { fromServer })]; the telemetry text it refreshes
    is a function of [state] and is not kept. *)
Definition applyStickData (raw : jsval) (fromServer : bool) (c : Client) : Outcome :=
  match normalizeStick raw with
  | Throw => Thrown c
  | Ok v =>
      let c := with_state (mkState (mode (state c)) v) c in
      if negb (isDragging c) || negb fromServer
      then Done (setThumbPosition (x v) (y v) c)
      else Done c
  end.

(** [sendMessage(payload)]. *)
Definition sendMessage (payload : ClientMessage) (c : Client) : Client :=
  match socket c with
  | Some OPEN => emit (SocketSend payload) c
  | _ => c
  end.

(** [setMode(mode, { fromServer })]. *)
Definition setMode (now : Z) (newMode : jsval) (fromServer : bool) (c : Client) : Outcome :=
  if negb (is_string newMode "automatic") && negb (is_string newMode "manual")
  then Done c
  else
    let c := with_state (mkState newMode (stick (state c))) c in
    let c := with_modeSwitchChecked (is_string (mode (state c)) "manual") c in
    andThen
      (if negb (is_string (mode (state c)) "manual") && negb (isDragging c)
       then applyStickData (stick_value zeroStick) false c
       else Done c)
      (fun c =>
         if negb fromServer
         then Done (sendMessage (SetModeMsg (mode (state c)) now) c)
         else Done c).

(** [sendStickPayload()]. *)
Definition sendStickPayload (now : Z) (c : Client) : Client :=
  match socket c with
  | Some OPEN =>
      let c := with_lastStickSend now c in
      let c := with_pendingStickTimeout None c in
      sendMessage
        (StickMsg (x (stick (state c))) (y (stick (state c)))
                  (mag (stick (state c))) (deg (stick (state c)))
                  (lastStickSend c)) c
  | _ => c
  end.

(** [queueStickSend()]. *)
Definition queueStickSend (now : Z) (c : Client) : Client :=
  if (now - lastStickSend c >=? UI_THROTTLE_MS)%Z then sendStickPayload now c
  else match pendingStickTimeout c with
       | Some _ => c
       | None =>
           let id := fresh c in
           let delay := (UI_THROTTLE_MS - (now - lastStickSend c))%Z in
           let c := with_timers (timers c ++ [(id, StickTimer)]) c in
           let c := with_fresh (S id) c in
           let c := emit (SetStickTimeout id delay) c in
           with_pendingStickTimeout (Some id) c
       end.

(** [resetStick()]. *)
Definition resetStick (now : Z) (c : Client) : Outcome :=
  andThen (applyStickData (stick_value zeroStick) false c)
          (fun c => Done (queueStickSend now c)).

(** [handlePointerEvent(event)]. *)
Definition handlePointerEvent (now : Z) (event : PointerEvent) (c : Client) : Outcome :=
  if negb (is_string (mode (state c)) "manual") then Done c
  else
    let rect := layout c in
    let centerX := add (padLeft rect) (div (padWidth rect) (Fin 2)) in
    let centerY := add (padTop rect) (div (padHeight rect) (Fin 2)) in
    let radius := div (padWidth rect) (Fin 2) in
    let rawX := div (sub (clientX event) centerX) radius in
    let rawY := div (sub (clientY event) centerY) radius in
    let distance := Math_hypot rawX rawY in
    let rawX := if gt distance (Fin 1) then div rawX distance else rawX in
    let rawY := if gt distance (Fin 1) then div rawY distance else rawY in
    let normalizedX := clamp rawX (Fin (-1)) (Fin 1) in
    let normalizedY := clamp (neg rawY) (Fin (-1)) (Fin 1) in
    let magnitude := clamp (Math_hypot normalizedX normalizedY) (Fin 0) (Fin 1) in
    let degrees := calculateJoystickDegrees normalizedX normalizedY in
    let nextStick := mkStick normalizedX normalizedY magnitude degrees in
    andThen (applyStickData (stick_value nextStick) false c)
            (fun c => Done (queueStickSend now c)).

(** [scheduleReconnect()]. *)
Definition scheduleReconnect (c : Client) : Client :=
  let c := clearTimeout (reconnectTimer c) c in
  let id := fresh c in
  let c := with_timers (timers c ++ [(id, ReconnectTimer)]) c in
  let c := with_fresh (S id) c in
  let c := emit (SetReconnectTimeout id (reconnectDelay c)) c in
  with_reconnectTimer (Some id) c.

(** [connectSocket()]; [created] tells whether [new WebSocket(url)] returned. *)
Definition connectSocket (created : bool) (c : Client) : Client :=
  let c := clearTimeout (reconnectTimer c) c in
  let c := setStatus Connecting c in
  if created
  then with_socket (Some CONNECTING) (emit NewWebSocket c)
  else scheduleReconnect (emit (ConsoleError ConnectionFailed) c).

(** The [open] listener; the socket is open when it runs. *)
Definition onOpen (now : Z) (c : Client) : Outcome :=
  let c := with_socket (Some OPEN) c in
  let c := setStatus Connected c in
  let c := with_reconnectDelay 1000%float c in
  andThen
    (if is_string (mode (state c)) "manual"
     then Done (queueStickSend now c)
     else resetStick now c)
    (fun c => Done (sendMessage (SetModeMsg (mode (state c)) now) c)).

(** What the socket delivers, as for the server. *)
Inductive Frame : Type :=
| Malformed
| Parsed (message : jsval).

(** The [message] listener: the [switch], inside [try]. *)
Definition dispatchMessage (now : Z) (message : jsval) (c : Client) : Outcome :=
  match message with
  | JNull | JUndefined => Thrown c
  | _ =>
      let type := get "type" message in
      if is_string type "state" then
        andThen
          (if truthy (get "mode" message)
           then setMode now (get "mode" message) true c
           else Done c)
          (fun c =>
             if truthy (get "stick" message)
             then applyStickData (get "stick" message) true c
             else Done c)
      else if is_string type "mode" then
        if truthy (get "mode" message)
        then setMode now (get "mode" message) true c
        else Done c
      else if is_string type "stick" then
        if truthy (get "stick" message)
        then applyStickData (get "stick" message) true c
        else Done c
      else Done (emit (ConsoleWarn (UnhandledType type)) c)
  end.

Definition onMessage (now : Z) (data : Frame) (c : Client) : Client :=
  match data with
  | Malformed => emit (ConsoleError FailedToParse) c
  | Parsed message =>
      match dispatchMessage now message c with
      | Done c => c
      | Thrown c => emit (ConsoleError FailedToParse) c
      end
  end.

(** The [close] listener; the socket is closed when it runs. *)
Definition onClose (c : Client) : Client :=
  let c := with_socket (Some CLOSED) c in
  scheduleReconnect (setStatus Reconnecting c).

(** The [error] listener. *)
Definition onError (c : Client) : Client :=
  setStatus ConnectionError (emit (ConsoleError SocketError) c).

(** A timer of the loop runs its callback. *)
Definition timerFired (now : Z) (created : bool) (id : nat) (c : Client) : Client :=
  match armed id (timers c) with
  | None => c
  | Some StickTimer =>
      let c := with_timers (cancel id (timers c)) c in
      let c := with_pendingStickTimeout None c in
      sendStickPayload now c
  | Some ReconnectTimer =>
      let c := with_timers (cancel id (timers c)) c in
      let c := with_reconnectDelay
                 (Math_min_float (PrimFloat.mul (reconnectDelay c) 1.5%float)
                                 MAX_RECONNECT_DELAY) c in
      connectSocket created c
  end.

(** The [change] listener of the mode switch; the page has set [checked]. *)
Definition onModeSwitchChange (now : Z) (checked : bool) (c : Client) : Outcome :=
  let c := with_modeSwitchChecked checked c in
  let desiredMode := if modeSwitchChecked c then "manual"%string else "automatic"%string in
  andThen (setMode now (JStr desiredMode NaN) false c)
          (fun c =>
             if String.eqb desiredMode "automatic" then resetStick now c else Done c).

Definition onPointerDown (now : Z) (event : PointerEvent) (c : Client) : Outcome :=
  if negb (is_string (mode (state c)) "manual") then Done c
  else handlePointerEvent now event (with_drag true (Some (pointerId event)) c).

Definition same_pointer (id : Z) (active : option Z) : bool :=
  match active with
  | Some a => Z.eqb id a
  | None => false
  end.

Definition onPointerMove (now : Z) (event : PointerEvent) (c : Client) : Outcome :=
  if negb (isDragging c) || negb (same_pointer (pointerId event) (activePointerId c))
  then Done c
  else handlePointerEvent now event c.

(** [endPointer], the [pointerup] and [pointercancel] listener. *)
Definition endPointer (now : Z) (event : PointerEvent) (c : Client) : Outcome :=
  if negb (same_pointer (pointerId event) (activePointerId c)) then Done c
  else resetStick now (with_drag false None c).

Definition onLostPointerCapture (now : Z) (c : Client) : Outcome :=
  if isDragging c then resetStick now (with_drag false None c) else Done c.

(** The [resize] listener; the page has its new geometry. *)
Definition onResize (page : Layout) (c : Client) : Client :=
  let c := with_layout page c in
  setThumbPosition (x (stick (state c))) (y (stick (state c))) c.

(** The events of the loop. *)
Inductive Event : Type :=
| SocketOpen
| SocketMessage (data : Frame)
| SocketClose
| SocketErrorEvent
| TimerFired (id : nat) (created : bool)
| ModeSwitchChange (checked : bool)
| PointerDown (event : PointerEvent)
| PointerMove (event : PointerEvent)
| PointerUp (event : PointerEvent)
| LostPointerCapture
| Resize (page : Layout).

Definition step (now : Z) (e : Event) (c : Client) : Client :=
  match e with
  | SocketOpen => settle (onOpen now c)
  | SocketMessage data => onMessage now data c
  | SocketClose => onClose c
  | SocketErrorEvent => onError c
  | TimerFired id created => timerFired now created id c
  | ModeSwitchChange checked => settle (onModeSwitchChange now checked c)
  | PointerDown event => settle (onPointerDown now event c)
  | PointerMove event => settle (onPointerMove now event c)
  | PointerUp event => settle (endPointer now event c)
  | LostPointerCapture => settle (onLostPointerCapture now c)
  | Resize page => onResize page c
  end.

Definition run (events : list (Z * Event)) (c : Client) : Client :=
  fold_left (fun acc te => step (fst te) (snd te) acc) events c.

(** The last three statements of the script:
    [setMode(state.mode, { fromServer: true }); connectSocket()]. *)
Definition start (now : Z) (created : bool) (page : Layout) : Client :=
  connectSocket created (settle (setMode now (mode (state (init page))) true (init page))).

End Client.

(** * Vocabulary of the specification *)

(** A plain object literal and a string that is no numeral: [Number] maps
    both to [NaN]. *)
Definition obj (props : list (string * jsval)) : jsval := JObj props (Some NaN).
Definition str (s : string) : jsval := JStr s NaN.

(** [n] is a finite number in [[lo, hi]], resp. in [[lo, hi)]. *)
Definition between (lo hi : R) (n : num) : Prop :=
  match n with
  | Fin r => (lo <= r <= hi)%R
  | _ => False
  end.

Definition below (lo hi : R) (n : num) : Prop :=
  match n with
  | Fin r => (lo <= r < hi)%R
  | _ => False
  end.

(** The ranges of the data model. *)
Definition valid_stick (v : StickVector) : Prop :=
  between (-1) 1 (x v) /\ between (-1) 1 (y v) /\
  between 0 1 (mag v) /\ below 0 360 (deg v).

Definition valid_mode (m : jsval) : Prop :=
  is_string m "automatic" = true \/ is_string m "manual" = true.

Definition valid_state (st : Server.State) : Prop :=
  valid_stick (Server.stick st) /\ valid_mode (Server.mode st).

(** The vector lies on the unit circle. *)
Definition on_unit_circle (v : StickVector) : Prop :=
  match x v, y v with
  | Fin a, Fin b => (a * a + b * b = 1)%R
  | _, _ => False
  end.

(** The stick messages [{ type: 'stick', x: 2, y: -2 }] and
    [{ type: 'stick', x: 1, y: 0 }]. *)
Definition payload_2_m2 : jsval :=
  obj [("type"%string, str "stick"); ("x"%string, JNum (Fin 2)); ("y"%string, JNum (Fin (-2)))].

Definition payload_1_0 : jsval :=
  obj [("type"%string, str "stick"); ("x"%string, JNum (Fin 1)); ("y"%string, JNum (Fin 0))].

(** The messages [{ type: 'setMode', mode }] and
    [{ type: 'stick', x: 1, y: 0, mag: 1, deg: 90 }]. *)
Definition setModeMessage (mode : string) : jsval :=
  obj [("type"%string, str "setMode"); ("mode"%string, str mode)].

Definition stickMessage_1_0_1_90 : jsval :=
  obj [("type"%string, str "stick"); ("x"%string, JNum (Fin 1)); ("y"%string, JNum (Fin 0));
       ("mag"%string, JNum (Fin 1)); ("deg"%string, JNum (Fin 90))].

(** The frames the server rejects: text that is not JSON, an object whose
    [type] is neither ['setMode'] nor ['stick'], a [setMode] whose [mode] is
    not one of the two modes. *)
Definition unknown_type (message : jsval) : Prop :=
  is_string (get "type" message) "setMode" = false /\
  is_string (get "type" message) "stick" = false.

Definition invalid_setMode (message : jsval) : Prop :=
  is_string (get "type" message) "setMode" = true /\
  Server.validateMode (get "mode" message) = false.

Inductive bad_frame : Server.Frame -> Prop :=
| bad_json : bad_frame Server.Malformed
| bad_type props n :
    unknown_type (JObj props n) -> bad_frame (Server.Parsed (JObj props n))
| bad_mode props n :
    invalid_setMode (JObj props n) -> bad_frame (Server.Parsed (JObj props n)).

(** The parsed frames the guard [!message || typeof message !== 'object']
    turns away: [null], and the numbers, strings and booleans. *)
Definition not_an_object (message : jsval) : Prop :=
  truthy message = false \/ typeof_object message = false.

(** The [isAlive] flag of the connection [ws] in a registry, [None] when
    [ws] is not registered. *)
Fixpoint liveness (ws : nat) (cs : list Server.Connection) : option bool :=
  match cs with
  | [] => None
  | c :: rest =>
      if Nat.eqb (Server.conn c) ws then Some (Server.isAlive c) else liveness ws rest
  end.

(** A registry holds a connection once. *)
Definition distinct_connections (s : Server.Server) : Prop :=
  NoDup (map Server.conn (Server.clients s)).

(** Events that neither come from the connection [ws] nor are a heartbeat. *)
Definition quiet_for (ws : nat) (e : Server.Event) : bool :=
  match e with
  | Server.Connection_ c | Server.Pong c | Server.Close c => negb (Nat.eqb c ws)
  | Server.HeartbeatTick => false
  | Server.Message _ _ | Server.TimerFired _ | Server.FetchSettled _ => true
  end.

(** The state in which a handler of the client ended. *)
Definition final (o : Client.Outcome) : Client.Client :=
  match o with
  | Client.Done c | Client.Thrown c => c
  end.

(** The delays [scheduleReconnect] has passed to [setTimeout], oldest first. *)
Definition reconnectDelays (l : list Client.Effect) : list float :=
  flat_map
    (fun e => match e with
              | Client.SetReconnectTimeout _ delay => [delay]
              | _ => []
              end) l.

(** The reconnection timers that are armed. *)
Definition pendingReconnects (c : Client.Client) : list nat :=
  map fst
    (filter (fun t => match snd t with
                      | Client.ReconnectTimer => true
                      | Client.StickTimer => false
                      end) (Client.timers c)).

(** One failed attempt: the socket closes, the timer armed for the
    reconnection runs and opens the next socket. *)
Definition failedAttempt (now : Z) (c : Client.Client) : Client.Client :=
  let c := Client.step now Client.SocketClose c in
  match Client.reconnectTimer c with
  | Some id => Client.step now (Client.TimerFired id true) c
  | None => c
  end.

Fixpoint failedAttempts (n : nat) (now : Z) (c : Client.Client) : Client.Client :=
  match n with
  | O => c
  | S n => failedAttempt now (failedAttempts n now c)
  end.

(** The sequence of the specification: 1000, 1500, ..., 7593.75, then 10000
    for ever. *)
Definition backoffSequence : list float :=
  [1000; 1500; 2250; 3375; 5062.5; 7593.75]%float.

Definition expectedDelay (n : nat) : float := nth n backoffSequence 10000%float.

(** Handles are handed out in increasing order and name one timer each. *)
Definition timers_ok (c : Client.Client) : Prop :=
  (forall id k, In (id, k) (Client.timers c) -> (id < Client.fresh c)%nat) /\
  NoDup (map fst (Client.timers c)).

(** The variable [reconnectTimer] holds every armed reconnection timer. *)
Definition reconnect_tracked (c : Client.Client) : Prop :=
  forall id, In id (pendingReconnects c) -> Client.reconnectTimer c = Some id.

(** The two together: what holds of the timers in every state of the client. *)
Definition reconnect_inv (c : Client.Client) : Prop :=
  timers_ok c /\ reconnect_tracked c.

(** [c'] differs from [c] in nothing the reconnection manager reads or
    writes. *)
Definition reconnect_frame (c c' : Client.Client) : Prop :=
  Client.reconnectDelay c' = Client.reconnectDelay c /\
  Client.reconnectTimer c' = Client.reconnectTimer c /\
  reconnectDelays (Client.log c') = reconnectDelays (Client.log c) /\
  pendingReconnects c' = pendingReconnects c /\
  (timers_ok c -> timers_ok c').

(** An effect other than the arming of a reconnection timer. *)
Definition silent (e : Client.Effect) : Prop :=
  match e with
  | Client.SetReconnectTimeout _ _ => False
  | _ => True
  end.

(** [c'] has the mode and the drag flag of [c]. *)
Definition drag_frame (c c' : Client.Client) : Prop :=
  Client.mode (Client.state c') = Client.mode (Client.state c) /\
  Client.isDragging c' = Client.isDragging c.

(** A page with a pad of 200 px and a thumb of 40 px, a pointer at the
    centre of the pad, and the broadcast [{ type: 'stick', stick }]. *)
Definition page0 : Client.Layout :=
  Client.mkLayout (Fin 0) (Fin 0) (Fin 200) (Fin 200) (Fin 40).

Definition pointerAtCentre : Client.PointerEvent :=
  Client.mkPointerEvent 1 (Fin 100) (Fin 100).

Definition serverStick (v : StickVector) : jsval :=
  obj [("type"%string, str "stick"); ("stick"%string, stick_value v)].

(** A client that connected, was switched to manual and holds the thumb. *)
Definition dragging_client : Client.Client :=
  Client.run
    [(10%Z, Client.SocketOpen); (20%Z, Client.ModeSwitchChange true);
     (30%Z, Client.PointerDown pointerAtCentre)]
    (Client.start 0 true page0).

(** The request ended with the error code [ECONNREFUSED]. *)
Definition refused : Server.Outcome := Server.Failed (str "ECONNREFUSED").

(** The test of [postToNodeRed] and [dispatch]: the breaker is open at [now]. *)
Definition breakerOpen (now : Z) (s : Server.Server) : bool :=
  negb (Server.nodeRedNextAttemptAt s =? 0)%Z && (now <? Server.nodeRedNextAttemptAt s)%Z.

(** The three variables of the breaker. *)
Definition breaker (s : Server.Server) : Z * bool * option nat :=
  (Server.nodeRedNextAttemptAt s, Server.nodeRedSuppressedWarningLogged s,
   Server.nodeRedCooldownTimer s).

(** Requests issued, warnings of the breaker and cool-down timers armed, as
    the log records them. *)
Definition isFetch (e : Server.Effect) : bool :=
  match e with Server.Fetch _ => true | _ => false end.

Definition isSuppressWarning (e : Server.Effect) : bool :=
  match e with Server.ConsoleWarn Server.NodeRedSuppressing => true | _ => false end.

Definition isCooldownArming (e : Server.Effect) : bool :=
  match e with Server.SetTimeout _ Server.CooldownTimer _ => true | _ => false end.

Definition count (p : Server.Effect -> bool) (l : list Server.Effect) : nat :=
  List.length (filter p l).

(** The variable [nodeRedCooldownTimer] holds every armed cool-down timer. *)
Definition cooldown_tracked (s : Server.Server) : Prop :=
  forall id, In (id, Server.CooldownTimer) (Server.timers s) ->
             Server.nodeRedCooldownTimer s = Some id.

(** What may happen inside the window opened at [t0]: any event but the
    completion of a request with a response and the cool-down timer [id],
    at an instant from [t0] up to the end of the window. *)
Definition in_window (t0 cooldown : Z) (id : nat) (te : Z * Server.Event) : Prop :=
  (t0 <= fst te < t0 + cooldown)%Z /\
  match snd te with
  | Server.FetchSettled (Server.Responded _) => False
  | Server.TimerFired i => i <> id
  | _ => True
  end.

(** [s'] differs from [s] in nothing the breaker reads or writes, and no
    request, warning of the breaker or cool-down timer was added. *)
Definition window_frame (s s' : Server.Server) : Prop :=
  breaker s' = breaker s /\
  count isFetch (Server.log s') = count isFetch (Server.log s) /\
  count isSuppressWarning (Server.log s') = count isSuppressWarning (Server.log s) /\
  count isCooldownArming (Server.log s') = count isCooldownArming (Server.log s) /\
  (cooldown_tracked s -> cooldown_tracked s').

Definition quiet_effect (e : Server.Effect) : Prop :=
  isFetch e = false /\ isSuppressWarning e = false /\ isCooldownArming e = false.

(** The server inside the window opened at [t0], the cool-down timer being [id]. *)
Definition window_inv (t0 cooldown : Z) (id : nat) (s : Server.Server) : Prop :=
  Server.nodeRedSuppressedWarningLogged s = true /\
  Server.nodeRedCooldownTimer s = Some id /\
  (t0 + cooldown <= Server.nodeRedNextAttemptAt s)%Z /\
  cooldown_tracked s.

(** [s'] has the cool-down variable of [s] and at most one more timer, a
    dispatch timer. *)
Definition arms_dispatch_only (s s' : Server.Server) : Prop :=
  Server.nodeRedCooldownTimer s' = Server.nodeRedCooldownTimer s /\
  (Server.timers s' = Server.timers s \/
   exists id, Server.timers s' = Server.timers s ++ [(id, Server.DispatchTimer)]).

(** Inside the window, and no request is refused meanwhile: nothing moves
    the end of the window. *)
Definition calm (t0 cooldown : Z) (id : nat) (te : Z * Server.Event) : Prop :=
  in_window t0 cooldown id te /\
  match snd te with
  | Server.FetchSettled (Server.Failed code) => is_string code "ECONNREFUSED" = false
  | _ => True
  end.

(** An outage: the request of start-up is refused at 1200, the cool-down
    timer runs at the end of the window and posts again; then that request is
    refused as well, at 11300. *)
Definition reattempted_server : Server.Server :=
  Server.run Server.defaultConfig
    [(1200%Z, Server.FetchSettled refused); (11200%Z, Server.TimerFired 0)]
    (Server.boot Server.defaultConfig 1000).

Definition refused_again_server : Server.Server :=
  Server.step Server.defaultConfig 11300 (Server.FetchSettled refused) reattempted_server.

(** Two requests in flight, the one of start-up and the one of a [setMode]
    at 1060; the first is refused at 1200, the second at 1300. *)
Definition twice_refused_server : Server.Server :=
  Server.run Server.defaultConfig
    [(1005%Z, Server.Connection_ 1);
     (1060%Z, Server.Message 1 (Server.Parsed (setModeMessage "manual")));
     (1200%Z, Server.FetchSettled refused);
     (1300%Z, Server.FetchSettled refused)]
    (Server.boot Server.defaultConfig 1000).

(** The server after a connection and a first [setMode] 10 ms after
    start-up: the forwarder has posted at start-up and now holds a deferred
    dispatch. *)
Definition throttled_server : Server.Server :=
  Server.run Server.defaultConfig
    [(1005%Z, Server.Connection_ 1);
     (1010%Z, Server.Message 1 (Server.Parsed (setModeMessage "manual")))]
    (Server.boot Server.defaultConfig 1000).

(** * Further vocabulary: the wire, the logs, the handles *)

(** ** Values on the wire *)

(** A number after [JSON.stringify] and [JSON.parse]: a non-finite number
    is written as [null]. *)
Definition wire_num (n : num) : jsval :=
  match n with
  | Fin _ => JNum n
  | _ => JNull
  end.

Definition wire_stick (v : StickVector) : jsval :=
  obj [("x"%string, wire_num (x v)); ("y"%string, wire_num (y v));
       ("mag"%string, wire_num (mag v)); ("deg"%string, wire_num (deg v))].

(** What the client parses when the server has sent [payload]; the mode is
    a string, which the text carries as it is. *)
Definition fromServer (payload : Server.ServerMessage) : jsval :=
  match payload with
  | Server.MsgState mode stick ts =>
      obj [("type"%string, str "state"); ("mode"%string, mode);
           ("stick"%string, wire_stick stick); ("ts"%string, JNum (Fin (IZR ts)))]
  | Server.MsgMode mode ts =>
      obj [("type"%string, str "mode"); ("mode"%string, mode);
           ("ts"%string, JNum (Fin (IZR ts)))]
  | Server.MsgStick stick ts =>
      obj [("type"%string, str "stick"); ("stick"%string, wire_stick stick);
           ("ts"%string, JNum (Fin (IZR ts)))]
  end.

(** What the server parses when the client has sent [payload]. *)
Definition fromClient (payload : Client.ClientMessage) : jsval :=
  match payload with
  | Client.SetModeMsg mode ts =>
      obj [("type"%string, str "setMode"); ("mode"%string, mode);
           ("ts"%string, JNum (Fin (IZR ts)))]
  | Client.StickMsg x y mag deg ts =>
      obj [("type"%string, str "stick"); ("x"%string, wire_num x); ("y"%string, wire_num y);
           ("mag"%string, wire_num mag); ("deg"%string, wire_num deg);
           ("ts"%string, JNum (Fin (IZR ts)))]
  end.

(** The stick [v] with its [deg] wrapped once more, by the
    [((deg % 360) + 360) % 360] both normalizers apply to a finite [deg]. *)
Definition rewrap (v : StickVector) : StickVector :=
  mkStick (x v) (y v) (mag v) (rem (add (rem (deg v) (Fin 360)) (Fin 360)) (Fin 360)).

(** The four fields of [q] are the numbers of the stick [v]. *)
Definition carries (q : jsval) (v : StickVector) : Prop :=
  get "x" q = JNum (x v) /\ get "y" q = JNum (y v) /\
  get "mag" q = JNum (mag v) /\ get "deg" q = JNum (deg v).

(** The local state of the client is within the ranges of the data model. *)
Definition valid_client (c : Client.Client) : Prop :=
  valid_stick (Client.stick (Client.state c)) /\
  valid_mode (Client.mode (Client.state c)).

(** A message of the client within the ranges of the data model. *)
Definition valid_sent (payload : Client.ClientMessage) : Prop :=
  match payload with
  | Client.SetModeMsg mode _ => valid_mode mode
  | Client.StickMsg x y mag deg _ => valid_stick (mkStick x y mag deg)
  end.

(** The state of the client is in range, and so is all it has sent. *)
Definition sound (c : Client.Client) : Prop :=
  valid_client c /\
  forall payload, In (Client.SocketSend payload) (Client.log c) -> valid_sent payload.

(** A message of the server within the ranges of the data model. *)
Definition valid_broadcast (payload : Server.ServerMessage) : Prop :=
  match payload with
  | Server.MsgState mode stick _ => valid_mode mode /\ valid_stick stick
  | Server.MsgMode mode _ => valid_mode mode
  | Server.MsgStick stick _ => valid_stick stick
  end.

(** The shared state is in range, and so is all the server has sent. *)
Definition sound_server (s : Server.Server) : Prop :=
  valid_state (Server.state s) /\
  forall ws payload, In (Server.Send ws payload) (Server.log s) -> valid_broadcast payload.

(** No message to a client among the effects. *)
Definition nosend (l : list Server.Effect) : Prop :=
  forall ws payload, ~ In (Server.Send ws payload) l.

(** The connection an effect of the server is applied to. *)
Definition addressee (e : Server.Effect) : option nat :=
  match e with
  | Server.Send ws _ | Server.Ping ws | Server.Terminate ws => Some ws
  | _ => None
  end.

(** Effects that touch no connection: console, request, timer. *)
Definition internal (l : list Server.Effect) : Prop :=
  forall e, In e l -> addressee e = None.

(** The connection [ws] is in the registry. *)
Definition registered (ws : nat) (s : Server.Server) : Prop :=
  In ws (map Server.conn (Server.clients s)).

(** No effect of [l] is applied to the connection [ws]. *)
Definition untouched (ws : nat) (l : list Server.Effect) : Prop :=
  forall e, In e l -> addressee e <> Some ws.

(** The bodies of the requests among the effects, oldest first. *)
Definition fetched (l : list Server.Effect) : list Server.State :=
  flat_map
    (fun e => match e with
              | Server.Fetch body => [body]
              | _ => []
              end) l.

(** What a handler adds to the log holds no request, or one request whose
    body is [st], forwarding being on. *)
Definition posts (cfg : Server.Config) (st : Server.State) (l : list Server.Effect) : Prop :=
  fetched l = [] \/ (Server.NODE_RED_ENABLED cfg = true /\ fetched l = [st]).

(** Forwarding is switched off: [NODE_RED_HTTP_URL] is empty. *)
Definition forwardingOff : Server.Config := Server.mkConfig false 10000.

(** All of the client but what it shows: the local state, the position of
    the switch and of the thumb, and the log. *)
Definition wiring (c : Client.Client) :=
  (Client.isDragging c, Client.activePointerId c, Client.lastStickSend c,
   Client.pendingStickTimeout c, Client.reconnectDelay c, Client.reconnectTimer c,
   Client.socket c, Client.layout c, Client.timers c, Client.fresh c).

(** The messages handed to the socket, oldest first. *)
Definition sent (l : list Client.Effect) : list Client.ClientMessage :=
  flat_map
    (fun e => match e with
              | Client.SocketSend payload => [payload]
              | _ => []
              end) l.

(** The socket is not open: there is none yet, or it is connecting,
    closing or closed. *)
Definition offline (c : Client.Client) : Prop := Client.socket c <> Some Client.OPEN.

(** From an offline [c], [c'] is offline and has sent nothing more. *)
Definition hush (c c' : Client.Client) : Prop :=
  offline c -> offline c' /\ sent (Client.log c') = sent (Client.log c).

(** A delay from one second up to [MAX_RECONNECT_DELAY]. *)
Definition in_backoff_range (d : float) : bool :=
  (PrimFloat.leb 1000 d && PrimFloat.leb d Client.MAX_RECONNECT_DELAY)%bool.

(** The interval of the client, and every delay it has waited for a
    reconnection, is a member of the back-off sequence. *)
Definition backoff_ok (c : Client.Client) : Prop :=
  reconnect_inv c /\
  (exists k, Client.reconnectDelay c = expectedDelay k) /\
  Forall (fun d => exists k, d = expectedDelay k) (reconnectDelays (Client.log c)).

(** The handles the client keeps: [pendingStickTimeout], when set, names an
    armed timer of the throttle; [reconnectTimer] names a handle that was
    handed out, and no timer of the throttle. *)
Definition throttle_inv (c : Client.Client) : Prop :=
  timers_ok c /\
  (forall id, Client.pendingStickTimeout c = Some id ->
              In (id, Client.StickTimer) (Client.timers c)) /\
  (forall id, Client.reconnectTimer c = Some id ->
              (id < Client.fresh c)%nat /\
              forall k, In (id, k) (Client.timers c) -> k = Client.ReconnectTimer).

(** The handles the forwarder keeps name armed timers of their kind, and
    the handles of the timers are handed out in increasing order, one timer
    each. *)
Definition forwarder_inv (s : Server.Server) : Prop :=
  ((forall id k, In (id, k) (Server.timers s) -> (id < Server.fresh s)%nat) /\
   NoDup (map fst (Server.timers s))) /\
  (forall id, Server.nodeRedTimeout s = Some id ->
              In (id, Server.DispatchTimer) (Server.timers s)) /\
  (forall id, Server.nodeRedCooldownTimer s = Some id ->
              In (id, Server.CooldownTimer) (Server.timers s)).

(** The mode switch of the page shows the local mode. *)
Definition switch_shows_mode (c : Client.Client) : Prop :=
  Client.modeSwitchChecked c = is_string (Client.mode (Client.state c)) "manual".

(** [c'] has the mode and the switch of [c]. *)
Definition switch_frame (c c' : Client.Client) : Prop :=
  Client.mode (Client.state c') = Client.mode (Client.state c) /\
  Client.modeSwitchChecked c' = Client.modeSwitchChecked c.

(** Where [setThumbPosition(x, y)] draws the thumb on the page [page]. *)
Definition thumbOffsets (page : Client.Layout) (x y : num) : num * num :=
  let travel := sub (div (Client.padWidth page) (Fin 2))
                    (div (Client.thumbWidth page) (Fin 2)) in
  (mul (Client.clamp x (Fin (-1)) (Fin 1)) travel,
   mul (Client.clamp (neg y) (Fin (-1)) (Fin 1)) travel).

(** A drag is in progress exactly when a pointer is the active one. *)
Definition drag_tracked (c : Client.Client) : Prop :=
  Client.isDragging c = true <-> Client.activePointerId c <> None.

(** Outside a drag the thumb is drawn where the local stick is. *)
Definition thumb_shows_stick (c : Client.Client) : Prop :=
  Client.isDragging c = false ->
  Client.thumb c
  = Some (thumbOffsets (Client.layout c)
            (x (Client.stick (Client.state c))) (y (Client.stick (Client.state c)))).

Definition page_inv (c : Client.Client) : Prop :=
  thumb_shows_stick c /\ drag_tracked c.

(** [c'] has the drag, the thumb, the geometry and the stick of [c]. *)
Definition page_frame (c c' : Client.Client) : Prop :=
  Client.isDragging c' = Client.isDragging c /\
  Client.activePointerId c' = Client.activePointerId c /\
  Client.thumb c' = Client.thumb c /\
  Client.layout c' = Client.layout c /\
  Client.stick (Client.state c') = Client.stick (Client.state c).

(* ================================================================= *)
(** * Properties *)

Unset Implicit Arguments.

(** ** Real arithmetic behind the number operations *)

Section RealArithmetic.
Local Open Scope R_scope.

Lemma Rltb_true a b : a < b -> Rltb a b = true.
Proof. unfold Rltb; destruct (Rlt_dec a b); tauto. Qed.

Lemma Rltb_false a b : b <= a -> Rltb a b = false.
Proof. unfold Rltb; destruct (Rlt_dec a b); [lra | reflexivity]. Qed.

Lemma Reqb_true a : Reqb a a = true.
Proof. unfold Reqb; destruct (Req_dec_T a a); tauto. Qed.

Lemma Reqb_false a b : a <> b -> Reqb a b = false.
Proof. unfold Reqb; destruct (Req_dec_T a b); tauto. Qed.

Lemma Rtrunc_nonneg r : 0 <= r -> IZR (Rtrunc r) <= r < IZR (Rtrunc r) + 1.
Proof.
  intros H. unfold Rtrunc. rewrite Rltb_false by assumption. apply Zfloor_bound.
Qed.

Lemma Rtrunc_neg r : r < 0 -> IZR (Rtrunc r) - 1 < r <= IZR (Rtrunc r).
Proof.
  intros H. unfold Rtrunc. rewrite Rltb_true by assumption. apply Zceil_bound.
Qed.

Lemma Rtrunc_eq r z : 0 <= r -> IZR z <= r < IZR z + 1 -> Rtrunc r = z.
Proof.
  intros H H0. unfold Rtrunc. rewrite Rltb_false by lra. now apply Zfloor_eq.
Qed.

(** [a % b] of a non-negative [a] lies in [[0, b)]. *)
Lemma rem_nonneg a b : 0 <= a -> 0 < b ->
  exists r, rem (Fin a) (Fin b) = Fin r /\ 0 <= r < b.
Proof.
  intros Ha Hb. unfold rem. rewrite Reqb_false by lra.
  eexists; split; [reflexivity|].
  assert (Hinv : 0 < / b) by (apply Rinv_0_lt_compat; lra).
  assert (Hq : 0 <= a / b) by (unfold Rdiv; nra).
  pose proof (Rtrunc_nonneg _ Hq) as [L U].
  assert (E : a = b * (a / b)) by (field; lra).
  remember (a / b) as q. remember (IZR (Rtrunc q)) as t.
  rewrite E. split; nra.
Qed.

(** [a % b] lies strictly between [-b] and [b]. *)
Lemma rem_any a b : 0 < b ->
  exists r, rem (Fin a) (Fin b) = Fin r /\ - b < r < b.
Proof.
  intros Hb. destruct (Rlt_dec a 0) as [Hn|Hp].
  - unfold rem. rewrite Reqb_false by lra.
    eexists; split; [reflexivity|].
    assert (Hinv : 0 < / b) by (apply Rinv_0_lt_compat; lra).
    assert (Hq : a / b < 0) by (unfold Rdiv; nra).
    pose proof (Rtrunc_neg _ Hq) as [L U].
    assert (E : a = b * (a / b)) by (field; lra).
    remember (a / b) as q. remember (IZR (Rtrunc q)) as t.
    rewrite E. split; nra.
  - destruct (rem_nonneg a b) as (r & E & B); [lra | lra |].
    exists r; split; [exact E | lra].
Qed.

Lemma rem_small a b : 0 <= a < b -> rem (Fin a) (Fin b) = Fin a.
Proof.
  intros [Ha Hb]. unfold rem. rewrite Reqb_false by lra.
  assert (Hinv : 0 < / b) by (apply Rinv_0_lt_compat; lra).
  assert (Hq0 : 0 <= a / b) by (unfold Rdiv; nra).
  assert (Hq1 : a / b < 1).
  { unfold Rdiv. assert (H : a * / b < b * / b) by nra.
    rewrite Rinv_r in H by lra. exact H. }
  rewrite (Rtrunc_eq (a / b) 0); [f_equal; lra | lra | lra].
Qed.

Lemma rem_once a b : b <= a < 2 * b -> 0 < b -> rem (Fin a) (Fin b) = Fin (a - b).
Proof.
  intros [Ha Hb] Hpos. unfold rem. rewrite Reqb_false by lra.
  assert (Hinv : 0 < / b) by (apply Rinv_0_lt_compat; lra).
  assert (E : a / b = 1 + (a - b) / b) by (field; lra).
  assert (H0 : 0 <= (a - b) / b) by (unfold Rdiv; nra).
  assert (H1 : (a - b) / b < 1).
  { unfold Rdiv. assert (H : (a - b) * / b < b * / b) by nra.
    rewrite Rinv_r in H by lra. exact H. }
  rewrite (Rtrunc_eq (a / b) 1); [f_equal; lra | lra | lra].
Qed.

Lemma div_180_PI : div (Fin 180) Math_PI = Fin (180 / PI).
Proof.
  unfold div, Math_PI. rewrite Reqb_false; [reflexivity|].
  pose proof PI_RGT_0. lra.
Qed.

Lemma atan_pos r : 0 < r -> 0 < atan r.
Proof. intros H. rewrite <- atan_0. now apply atan_increasing. Qed.

Lemma atan_nonpos r : r <= 0 -> atan r <= 0.
Proof.
  intros [H|H].
  - left. rewrite <- atan_0. now apply atan_increasing.
  - subst. rewrite atan_0. lra.
Qed.

Lemma atan_m1 : atan (-1) = - (PI / 4).
Proof. replace (-1) with (- (1)) by lra. rewrite atan_opp, atan_1. reflexivity. Qed.

Lemma Ratan2_bound b a : - PI <= Ratan2 b a <= PI.
Proof.
  pose proof PI_RGT_0 as HPI. unfold Ratan2.
  destruct (Rlt_dec 0 a) as [Hpos|Hnpos].
  - rewrite Rltb_true by assumption. pose proof (atan_bound (b / a)). lra.
  - rewrite Rltb_false by lra. destruct (Rlt_dec a 0) as [Hneg|Hz].
    + rewrite (Rltb_true a 0) by assumption.
      assert (Hinv : / a < 0) by now apply Rinv_lt_0_compat.
      pose proof (atan_bound (b / a)) as Hb.
      destruct (Rlt_dec b 0) as [Hbn|Hbp].
      * rewrite Rltb_true by assumption.
        assert (H : 0 < b / a) by (unfold Rdiv; nra).
        pose proof (atan_pos _ H). lra.
      * rewrite Rltb_false by lra.
        assert (H : b / a <= 0) by (unfold Rdiv; nra).
        pose proof (atan_nonpos _ H). lra.
    + rewrite (Rltb_false a 0) by lra.
      destruct (Rlt_dec 0 b); [rewrite Rltb_true by assumption; lra|].
      rewrite (Rltb_false 0 b) by lra.
      destruct (Rlt_dec b 0); [rewrite Rltb_true by assumption; lra|].
      rewrite Rltb_false by lra. lra.
Qed.

Lemma sqrt_ge_1 r : 1 <= r -> 1 <= sqrt r.
Proof. intros H. rewrite <- sqrt_1 at 1. apply sqrt_le_1; lra. Qed.

Lemma EPSILON_le_1 : / 2 ^ 52 <= 1.
Proof.
  assert (H : 1 <= 2 ^ 52) by (apply pow_R1_Rle; lra).
  rewrite <- Rinv_1. apply Rinv_le_contravar; lra.
Qed.

Lemma num_or_nonzero r b : r <> 0 -> num_or (Fin r) b = Fin r.
Proof. intros H. unfold num_or, truthy_num. now rewrite Reqb_false. Qed.

Lemma num_or_zero b : num_or (Fin 0) b = b.
Proof. unfold num_or, truthy_num. now rewrite Reqb_true. Qed.

Lemma clamp_inside r lo hi :
  lo <= r <= hi -> Client.clamp (Fin r) (Fin lo) (Fin hi) = Fin r.
Proof.
  intros [L U]. unfold Client.clamp. cbn [Math_max Math_min].
  rewrite (Rmax_left r lo), (Rmin_left r hi) by lra. reflexivity.
Qed.

(** ** The normalizers *)

Lemma normalizeDegrees_range d :
  exists r, Client.normalizeDegrees (Fin d) = Fin r /\ 0 <= r < 360.
Proof.
  unfold Client.normalizeDegrees.
  destruct (rem_any d 360) as (r1 & E1 & B1); [lra|].
  rewrite E1. cbn [add].
  apply rem_nonneg; lra.
Qed.

(** The angle the server derives from [(x, y)] lies in [[0, 360)]. *)
Lemma server_angle_range b a :
  exists r, rem (add (mul (Math_atan2 (Fin b) (Fin a)) (div (Fin 180) Math_PI)) (Fin 360))
                (Fin 360) = Fin r
            /\ 0 <= r < 360.
Proof.
  rewrite div_180_PI. cbn [Math_atan2 mul add].
  apply rem_nonneg; [|lra].
  pose proof PI_RGT_0 as HPI. pose proof (Ratan2_bound b a) as [L U].
  assert (E : Ratan2 b a * (180 / PI) = Ratan2 b a / PI * 180) by (field; lra).
  rewrite E.
  assert (-1 <= Ratan2 b a / PI).
  { apply Rmult_le_reg_r with PI; [lra|].
    unfold Rdiv. rewrite Rmult_assoc, Rinv_l by lra. lra. }
  lra.
Qed.

Lemma between_fin lo hi n : between lo hi n -> exists r, n = Fin r /\ lo <= r <= hi.
Proof. destruct n; simpl; try tauto. intros H. now exists r. Qed.

Lemma clip_between lo hi n : lo <= hi -> isFinite n = true ->
  between lo hi (Math_max (Fin lo) (Math_min (Fin hi) n)).
Proof.
  intros Hle Hf. destruct n; try discriminate. simpl.
  unfold Rmax, Rmin. destruct (Rle_dec hi r); destruct (Rle_dec lo _); lra.
Qed.

Lemma sanitizeNumber_finite v r :
  Number v = Ok (Fin r) ->
  Server.sanitizeNumber v = Ok (Fin (Rmax (-1) (Rmin 1 r))).
Proof. unfold Server.sanitizeNumber. intros ->. reflexivity. Qed.

Lemma sanitizeNumber_between v n :
  Server.sanitizeNumber v = Ok n -> between (-1) 1 n.
Proof.
  unfold Server.sanitizeNumber. destruct (Number v) as [m|]; [|discriminate].
  cbn [bind]. destruct (isFinite m) eqn:Hf; cbn [negb]; intros E; injection E as <-.
  - apply clip_between; [lra | exact Hf].
  - simpl. lra.
Qed.

Lemma Number_isFinite_Number v : Number_isFinite v = true ->
  exists r, Number v = Ok (Fin r).
Proof.
  destruct v as [| | |n| |]; try discriminate.
  destruct n as [r| | |]; try discriminate. intros _. now exists r.
Qed.

(** Once [x] and [y] are sanitized, [normalizeStickPayload] returns: the
    magnitude is the clipped [mag] or hypotenuse, the angle is in range. *)
Lemma normalizeStickPayload_fields p sx sy :
  Server.sanitizeNumber (get "x" p) = Ok (Fin sx) ->
  Server.sanitizeNumber (get "y" p) = Ok (Fin sy) ->
  exists m d,
    (if Number_isFinite (get "mag" p) then Number (get "mag" p)
     else Ok (Fin (sqrt (sx * sx + sy * sy)))) = Ok (Fin m) /\
    below 0 360 d /\
    Server.normalizeStickPayload p
    = Ok (mkStick (Fin sx) (Fin sy) (Fin (Rmax 0 (Rmin 1 m))) d).
Proof.
  intros Ex Ey. unfold Server.normalizeStickPayload. rewrite Ex, Ey. cbn [bind Math_hypot].
  assert (Hm : exists m, (if Number_isFinite (get "mag" p) then Number (get "mag" p)
                          else Ok (Fin (sqrt (sx * sx + sy * sy)))) = Ok (Fin m)).
  { destruct (Number_isFinite (get "mag" p)) eqn:Hf.
    - destruct (Number_isFinite_Number _ Hf) as (r & ->). now exists r.
    - eexists; reflexivity. }
  destruct Hm as (m & Hm). rewrite Hm. cbn [bind Math_min Math_max].
  assert (Hd : exists d,
             (if Number_isFinite (get "deg" p)
              then do d <- Number (get "deg" p) ;;
                   Ok (rem (add (rem d (Fin 360)) (Fin 360)) (Fin 360))
              else Ok (rem (add (mul (Math_atan2 (Fin sy) (Fin sx)) (div (Fin 180) Math_PI))
                                (Fin 360)) (Fin 360)))
             = Ok d /\ below 0 360 d).
  { destruct (Number_isFinite (get "deg" p)) eqn:Hf.
    - destruct (Number_isFinite_Number _ Hf) as (r & ->). cbn [bind].
      destruct (normalizeDegrees_range r) as (r' & E & B).
      unfold Client.normalizeDegrees in E. rewrite E.
      exists (Fin r'). split; [reflexivity | exact B].
    - destruct (server_angle_range sy sx) as (r' & E & B). rewrite E.
      exists (Fin r'). split; [reflexivity | exact B]. }
  destruct Hd as (d & Hd & Hdb). rewrite Hd. cbn [bind].
  exists m, d. split; [reflexivity|]. split; [exact Hdb | reflexivity].
Qed.

(** Whatever the payload, a stick the server normalizer returns is in range. *)
Lemma normalizeStickPayload_valid p v :
  Server.normalizeStickPayload p = Ok v -> valid_stick v.
Proof.
  intros H.
  destruct (Server.sanitizeNumber (get "x" p)) as [sx|] eqn:Ex;
    [|unfold Server.normalizeStickPayload in H; rewrite Ex in H; discriminate].
  destruct (Server.sanitizeNumber (get "y" p)) as [sy|] eqn:Ey;
    [|unfold Server.normalizeStickPayload in H; rewrite Ex, Ey in H; discriminate].
  pose proof (sanitizeNumber_between _ _ Ex) as Bx.
  pose proof (sanitizeNumber_between _ _ Ey) as By.
  destruct (between_fin _ _ _ Bx) as (rx & -> & Bx').
  destruct (between_fin _ _ _ By) as (ry & -> & By').
  destruct (normalizeStickPayload_fields p rx ry Ex Ey) as (m & d & _ & Hd & E).
  rewrite E in H. injection H as <-.
  unfold valid_stick; cbn [x y mag deg].
  split; [exact Bx'|]. split; [exact By'|]. split; [|exact Hd].
  apply (clip_between 0 1 (Fin m)); [lra | reflexivity].
Qed.

End RealArithmetic.

(** ** C1 and C2: what the two normalizers compute *)

Section Normalizers.
Local Open Scope R_scope.

Lemma clip_square_sum px py :
  px * px + py * py > 1 ->
  1 <= Rmax (-1) (Rmin 1 px) * Rmax (-1) (Rmin 1 px)
       + Rmax (-1) (Rmin 1 py) * Rmax (-1) (Rmin 1 py).
Proof.
  intros H. unfold Rmax, Rmin.
  destruct (Rle_dec 1 px); destruct (Rle_dec 1 py);
    repeat match goal with |- context [Rle_dec ?a ?b] => destruct (Rle_dec a b) end;
    nra.
Qed.

Lemma eval_server_2_m2 :
  Server.normalizeStickPayload payload_2_m2
  = Ok (mkStick (Fin 1) (Fin (-1)) (Fin 1) (Fin 315)).
Proof.
  unfold Server.normalizeStickPayload, Server.sanitizeNumber, payload_2_m2, obj, str.
  cbn -[rem div Ratan2].
  rewrite (Rmin_left 1 2), (Rmin_right 1 (-2)), (Rmax_right (-1) 1),
    (Rmax_left (-1) (-2)) by lra.
  rewrite div_180_PI.
  cbn -[rem Ratan2].
  rewrite (Rmin_left 1 (sqrt _)) by (apply sqrt_ge_1; lra).
  rewrite (Rmax_right 0 1) by lra.
  unfold Ratan2. rewrite (Rltb_true 0 1) by lra.
  replace (-1 / 1) with (-1) by field. rewrite atan_m1.
  replace (- (PI / 4) * (180 / PI) + 360) with 315 by (field; pose proof PI_RGT_0; lra).
  rewrite rem_small by lra. reflexivity.
Qed.

Lemma eval_server_1_0 :
  Server.normalizeStickPayload payload_1_0
  = Ok (mkStick (Fin 1) (Fin 0) (Fin 1) (Fin 0)).
Proof.
  unfold Server.normalizeStickPayload, Server.sanitizeNumber, payload_1_0, obj, str.
  cbn -[rem div Ratan2].
  rewrite (Rmin_left 1 1), (Rmin_right 1 0), (Rmax_right (-1) 1),
    (Rmax_right (-1) 0) by lra.
  rewrite div_180_PI.
  cbn -[rem Ratan2].
  replace (1 * 1 + 0 * 0) with 1 by ring. rewrite sqrt_1.
  rewrite (Rmin_left 1 1), (Rmax_right 0 1) by lra.
  unfold Ratan2. rewrite (Rltb_true 0 1) by lra.
  replace (0 / 1) with 0 by field. rewrite atan_0.
  replace (0 * (180 / PI) + 360) with 360 by (field; pose proof PI_RGT_0; lra).
  rewrite rem_once by lra. repeat f_equal. lra.
Qed.

Lemma eval_client_degrees_1_0 :
  Client.calculateJoystickDegrees (Fin 1) (Fin 0) = Fin 90.
Proof.
  unfold Client.calculateJoystickDegrees, Number_EPSILON. cbn [Math_abs lt].
  rewrite Rabs_R1, (Rltb_false 1) by apply EPSILON_le_1. cbn [andb].
  rewrite div_180_PI. cbn [Math_atan2 mul sub neg add].
  unfold Ratan2. rewrite (Rltb_true 0 1) by lra.
  replace (0 / 1) with 0 by field. rewrite atan_0.
  replace (90 + - (0 * (180 / PI))) with 90 by (field; pose proof PI_RGT_0; lra).
  unfold Client.normalizeDegrees. rewrite rem_small by lra. cbn [add].
  rewrite rem_once by lra. f_equal. lra.
Qed.

Lemma eval_client_1_0 :
  Client.normalizeStick payload_1_0 = Ok (mkStick (Fin 1) (Fin 0) (Fin 1) (Fin 90)).
Proof.
  unfold Client.normalizeStick, payload_1_0, obj, str.
  cbn -[Client.calculateJoystickDegrees Client.clamp num_or].
  rewrite num_or_nonzero, num_or_zero by lra.
  rewrite !clamp_inside by lra.
  rewrite eval_client_degrees_1_0. cbn [Math_hypot].
  replace (1 * 1 + 0 * 0) with 1 by ring. rewrite sqrt_1.
  rewrite clamp_inside by lra. reflexivity.
Qed.

(** C1, as stated, fails: the server clamps each coordinate on its own, so
    [{x: 2, y: -2}] becomes [x = 1, y = -1], which is not on the unit circle
    (and the angle it derives is 315, not 135). *)
Lemma normalizeStickPayload_2_m2_not_on_unit_circle :
  Server.normalizeStickPayload payload_2_m2
  = Ok (mkStick (Fin 1) (Fin (-1)) (Fin 1) (Fin 315))
  /\ ~ on_unit_circle (mkStick (Fin 1) (Fin (-1)) (Fin 1) (Fin 315)).
Proof.
  split; [exact eval_server_2_m2|].
  unfold on_unit_circle; cbn [x y]. lra.
Qed.

(** C1 (amended): for a stick payload whose [x] and [y] are finite with
    [x*x + y*y > 1] and which carries no finite [mag], the server normalizer
    returns each coordinate clamped on its own into [[-1, 1]]; the vector is
    not rescaled, so unless [x] or [y] is zero the result is not on the unit
    circle.  [mag] is [Math.hypot] of the clamped pair cut to [[0, 1]]; it
    is 1 as soon as one coordinate reaches 1 in absolute value. *)
Theorem normalizeStickPayload_outside_unit_circle :
  forall (payload : jsval) (px py : R),
    Number (get "x" payload) = Ok (Fin px) ->
    Number (get "y" payload) = Ok (Fin py) ->
    Number_isFinite (get "mag" payload) = false ->
    px * px + py * py > 1 ->
    exists v,
      Server.normalizeStickPayload payload = Ok v /\
      x v = Fin (Rmax (-1) (Rmin 1 px)) /\
      y v = Fin (Rmax (-1) (Rmin 1 py)) /\
      mag v = Math_max (Fin 0) (Math_min (Fin 1) (Math_hypot (x v) (y v))) /\
      between 0 1 (mag v) /\
      (1 <= Rabs px \/ 1 <= Rabs py -> mag v = Fin 1) /\
      (px <> 0 -> py <> 0 -> ~ on_unit_circle v).
Proof.
  intros payload px py Hx Hy Hmag Hout.
  destruct (normalizeStickPayload_fields payload _ _
              (sanitizeNumber_finite _ _ Hx) (sanitizeNumber_finite _ _ Hy))
    as (m & d & Hm & _ & E).
  rewrite Hmag in Hm. injection Hm as <-.
  eexists. split; [exact E|]. cbn [x y mag Math_hypot Math_min Math_max].
  split; [reflexivity|]. split; [reflexivity|]. split; [reflexivity|].
  assert (H1 : Rmax 0 (Rmin 1 (sqrt (Rmax (-1) (Rmin 1 px) * Rmax (-1) (Rmin 1 px)
                                     + Rmax (-1) (Rmin 1 py) * Rmax (-1) (Rmin 1 py)))) = 1).
  { rewrite (Rmin_left 1 (sqrt _)) by (apply sqrt_ge_1, clip_square_sum, Hout).
    apply Rmax_right. lra. }
  split; [rewrite H1; cbn; lra|]. split; [intros _; now rewrite H1|].
  intros Hpx Hpy. unfold on_unit_circle. cbn [x y].
  unfold Rmax, Rmin.
  destruct (Rle_dec 1 px); destruct (Rle_dec 1 py);
    repeat match goal with |- context [Rle_dec ?a ?b] => destruct (Rle_dec a b) end;
    nra.
Qed.

Lemma normalizeStickPayload_outside_unit_circle_witness :
  exists v,
    Server.normalizeStickPayload payload_2_m2 = Ok v /\
    x v = Fin (Rmax (-1) (Rmin 1 2)) /\
    y v = Fin (Rmax (-1) (Rmin 1 (-2))) /\
    mag v = Math_max (Fin 0) (Math_min (Fin 1) (Math_hypot (x v) (y v))) /\
    between 0 1 (mag v) /\
    (1 <= Rabs 2 \/ 1 <= Rabs (-2) -> mag v = Fin 1) /\
    (2 <> 0 -> -2 <> 0 -> ~ on_unit_circle v).
Proof.
  apply (normalizeStickPayload_outside_unit_circle payload_2_m2 2 (-2)).
  - reflexivity.
  - reflexivity.
  - reflexivity.
  - lra.
Defined.

(** C2, at [{x: 1, y: 0}] with no [deg]: the server derives the angle 0
    (the mathematical angle), the client derives 90 (clockwise from the
    vertical); the server leaves out the [90 -] of the client. *)
Theorem server_and_client_degrees_disagree :
  (exists v, Server.normalizeStickPayload payload_1_0 = Ok v /\ deg v = Fin 0) /\
  Client.calculateJoystickDegrees (Fin 1) (Fin 0) = Fin 90 /\
  (exists v, Client.normalizeStick payload_1_0 = Ok v /\ deg v = Fin 90).
Proof.
  split; [|split].
  - eexists; split; [exact eval_server_1_0 | reflexivity].
  - exact eval_client_degrees_1_0.
  - eexists; split; [exact eval_client_1_0 | reflexivity].
Qed.

End Normalizers.

(** ** The server's shared state: C3, C4, C5 *)

Ltac break_if :=
  match goal with
  | |- context [if ?b then _ else _] => destruct b eqn:?
  | |- context [match ?x with _ => _ end] => destruct x eqn:?
  end.

Section ServerState.
Import Server.

Lemma emits_app es1 es2 s : emits (es1 ++ es2) s = emits es2 (emits es1 s).
Proof. unfold emits. apply fold_left_app. Qed.

(** Effects only extend the log. *)
Lemma emits_eq es s :
  emits es s =
  mkServer (state s) (clients s) (lastNodeRedDispatch s) (nodeRedTimeout s)
    (nodeRedNextAttemptAt s) (nodeRedCooldownTimer s)
    (nodeRedSuppressedWarningLogged s) (timers s) (fresh s) (log s ++ es).
Proof.
  revert s. induction es as [|e es IH]; intros s.
  - destruct s; cbn. now rewrite app_nil_r.
  - unfold emits in *. cbn [fold_left]. rewrite IH. cbn.
    now rewrite <- app_assoc.
Qed.

(** A broadcast is one [Send] per recipient, in registration order. *)
Lemma broadcast_emits p ex s :
  broadcast p ex s = emits (map (fun c => Send c p) (recipients ex (clients s))) s.
Proof.
  unfold broadcast, recipients. generalize (clients s) as cs. intros cs. revert s.
  induction cs as [|c cs IH]; intros s; [reflexivity|].
  cbn [fold_left filter]. rewrite IH.
  destruct ex as [e|]; cbn [negb andb].
  - destruct (Nat.eqb (conn c) e); cbn [negb andb]; [reflexivity|].
    destruct (isOpen c); reflexivity.
  - destruct (isOpen c); reflexivity.
Qed.

Ltac server_cases :=
  repeat first
    [ rewrite !broadcast_emits
    | rewrite !emits_eq
    | progress cbn
    | break_if ].

Lemma state_scheduleNodeRedPush cfg now s :
  state (scheduleNodeRedPush cfg now s) = state s.
Proof.
  destruct s. unfold scheduleNodeRedPush, dispatch, postToNodeRed, setTimeout.
  server_cases; reflexivity.
Qed.

Lemma state_updateState cfg now ns s :
  state (updateState cfg now ns s)
  = mkState (nullish_or (newMode ns) (mode (state s)))
            (match newStick ns with Some v => v | None => stick (state s) end) now.
Proof. unfold updateState. now rewrite state_scheduleNodeRedPush. Qed.

Lemma state_postToNodeRed_settled cfg now o s :
  state (postToNodeRed_settled cfg now o s) = state s.
Proof.
  destruct s. unfold postToNodeRed_settled, setTimeout, clearTimeout.
  server_cases; reflexivity.
Qed.

Lemma state_timerFired cfg now id s : state (timerFired cfg now id s) = state s.
Proof.
  unfold timerFired. destruct (armed id (timers s)) as [[|]|]; [| |reflexivity].
  - destruct s. unfold dispatch, postToNodeRed. server_cases; reflexivity.
  - now rewrite state_scheduleNodeRedPush.
Qed.

Lemma state_heartbeat s : state (heartbeat s) = state s.
Proof.
  unfold heartbeat. destruct (heartbeatSweep (clients s)). now rewrite emits_eq.
Qed.

Lemma state_onConnection ws s : state (onConnection ws s) = state s.
Proof. unfold onConnection. break_if; reflexivity. Qed.

Lemma validateMode_string m : validateMode m = true -> exists s n, m = JStr s n.
Proof. destruct m; try discriminate. intros _. eauto. Qed.

(** A valid [setMode] stores the mode and the instant, and keeps the stick. *)
Lemma state_onMessage_setMode cfg now s props n :
  let message := JObj props n in
  is_string (get "type" message) "setMode" = true ->
  validateMode (get "mode" message) = true ->
  state (onMessage cfg now (Parsed message) s)
  = mkState (get "mode" message) (stick (state s)) now.
Proof.
  intros message Ht Hm. unfold onMessage. fold message.
  cbn [truthy typeof_object message negb orb]. rewrite Ht, Hm. cbn [negb].
  rewrite broadcast_emits, emits_eq. cbn [state].
  rewrite state_updateState. cbn [newMode newStick].
  destruct (validateMode_string _ Hm) as (str & k & ->). reflexivity.
Qed.

(** A [stick] message stores the normalized stick and the instant, and keeps
    the mode. *)
Lemma state_onMessage_stick cfg now s props n v :
  let message := JObj props n in
  is_string (get "type" message) "setMode" = false ->
  is_string (get "type" message) "stick" = true ->
  normalizeStickPayload message = Ok v ->
  state (onMessage cfg now (Parsed message) s) = mkState (mode (state s)) v now.
Proof.
  intros message Ht Hs Hv. unfold onMessage. fold message.
  cbn [truthy typeof_object message negb orb]. rewrite Ht, Hs, Hv.
  rewrite broadcast_emits, emits_eq. cbn [state].
  rewrite state_updateState. reflexivity.
Qed.

Lemma state_onMessage cfg now data s :
  state (onMessage cfg now data s) = state s \/
  (exists m, validateMode m = true /\
     state (onMessage cfg now data s) = mkState m (stick (state s)) now) \/
  (exists p v, normalizeStickPayload p = Ok v /\
     state (onMessage cfg now data s) = mkState (mode (state s)) v now).
Proof.
  destruct data as [|message]; [left; reflexivity|].
  destruct message as [| |b|k|st k|props n];
    try (left; unfold onMessage; cbn [typeof_object negb]; now rewrite ?orb_true_r).
  destruct (is_string (get "type" (JObj props n)) "setMode") eqn:Ht.
  - destruct (validateMode (get "mode" (JObj props n))) eqn:Hm.
    + right; left. exists (get "mode" (JObj props n)). split; [exact Hm|].
      now apply state_onMessage_setMode.
    + left. unfold onMessage. cbn [truthy typeof_object negb orb]. now rewrite Ht, Hm.
  - destruct (is_string (get "type" (JObj props n)) "stick") eqn:Hs.
    + destruct (normalizeStickPayload (JObj props n)) as [v|] eqn:Hv.
      * right; right. exists (JObj props n), v. split; [exact Hv|].
        now apply state_onMessage_stick.
      * left. unfold onMessage. cbn [truthy typeof_object negb orb].
        now rewrite Ht, Hs, Hv.
    + left. unfold onMessage. cbn [truthy typeof_object negb orb]. now rewrite Ht, Hs.
Qed.

Lemma valid_stick_zero : valid_stick zeroStick.
Proof. unfold valid_stick, zeroStick; cbn. lra. Qed.

Lemma valid_state_step cfg now e s :
  valid_state (state s) -> valid_state (state (step cfg now e s)).
Proof.
  intros [Hs Hm]. destruct e as [ws|ws data|ws|ws| |id|o]; cbn [step].
  - now rewrite state_onConnection.
  - destruct (state_onMessage cfg now data s) as [E|[(m & Hv & E)|(p & v & Hv & E)]];
      rewrite E; clear E.
    + now split.
    + split; [exact Hs|]. unfold validateMode in Hv. apply orb_true_iff in Hv. exact Hv.
    + split; [|exact Hm]. cbn [stick]. exact (normalizeStickPayload_valid _ _ Hv).
  - now split.
  - now split.
  - now rewrite state_heartbeat.
  - now rewrite state_timerFired.
  - now rewrite state_postToNodeRed_settled.
Qed.

Lemma valid_state_run cfg events s :
  valid_state (state s) -> valid_state (state (run cfg events s)).
Proof.
  revert s. induction events as [|[now e] events IH]; intros s H; [exact H|].
  unfold run in *. cbn [fold_left fst snd]. apply IH. now apply valid_state_step.
Qed.

(** C4: in every state the server reaches, from start-up through any
    sequence of events (connections, frames of any content, pongs, timers,
    request outcomes), [x] and [y] are in [[-1, 1]], [mag] in [[0, 1]], [deg]
    in [[0, 360)] and [mode] is ['automatic'] or ['manual']. *)
Theorem shared_state_always_valid :
  forall (cfg : Config) (t0 : Z) (events : list (Z * Event)),
    valid_state (state (run cfg events (boot cfg t0))).
Proof.
  intros cfg t0 events. apply valid_state_run.
  unfold boot. rewrite state_scheduleNodeRedPush. cbn.
  split; [exact valid_stick_zero | left; reflexivity].
Qed.

(** C5, as stated, fails: the frame [5] is valid JSON and has no known
    [type], yet the server drops it without a word; the log still holds
    nothing but the request of start-up. *)
Lemma non_object_frame_is_dropped_silently :
  unknown_type (JNum (Fin 5)) /\
  step defaultConfig 1010 (Message 1 (Parsed (JNum (Fin 5)))) (boot defaultConfig 1000)
  = boot defaultConfig 1000 /\
  log (boot defaultConfig 1000) = [Fetch (mkState (str "automatic") zeroStick 1000)].
Proof.
  split; [split; reflexivity|]. split; [|reflexivity].
  cbn [step]. unfold onMessage. cbn [typeof_object negb]. now rewrite orb_true_r.
Qed.

(** C5 (amended): a frame that is not JSON, or an object whose [type] is
    unknown, or a [setMode] with an invalid [mode], leaves the server as it
    was but for one warning in the console: shared state, registry and
    forwarder are unchanged and nothing is sent.  A frame that parses to a
    value that is not an object leaves the server as it was altogether: no
    warning either. *)
Theorem bad_frame_only_warns :
  forall (cfg : Config) (now : Z) (ws : nat) (data : Frame) (s : Server),
    let s' := step cfg now (Message ws data) s in
    (bad_frame data ->
     exists text,
       s' = emit (ConsoleWarn text) s /\
       state s' = state s /\
       clients s' = clients s /\
       log s' = log s ++ [ConsoleWarn text]) /\
    (forall message, data = Parsed message -> not_an_object message -> s' = s).
Proof.
  intros cfg now ws data s s'. subst s'. cbn [step]. split.
  - intros H. destruct H as [|props n [Ht Hs]|props n [Ht Hm]].
    + exists InvalidJSON. repeat split.
    + exists (UnknownType (get "type" (JObj props n))).
      unfold onMessage. cbn [truthy typeof_object negb orb]. rewrite Ht, Hs.
      repeat split.
    + exists (InvalidMode (get "mode" (JObj props n))).
      unfold onMessage. cbn [truthy typeof_object negb orb]. rewrite Ht, Hm.
      repeat split.
  - intros message -> [H|H]; unfold onMessage; rewrite H; cbn [negb orb];
      [reflexivity | now rewrite orb_true_r].
Qed.

Lemma bad_frame_only_warns_witness :
  exists text,
    step defaultConfig 1010 (Message 1 (Parsed (setModeMessage "turbo"))) (boot defaultConfig 1000)
    = emit (ConsoleWarn text) (boot defaultConfig 1000) /\
    state (step defaultConfig 1010 (Message 1 (Parsed (setModeMessage "turbo")))
             (boot defaultConfig 1000))
    = state (boot defaultConfig 1000) /\
    clients (step defaultConfig 1010 (Message 1 (Parsed (setModeMessage "turbo")))
               (boot defaultConfig 1000))
    = clients (boot defaultConfig 1000) /\
    log (step defaultConfig 1010 (Message 1 (Parsed (setModeMessage "turbo")))
           (boot defaultConfig 1000))
    = log (boot defaultConfig 1000) ++ [ConsoleWarn text].
Proof.
  apply (proj1 (bad_frame_only_warns defaultConfig 1010 1
                  (Parsed (setModeMessage "turbo")) (boot defaultConfig 1000))).
  apply bad_mode. split; reflexivity.
Defined.

End ServerState.

Section SetMode.
Local Open Scope R_scope.

Lemma eval_server_1_0_1_90 :
  Server.normalizeStickPayload stickMessage_1_0_1_90
  = Ok (mkStick (Fin 1) (Fin 0) (Fin 1) (Fin 90)).
Proof.
  unfold Server.normalizeStickPayload, Server.sanitizeNumber, stickMessage_1_0_1_90, obj, str.
  cbn -[rem].
  rewrite (Rmin_left 1 1), (Rmin_right 1 0), (Rmax_right (-1) 1),
    (Rmax_right (-1) 0), (Rmax_right 0 1) by lra.
  rewrite (rem_small 90 360) by lra. cbn [add].
  rewrite rem_once by lra. repeat f_equal. lra.
Qed.

Lemma normalizeDegrees_0 : Client.normalizeDegrees (Fin 0) = Fin 0.
Proof.
  unfold Client.normalizeDegrees. rewrite rem_small by lra. cbn [add].
  rewrite rem_once by lra. f_equal. lra.
Qed.

(** The literal [{ x: 0, y: 0, mag: 0, deg: 0 }] normalizes to itself. *)
Lemma normalizeStick_zero : Client.normalizeStick (stick_value zeroStick) = Ok zeroStick.
Proof.
  unfold Client.normalizeStick, stick_value, zeroStick.
  cbn -[Client.calculateJoystickDegrees Client.clamp num_or Client.normalizeDegrees].
  rewrite num_or_zero, !clamp_inside, normalizeDegrees_0 by lra. reflexivity.
Qed.

Lemma automatic_not_manual m :
  is_string m "automatic" = true -> is_string m "manual" = false.
Proof.
  destruct m as [| |b|k|s k|props k]; try discriminate. cbn [is_string].
  intros H. apply String.eqb_eq in H. subst s. reflexivity.
Qed.

(** The client's [setMode] with the mode ['automatic'], no drag in progress:
    the local stick is forced to zero. *)
Lemma client_setMode_automatic now newMode fromServer c :
  is_string newMode "automatic" = true ->
  Client.isDragging c = false ->
  exists c',
    Client.setMode now newMode fromServer c = Client.Done c' /\
    Client.stick (Client.state c') = zeroStick /\
    Client.mode (Client.state c') = newMode.
Proof.
  intros Ha Hd. destruct c. cbn in Hd. subst.
  unfold Client.setMode, Client.applyStickData. rewrite Ha.
  cbn -[Client.normalizeStick stick_value zeroStick].
  rewrite (automatic_not_manual _ Ha), normalizeStick_zero.
  cbn -[zeroStick].
  destruct fromServer; cbn -[zeroStick]; eexists; (split; [reflexivity|]);
    unfold Client.sendMessage; cbn -[zeroStick]; repeat break_if; split; reflexivity.
Qed.

(** What [scheduleNodeRedPush] adds to the log: nothing, one request, or one
    timer. *)
Lemma log_scheduleNodeRedPush cfg now s :
  exists l,
    Server.log (Server.scheduleNodeRedPush cfg now s) = Server.log s ++ l /\
    (l = [] \/ l = [Server.Fetch (Server.state s)] \/
     exists id delay, l = [Server.SetTimeout id Server.DispatchTimer delay]).
Proof.
  destruct s.
  unfold Server.scheduleNodeRedPush, Server.dispatch, Server.postToNodeRed, Server.setTimeout.
  repeat first [progress cbn | break_if];
    first [ exists []; split; [now rewrite app_nil_r | now left]
          | eexists; split; [reflexivity | right; left; reflexivity]
          | eexists; split; [reflexivity | right; right; eauto] ].
Qed.

Lemma clients_scheduleNodeRedPush cfg now s :
  Server.clients (Server.scheduleNodeRedPush cfg now s) = Server.clients s.
Proof.
  destruct s.
  unfold Server.scheduleNodeRedPush, Server.dispatch, Server.postToNodeRed, Server.setTimeout.
  repeat first [progress cbn | break_if]; reflexivity.
Qed.

Lemma log_updateState cfg now ns s :
  exists l,
    Server.log (Server.updateState cfg now ns s) = Server.log s ++ l /\
    forall c p, ~ In (Server.Send c p) l.
Proof.
  unfold Server.updateState.
  destruct (log_scheduleNodeRedPush cfg now
              (Server.with_state
                 (Server.mkState
                    (Server.nullish_or (Server.newMode ns) (Server.mode (Server.state s)))
                    match Server.newStick ns with
                    | Some stick => stick
                    | None => Server.stick (Server.state s)
                    end now) s)) as (l & El & Hl).
  exists l. split; [exact El|].
  intros c p Hin.
  destruct Hl as [->|[->|(id & delay & ->)]]; cbn in Hin; intuition discriminate.
Qed.

(** C3, as stated, fails: a stick [{1, 0, 1, 90}] stored while the mode is
    manual is still stored after [setMode('automatic')]. *)
Lemma setMode_automatic_leaves_stick :
  Server.state
    (Server.run Server.defaultConfig
       [(1010%Z, Server.Message 1 (Server.Parsed (setModeMessage "manual")));
        (1020%Z, Server.Message 1 (Server.Parsed stickMessage_1_0_1_90));
        (1030%Z, Server.Message 1 (Server.Parsed (setModeMessage "automatic")))]
       (Server.boot Server.defaultConfig 1000))
  = Server.mkState (str "automatic") (mkStick (Fin 1) (Fin 0) (Fin 1) (Fin 90)) 1030
  /\ mkStick (Fin 1) (Fin 0) (Fin 1) (Fin 90) <> zeroStick.
Proof.
  split.
  - unfold Server.run. cbn [fold_left fst snd Server.step].
    unfold setModeMessage, obj.
    rewrite state_onMessage_setMode by reflexivity.
    unfold stickMessage_1_0_1_90, obj at 1.
    rewrite (state_onMessage_stick _ _ _ _ _ (mkStick (Fin 1) (Fin 0) (Fin 1) (Fin 90)))
      by (try reflexivity; exact eval_server_1_0_1_90).
    reflexivity.
  - unfold zeroStick. intros E. injection E as E _ _. lra.
Qed.

(** C3 (amended): a valid [setMode] on the server replaces the stored mode
    and timestamp and leaves the stored stick as it is, whatever the new
    mode, and what it broadcasts is the [mode] message; so after
    automatic, manual, automatic with no stick message in between the stored
    stick is still the initial zero vector.  The stick is forced to zero in
    the client: its [setMode] with a mode other than manual, no drag being in
    progress, sets the local stick to [{0, 0, 0, 0}]. *)
Theorem setMode_replaces_mode_and_keeps_stick :
  (forall cfg now ws s props n,
     is_string (get "type" (JObj props n)) "setMode" = true ->
     Server.validateMode (get "mode" (JObj props n)) = true ->
     let s' := Server.step cfg now (Server.Message ws (Server.Parsed (JObj props n))) s in
     Server.state s'
     = Server.mkState (get "mode" (JObj props n)) (Server.stick (Server.state s)) now /\
     exists l,
       Server.log s' = Server.log s ++ l
                       ++ map (fun c => Server.Send c (Server.MsgMode (get "mode" (JObj props n)) now))
                              (Server.recipients None (Server.clients s)) /\
       forall c p, ~ In (Server.Send c p) l) /\
  (forall cfg t0 t1 t2 ws,
     Server.stick
       (Server.state
          (Server.run cfg
             [(t1, Server.Message ws (Server.Parsed (setModeMessage "manual")));
              (t2, Server.Message ws (Server.Parsed (setModeMessage "automatic")))]
             (Server.boot cfg t0)))
     = zeroStick) /\
  (forall now newMode fromServer c,
     is_string newMode "automatic" = true ->
     Client.isDragging c = false ->
     exists c',
       Client.setMode now newMode fromServer c = Client.Done c' /\
       Client.stick (Client.state c') = zeroStick /\
       Client.mode (Client.state c') = newMode).
Proof.
  split; [|split].
  - intros cfg now ws s props n Ht Hm s'. subst s'. cbn [Server.step]. split.
    + now apply state_onMessage_setMode.
    + unfold Server.onMessage. cbn [truthy typeof_object negb orb]. rewrite Ht, Hm.
      cbn [negb]. rewrite broadcast_emits, emits_eq. cbn [Server.log].
      rewrite state_updateState. cbn [Server.mode Server.ts Server.newMode].
      destruct (validateMode_string _ Hm) as (st & k & E). rewrite E. cbn [Server.nullish_or].
      unfold Server.updateState at 2. rewrite clients_scheduleNodeRedPush.
      cbn [Server.clients Server.with_state].
      destruct (log_updateState cfg now (Server.mkNewState (JStr st k) None) s)
        as (l & El & Hl).
      exists l. split; [|exact Hl].
      rewrite El. now rewrite <- app_assoc.
  - intros cfg t0 t1 t2 ws. unfold Server.run. cbn [fold_left fst snd Server.step].
    unfold setModeMessage, obj.
    rewrite !state_onMessage_setMode by reflexivity. cbn [Server.stick].
    unfold Server.boot. rewrite state_scheduleNodeRedPush. reflexivity.
  - intros now newMode fromServer c. apply client_setMode_automatic.
Qed.

Lemma setMode_replaces_mode_and_keeps_stick_witness :
  Server.state
    (Server.step Server.defaultConfig 1030
       (Server.Message 1 (Server.Parsed (setModeMessage "automatic")))
       (Server.boot Server.defaultConfig 1000))
  = Server.mkState (str "automatic")
      (Server.stick (Server.state (Server.boot Server.defaultConfig 1000))) 1030
  /\ exists c',
       Client.setMode 1030 (str "automatic") true
         (Client.init (Client.mkLayout (Fin 0) (Fin 0) (Fin 200) (Fin 200) (Fin 40)))
       = Client.Done c' /\
       Client.stick (Client.state c') = zeroStick /\
       Client.mode (Client.state c') = str "automatic".
Proof.
  destruct setMode_replaces_mode_and_keeps_stick as (Hserver & _ & Hclient).
  split.
  - apply (Hserver Server.defaultConfig 1030%Z 1%nat
             (Server.boot Server.defaultConfig 1000)
             [("type"%string, str "setMode"); ("mode"%string, str "automatic")] (Some NaN));
      reflexivity.
  - apply Hclient; reflexivity.
Defined.

End SetMode.

(** ** The heartbeat: C9 *)

Section Heartbeat.
Import Server.

Lemma liveness_None ws cs : liveness ws cs = None <-> ~ In ws (map conn cs).
Proof.
  induction cs as [|c cs IH]; cbn [liveness map In]; [tauto|].
  destruct (Nat.eqb (conn c) ws) eqn:E.
  - apply Nat.eqb_eq in E. split; [discriminate | tauto].
  - apply Nat.eqb_neq in E. rewrite IH. tauto.
Qed.

Lemma heartbeatSweep_spec cs :
  NoDup (map conn cs) ->
  forall ws,
    match liveness ws cs with
    | Some false =>
        liveness ws (fst (heartbeatSweep cs)) = None /\
        In (Terminate ws) (snd (heartbeatSweep cs)) /\
        ~ In (Ping ws) (snd (heartbeatSweep cs))
    | Some true =>
        liveness ws (fst (heartbeatSweep cs)) = Some false /\
        In (Ping ws) (snd (heartbeatSweep cs)) /\
        ~ In (Terminate ws) (snd (heartbeatSweep cs))
    | None =>
        liveness ws (fst (heartbeatSweep cs)) = None /\
        ~ In (Ping ws) (snd (heartbeatSweep cs)) /\
        ~ In (Terminate ws) (snd (heartbeatSweep cs))
    end.
Proof.
  induction cs as [|c cs IH]; intros ND ws.
  - cbn. tauto.
  - cbn [map] in ND. inversion ND as [|? ? Hnotin ND']; subst.
    specialize (IH ND' ws).
    cbn [heartbeatSweep liveness].
    destruct (heartbeatSweep cs) as [kept done] eqn:Hsweep. cbn [fst snd] in IH.
    destruct (Nat.eqb (conn c) ws) eqn:E.
    + apply Nat.eqb_eq in E. subst ws.
      apply liveness_None in Hnotin. rewrite Hnotin in IH.
      destruct IH as (IH1 & IH2 & IH3).
      destruct (isAlive c); cbn [negb fst snd liveness In conn].
      * rewrite Nat.eqb_refl. split; [reflexivity|]. split; [now left|].
        intros [H|H]; [discriminate | tauto].
      * split; [exact IH1|]. split; [now left|].
        intros [H|H]; [discriminate | tauto].
    + assert (Hne : conn c <> ws) by now apply Nat.eqb_neq.
      destruct (isAlive c); cbn [negb fst snd liveness In conn]; rewrite ?E.
      * destruct (liveness ws cs) as [[|]|]; destruct IH as (IH1 & IH2 & IH3);
          (split; [exact IH1|]); split;
          try (now right); try (intros [H|H]; [congruence | tauto]).
      * destruct (liveness ws cs) as [[|]|]; destruct IH as (IH1 & IH2 & IH3);
          (split; [exact IH1|]); split;
          try (now right); try (intros [H|H]; [congruence | tauto]).
Qed.

Lemma clients_onMessage cfg now data s : clients (onMessage cfg now data s) = clients s.
Proof.
  unfold onMessage, updateState.
  repeat first [ rewrite broadcast_emits | rewrite emits_eq
               | rewrite clients_scheduleNodeRedPush | progress cbn [clients with_state emit] | break_if ];
    reflexivity.
Qed.

Lemma clients_timerFired cfg now id s : clients (timerFired cfg now id s) = clients s.
Proof.
  unfold timerFired. destruct (armed id (timers s)) as [[|]|]; [| |reflexivity].
  - destruct s. unfold dispatch, postToNodeRed. repeat first [progress cbn | break_if]; reflexivity.
  - now rewrite clients_scheduleNodeRedPush.
Qed.

Lemma clients_postToNodeRed_settled cfg now o s :
  clients (postToNodeRed_settled cfg now o s) = clients s.
Proof.
  destruct s. unfold postToNodeRed_settled, setTimeout, clearTimeout.
  repeat first [progress cbn | break_if]; reflexivity.
Qed.

Lemma clients_heartbeat s : clients (heartbeat s) = fst (heartbeatSweep (clients s)).
Proof.
  unfold heartbeat. destruct (heartbeatSweep (clients s)). now rewrite emits_eq.
Qed.

Lemma log_heartbeat s : log (heartbeat s) = log s ++ snd (heartbeatSweep (clients s)).
Proof.
  unfold heartbeat. destruct (heartbeatSweep (clients s)). now rewrite emits_eq.
Qed.

(** Setting the flag of [c] leaves the flags of the others. *)
Lemma liveness_mark ws c b cs :
  liveness ws (map (fun k => if Nat.eqb (conn k) c then mkConnection c b (isOpen k) else k) cs)
  = if Nat.eqb c ws
    then match liveness ws cs with Some _ => Some b | None => None end
    else liveness ws cs.
Proof.
  induction cs as [|k cs IH]; cbn [map liveness]; [now destruct (Nat.eqb c ws)|].
  destruct (Nat.eqb (conn k) c) eqn:Ekc; cbn [conn isAlive].
  - apply Nat.eqb_eq in Ekc. subst c.
    destruct (Nat.eqb (conn k) ws); [reflexivity | exact IH].
  - destruct (Nat.eqb (conn k) ws) eqn:Ekw; [|exact IH].
    apply Nat.eqb_eq in Ekw. subst ws. rewrite Nat.eqb_sym, Ekc. reflexivity.
Qed.

Lemma conn_mark c b cs :
  map conn (map (fun k => if Nat.eqb (conn k) c then mkConnection c b (isOpen k) else k) cs)
  = map conn cs.
Proof.
  rewrite map_map. apply map_ext. intros k.
  destruct (Nat.eqb (conn k) c) eqn:E; [|reflexivity].
  apply Nat.eqb_eq in E. now cbn.
Qed.

Lemma liveness_remove ws c cs :
  c <> ws ->
  liveness ws (filter (fun k => negb (Nat.eqb (conn k) c)) cs) = liveness ws cs.
Proof.
  intros Hne. induction cs as [|k cs IH]; [reflexivity|]. cbn [filter liveness].
  destruct (Nat.eqb (conn k) c) eqn:Ekc; cbn [negb liveness].
  - apply Nat.eqb_eq in Ekc. subst c.
    apply Nat.eqb_neq in Hne. now rewrite Hne.
  - now rewrite IH.
Qed.

Lemma liveness_app ws cs cs' :
  liveness ws (cs ++ cs') =
  match liveness ws cs with Some b => Some b | None => liveness ws cs' end.
Proof.
  induction cs as [|k cs IH]; [reflexivity|]. cbn [app liveness].
  now destruct (Nat.eqb (conn k) ws).
Qed.

Lemma NoDup_map_filter {A B} (f : A -> B) p l :
  NoDup (map f l) -> NoDup (map f (filter p l)).
Proof.
  induction l as [|a l IH]; [trivial|]. cbn [map filter]. intros ND.
  inversion ND as [|? ? Hn ND']; subst.
  destruct (p a); [|now apply IH]. cbn [map]. constructor; [|now apply IH].
  intros Hin. apply Hn. apply in_map_iff in Hin as (a' & E & Hin).
  apply filter_In in Hin as [Hin _]. apply in_map_iff. eauto.
Qed.

Lemma heartbeatSweep_conn cs :
  exists p, map conn (fst (heartbeatSweep cs)) = map conn (filter p cs).
Proof.
  exists isAlive. induction cs as [|c cs IH]; [reflexivity|].
  cbn [heartbeatSweep filter]. destruct (heartbeatSweep cs) as [kept done].
  cbn [fst] in IH. destruct (isAlive c); cbn [negb fst map conn]; now rewrite IH.
Qed.

Lemma liveness_step_quiet cfg now e s ws :
  quiet_for ws e = true ->
  liveness ws (clients (step cfg now e s)) = liveness ws (clients s).
Proof.
  destruct e as [c|c data|c|c| |id|o]; cbn [quiet_for step]; intros Hq;
    try discriminate.
  - apply negb_true_iff in Hq. unfold onConnection.
    destruct (existsb _ (clients s)); cbn [clients emit with_clients].
    + now rewrite liveness_mark, Hq.
    + rewrite liveness_app. cbn [liveness conn]. rewrite Hq.
      now destruct (liveness ws (clients s)).
  - now rewrite clients_onMessage.
  - apply negb_true_iff in Hq. unfold onPong. cbn [clients with_clients].
    now rewrite liveness_mark, Hq.
  - apply negb_true_iff, Nat.eqb_neq in Hq. unfold onClose. cbn [clients with_clients].
    now apply liveness_remove.
  - now rewrite clients_timerFired.
  - now rewrite clients_postToNodeRed_settled.
Qed.

Lemma distinct_step cfg now e s :
  distinct_connections s -> distinct_connections (step cfg now e s).
Proof.
  unfold distinct_connections. intros ND.
  destruct e as [c|c data|c|c| |id|o]; cbn [step].
  - unfold onConnection. destruct (existsb _ (clients s)) eqn:Ex;
      cbn [clients emit with_clients].
    + now rewrite conn_mark.
    + rewrite map_app. cbn [map conn]. apply NoDup_app; repeat split.
      * exact ND.
      * constructor; [intros []|constructor].
      * intros a Hin [<-|[]].
        apply in_map_iff in Hin as (k & E & Hin).
        assert (Hex : existsb (fun c0 => Nat.eqb (conn c0) (conn k)) (clients s) = true).
        { apply existsb_exists. exists k. split; [exact Hin | apply Nat.eqb_refl]. }
        rewrite E in Hex. congruence.
  - now rewrite clients_onMessage.
  - unfold onPong. cbn [clients with_clients]. now rewrite conn_mark.
  - unfold onClose. cbn [clients with_clients]. now apply NoDup_map_filter.
  - rewrite clients_heartbeat. destruct (heartbeatSweep_conn (clients s)) as (p & ->).
    now apply NoDup_map_filter.
  - now rewrite clients_timerFired.
  - now rewrite clients_postToNodeRed_settled.
Qed.

Lemma liveness_run_quiet cfg events s ws :
  Forall (fun te => quiet_for ws (snd te) = true) events ->
  liveness ws (clients (run cfg events s)) = liveness ws (clients s).
Proof.
  revert s. induction events as [|[now e] events IH]; intros s H; [reflexivity|].
  inversion H as [|? ? Hq H']; subst. unfold run in *. cbn [fold_left fst snd].
  rewrite IH by exact H'. now apply liveness_step_quiet.
Qed.

Lemma distinct_run cfg events s :
  distinct_connections s -> distinct_connections (run cfg events s).
Proof.
  revert s. induction events as [|[now e] events IH]; intros s H; [exact H|].
  unfold run in *. cbn [fold_left fst snd]. apply IH. now apply distinct_step.
Qed.

(** Every state the server reaches registers a connection at most once. *)
Lemma distinct_reachable cfg t0 events :
  distinct_connections (run cfg events (boot cfg t0)).
Proof.
  apply distinct_run. unfold distinct_connections, boot.
  rewrite clients_scheduleNodeRedPush. cbn. constructor.
Qed.

(** C9: at a heartbeat tick a registered connection whose flag is false is
    removed from the registry and terminated; any other registered
    connection gets the flag false and a ping; a pong sets the flag of a
    registered connection to true; so a connection probed at one tick, from
    which neither a pong nor anything else arrives, is removed and
    terminated at the next tick. *)
Theorem heartbeat_evicts_silent_connections :
  forall (cfg : Config) (s : Server) (ws : nat),
    distinct_connections s ->
    (forall now,
       exists done,
         log (step cfg now HeartbeatTick s) = log s ++ done /\
         match liveness ws (clients s) with
         | Some false =>
             liveness ws (clients (step cfg now HeartbeatTick s)) = None /\
             In (Terminate ws) done /\ ~ In (Ping ws) done
         | Some true =>
             liveness ws (clients (step cfg now HeartbeatTick s)) = Some false /\
             In (Ping ws) done /\ ~ In (Terminate ws) done
         | None =>
             liveness ws (clients (step cfg now HeartbeatTick s)) = None /\
             ~ In (Ping ws) done /\ ~ In (Terminate ws) done
         end) /\
    (forall now,
       liveness ws (clients s) <> None ->
       liveness ws (clients (step cfg now (Pong ws) s)) = Some true) /\
    (forall t1 t2 events,
       liveness ws (clients s) = Some true ->
       Forall (fun te => quiet_for ws (snd te) = true) events ->
       let probed := run cfg events (step cfg t1 HeartbeatTick s) in
       exists done,
         log (step cfg t2 HeartbeatTick probed) = log probed ++ done /\
         liveness ws (clients (step cfg t2 HeartbeatTick probed)) = None /\
         In (Terminate ws) done).
Proof.
  intros cfg s ws ND. split; [|split].
  - intros now. cbn [step]. exists (snd (heartbeatSweep (clients s))).
    split; [apply log_heartbeat|]. rewrite clients_heartbeat.
    exact (heartbeatSweep_spec (clients s) ND ws).
  - intros now Hreg. cbn [step]. unfold onPong. cbn [clients with_clients].
    rewrite liveness_mark, Nat.eqb_refl.
    destruct (liveness ws (clients s)); [reflexivity | congruence].
  - intros t1 t2 events Halive Hquiet probed.
    assert (Hprobed : liveness ws (clients probed) = Some false).
    { unfold probed. rewrite liveness_run_quiet by exact Hquiet. cbn [step].
      rewrite clients_heartbeat.
      pose proof (heartbeatSweep_spec (clients s) ND ws) as H.
      rewrite Halive in H. tauto. }
    assert (NDp : distinct_connections probed).
    { unfold probed. apply distinct_run. now apply distinct_step. }
    cbn [step]. exists (snd (heartbeatSweep (clients probed))).
    split; [apply log_heartbeat|]. rewrite clients_heartbeat.
    pose proof (heartbeatSweep_spec (clients probed) NDp ws) as H.
    rewrite Hprobed in H. tauto.
Qed.

Lemma heartbeat_evicts_silent_connections_witness :
  liveness 7
    (clients
       (run defaultConfig
          [(1001%Z, Connection_ 7); (31000%Z, HeartbeatTick);
           (31500%Z, Message 8 Malformed); (61000%Z, HeartbeatTick)]
          (boot defaultConfig 1000)))
  = None.
Proof.
  destruct (heartbeat_evicts_silent_connections defaultConfig
              (run defaultConfig [(1001%Z, Connection_ 7)] (boot defaultConfig 1000)) 7)
    as (_ & _ & H).
  - apply distinct_reachable.
  - destruct (H 31000%Z 61000%Z [(31500%Z, Message 8 Malformed)]) as (done & _ & Hgone & _).
    + reflexivity.
    + repeat constructor.
    + exact Hgone.
Defined.

End Heartbeat.

(** ** The reconnection manager: C8 *)

Section Reconnect.
Import Client.

Lemma frame_refl c : reconnect_frame c c.
Proof. unfold reconnect_frame. intuition auto. Qed.

Lemma frame_trans c1 c2 c3 :
  reconnect_frame c1 c2 -> reconnect_frame c2 c3 -> reconnect_frame c1 c3.
Proof.
  unfold reconnect_frame. intros (A1 & A2 & A3 & A4 & A5) (B1 & B2 & B3 & B4 & B5).
  split; [congruence|]. split; [congruence|]. split; [congruence|].
  split; [congruence|]. intros H. apply B5, A5, H.
Qed.

Lemma reconnectDelays_app l1 l2 :
  reconnectDelays (l1 ++ l2) = reconnectDelays l1 ++ reconnectDelays l2.
Proof. unfold reconnectDelays. apply flat_map_app. Qed.

Lemma frame_emit e c : silent e -> reconnect_frame c (emit e c).
Proof.
  intros H. unfold reconnect_frame. cbn. rewrite reconnectDelays_app.
  destruct e; try contradiction; cbn; rewrite app_nil_r; intuition auto.
Qed.

(* a frame proved by computation, when only other fields change *)
Ltac frame_by_fields :=
  unfold reconnect_frame, pendingReconnects, timers_ok; cbn;
  rewrite ?reconnectDelays_app; cbn; rewrite ?app_nil_r; intuition auto.

Lemma frame_sendMessage p c : reconnect_frame c (sendMessage p c).
Proof.
  unfold sendMessage. destruct (socket c) as [[| | |]|];
    try apply frame_refl. now apply frame_emit.
Qed.

Lemma frame_setThumbPosition a b c : reconnect_frame c (setThumbPosition a b c).
Proof. unfold setThumbPosition. frame_by_fields. Qed.

Lemma frame_applyStickData raw fs c : reconnect_frame c (final (applyStickData raw fs c)).
Proof.
  unfold applyStickData. destruct (normalizeStick raw) as [v|]; [|apply frame_refl].
  destruct (negb (isDragging _) || negb fs); cbn [final].
  - eapply frame_trans; [|apply frame_setThumbPosition]. frame_by_fields.
  - frame_by_fields.
Qed.

Lemma frame_sendStickPayload now c : reconnect_frame c (sendStickPayload now c).
Proof.
  unfold sendStickPayload. destruct (socket c) as [[| | |]|] eqn:E; try apply frame_refl.
  eapply frame_trans; [|apply frame_sendMessage]. frame_by_fields.
Qed.

Lemma pending_app_stick ts id :
  map fst (filter (fun t : nat * TimerKind => match snd t with ReconnectTimer => true | StickTimer => false end)
           (ts ++ [(id, StickTimer)]))
  = map fst (filter (fun t : nat * TimerKind => match snd t with ReconnectTimer => true | StickTimer => false end) ts).
Proof. rewrite filter_app. cbn. now rewrite app_nil_r. Qed.

Lemma timers_ok_arm (ts : list (nat * TimerKind)) k n :
  ((forall id k', In (id, k') ts -> id < n) /\ NoDup (map fst ts)) ->
  (forall id k', In (id, k') (ts ++ [(n, k)]) -> id < S n) /\
  NoDup (map fst (ts ++ [(n, k)])).
Proof.
  intros [Hlt ND]. split.
  - intros id k' Hin. apply in_app_iff in Hin as [Hin|[E|[]]].
    + apply Hlt in Hin. lia.
    + injection E as <- <-. lia.
  - rewrite map_app. cbn [map fst]. apply NoDup_app; repeat split.
    + exact ND.
    + constructor; [intros []|constructor].
    + intros a Hin [<-|[]]. apply in_map_iff in Hin as ([i k'] & E & Hin).
      cbn in E. subst i. apply Hlt in Hin. lia.
Qed.

Lemma frame_queueStickSend now c : reconnect_frame c (queueStickSend now c).
Proof.
  unfold queueStickSend. destruct (now - lastStickSend c >=? UI_THROTTLE_MS)%Z.
  - apply frame_sendStickPayload.
  - destruct (pendingStickTimeout c); [apply frame_refl|].
    unfold reconnect_frame, pendingReconnects, timers_ok. cbn.
    rewrite reconnectDelays_app, pending_app_stick. cbn. rewrite app_nil_r.
    split; [reflexivity|]. split; [reflexivity|]. split; [reflexivity|].
    split; [reflexivity|]. intros H. now apply timers_ok_arm.
Qed.

Lemma frame_andThen c o k :
  reconnect_frame c (final o) ->
  (forall c', reconnect_frame c' (final (k c'))) ->
  reconnect_frame c (final (andThen o k)).
Proof.
  intros Ho Hk. destruct o as [c'|c']; cbn [andThen final] in *; [|exact Ho].
  eapply frame_trans; [exact Ho | apply Hk].
Qed.

Lemma frame_settle c o : reconnect_frame c (final o) -> reconnect_frame c (settle o).
Proof.
  destruct o as [c'|c']; cbn [final settle]; intros H; [exact H|].
  eapply frame_trans; [exact H | now apply frame_emit].
Qed.

Lemma frame_setMode now m fs c : reconnect_frame c (final (setMode now m fs c)).
Proof.
  unfold setMode. destruct (negb (is_string m "automatic") && negb (is_string m "manual"));
    [apply frame_refl|].
  apply frame_andThen.
  - match goal with |- context [if ?b then _ else _] => destruct b end.
    + eapply frame_trans; [|apply frame_applyStickData]. frame_by_fields.
    + cbn [final]. frame_by_fields.
  - intros c'. destruct (negb fs); cbn [final]; [apply frame_sendMessage | apply frame_refl].
Qed.

Lemma frame_resetStick now c : reconnect_frame c (final (resetStick now c)).
Proof.
  unfold resetStick. apply frame_andThen; [apply frame_applyStickData|].
  intros c'. cbn [final]. apply frame_queueStickSend.
Qed.

Lemma frame_handlePointerEvent now ev c :
  reconnect_frame c (final (handlePointerEvent now ev c)).
Proof.
  unfold handlePointerEvent. destruct (negb (is_string (mode (state c)) "manual"));
    [apply frame_refl|].
  cbv zeta. apply frame_andThen; [apply frame_applyStickData|].
  intros c'. cbn [final]. apply frame_queueStickSend.
Qed.

Lemma frame_dispatchMessage now m c : reconnect_frame c (final (dispatchMessage now m c)).
Proof.
  unfold dispatchMessage.
  destruct m as [| |b|k|st k|props k]; try apply frame_refl; cbv zeta;
    repeat match goal with
      | |- reconnect_frame _ (final (if ?b then _ else _)) => destruct b
      | |- reconnect_frame _ (final (andThen _ _)) => apply frame_andThen; [|intros c']
      | |- reconnect_frame _ (final (setMode _ _ _ _)) => apply frame_setMode
      | |- reconnect_frame _ (final (applyStickData _ _ _)) => apply frame_applyStickData
      | |- reconnect_frame _ (final (Done (emit _ _))) => cbn [final]; now apply frame_emit
      | |- reconnect_frame _ (final (Done _)) => apply frame_refl
      end.
Qed.

Lemma frame_onMessage now data c : reconnect_frame c (onMessage now data c).
Proof.
  unfold onMessage. destruct data as [|m]; [now apply frame_emit|].
  pose proof (frame_dispatchMessage now m c) as H.
  destruct (dispatchMessage now m c) as [c'|c']; cbn [final] in H; [exact H|].
  eapply frame_trans; [exact H | now apply frame_emit].
Qed.

Lemma frame_with_drag d p c : reconnect_frame c (with_drag d p c).
Proof. frame_by_fields. Qed.

Lemma frame_pointer now e c :
  match e with
  | PointerDown _ | PointerMove _ | PointerUp _ | LostPointerCapture
  | ModeSwitchChange _ | SocketMessage _ | SocketErrorEvent | Resize _ => reconnect_frame c (step now e c)
  | _ => True
  end.
Proof.
  destruct e; cbn [step]; trivial.
  - apply frame_onMessage.
  - unfold onError, setStatus. eapply frame_trans; now apply frame_emit.
  - apply frame_settle. unfold onModeSwitchChange. apply frame_andThen.
    + eapply frame_trans; [|apply frame_setMode]. frame_by_fields.
    + intros c'. destruct (String.eqb _ _); [apply frame_resetStick | apply frame_refl].
  - apply frame_settle. unfold onPointerDown.
    destruct (negb _); [apply frame_refl|].
    eapply frame_trans; [|apply frame_handlePointerEvent]. apply frame_with_drag.
  - apply frame_settle. unfold onPointerMove.
    destruct (_ || _); [apply frame_refl | apply frame_handlePointerEvent].
  - apply frame_settle. unfold endPointer.
    destruct (negb _); [apply frame_refl|].
    eapply frame_trans; [|apply frame_resetStick]. apply frame_with_drag.
  - apply frame_settle. unfold onLostPointerCapture.
    destruct (isDragging c); [|apply frame_refl].
    eapply frame_trans; [|apply frame_resetStick]. apply frame_with_drag.
  - unfold onResize. eapply frame_trans; [|apply frame_setThumbPosition]. frame_by_fields.
Qed.

Lemma next_delay k :
  Math_min_float (PrimFloat.mul (expectedDelay k) 1.5%float) MAX_RECONNECT_DELAY
  = expectedDelay (S k).
Proof.
  do 6 (destruct k as [|k]; [reflexivity|]).
  unfold expectedDelay. rewrite !nth_overflow by (cbn; lia). reflexivity.
Qed.

Lemma in_cancel {K} id i (k : K) ts :
  In (i, k) (cancel id ts) <-> In (i, k) ts /\ i <> id.
Proof.
  unfold cancel. rewrite filter_In. cbn [fst].
  rewrite negb_true_iff, Nat.eqb_neq. tauto.
Qed.

Lemma timers_ok_cancel id c :
  timers_ok c -> timers_ok (with_timers (cancel id (timers c)) c).
Proof.
  unfold timers_ok. cbn. intros [Hlt ND]. split.
  - intros i k Hin. apply in_cancel in Hin as [Hin _]. eauto.
  - unfold cancel. now apply NoDup_map_filter.
Qed.

Lemma in_pending id c :
  In id (pendingReconnects c) <-> In (id, ReconnectTimer) (timers c).
Proof.
  unfold pendingReconnects. rewrite in_map_iff. split.
  - intros ([i k] & E & Hin). cbn in E. subst i.
    apply filter_In in Hin as [Hin Hk]. cbn in Hk. destruct k; [discriminate | exact Hin].
  - intros Hin. exists (id, ReconnectTimer). split; [reflexivity|].
    apply filter_In. split; [exact Hin | reflexivity].
Qed.

Lemma tracked_cancel id c :
  reconnect_tracked c -> reconnect_tracked (with_timers (cancel id (timers c)) c).
Proof.
  unfold reconnect_tracked. intros H i Hin. apply in_pending in Hin. cbn in Hin.
  apply in_cancel in Hin as [Hin _]. cbn. apply H. now apply in_pending.
Qed.

Lemma pending_cleared c :
  reconnect_tracked c -> pendingReconnects (clearTimeout (reconnectTimer c) c) = [].
Proof.
  intros Ht. destruct (pendingReconnects (clearTimeout (reconnectTimer c) c)) as [|i l] eqn:E;
    [reflexivity|exfalso].
  assert (Hin : In i (pendingReconnects (clearTimeout (reconnectTimer c) c)))
    by (rewrite E; now left).
  apply in_pending in Hin. unfold clearTimeout in Hin.
  destruct (reconnectTimer c) as [r|] eqn:Er.
  - cbn in Hin. apply in_cancel in Hin as [Hin Hne].
    apply in_pending, Ht in Hin. congruence.
  - apply in_pending, Ht in Hin. congruence.
Qed.

Lemma timers_ok_clear h c : timers_ok c -> timers_ok (clearTimeout h c).
Proof. destruct h; cbn [clearTimeout]; [apply timers_ok_cancel | trivial]. Qed.

(** [scheduleReconnect] leaves exactly one reconnection timer armed, the
    one it arms, with the current interval as delay. *)
Lemma scheduleReconnect_spec c :
  reconnect_inv c ->
  reconnect_inv (scheduleReconnect c) /\
  pendingReconnects (scheduleReconnect c) = [fresh c] /\
  armed (fresh c) (timers (scheduleReconnect c)) = Some ReconnectTimer /\
  reconnectTimer (scheduleReconnect c) = Some (fresh c) /\
  reconnectDelay (scheduleReconnect c) = reconnectDelay c /\
  reconnectDelays (log (scheduleReconnect c)) = reconnectDelays (log c) ++ [reconnectDelay c].
Proof.
  intros [Hok Ht].
  pose proof (pending_cleared c Ht) as Hclr.
  pose proof (timers_ok_clear (reconnectTimer c) c Hok) as Hok'.
  assert (Hf : fresh (clearTimeout (reconnectTimer c) c) = fresh c)
    by (destruct (reconnectTimer c); reflexivity).
  assert (Hd : reconnectDelay (clearTimeout (reconnectTimer c) c) = reconnectDelay c)
    by (destruct (reconnectTimer c); reflexivity).
  assert (Hl : log (clearTimeout (reconnectTimer c) c) = log c)
    by (destruct (reconnectTimer c); reflexivity).
  unfold scheduleReconnect. cbv zeta.
  set (c1 := clearTimeout (reconnectTimer c) c) in *.
  assert (Hp : pendingReconnects
                 (with_reconnectTimer (Some (fresh c1))
                    (emit (SetReconnectTimeout (fresh c1) (reconnectDelay
                       (with_fresh (S (fresh c1)) (with_timers (timers c1 ++ [(fresh c1, ReconnectTimer)]) c1))))
                       (with_fresh (S (fresh c1))
                          (with_timers (timers c1 ++ [(fresh c1, ReconnectTimer)]) c1))))
               = [fresh c]).
  { unfold pendingReconnects in *. cbn. rewrite filter_app, map_app, Hclr. cbn. now rewrite Hf. }
  split; [split|].
  - unfold timers_ok in *. cbn. now apply timers_ok_arm.
  - unfold reconnect_tracked. rewrite Hp. intros id [<-|[]]. cbn. now rewrite Hf.
  - split; [exact Hp|]. split.
    + cbn. rewrite <- Hf.
      assert (Hnone : forall ts : list (nat * TimerKind),
                 (forall id k, In (id, k) ts -> id < fresh c1) ->
                 armed (fresh c1) (ts ++ [(fresh c1, ReconnectTimer)]) = Some ReconnectTimer).
      { induction ts as [|[i k] ts IH]; intros Hlt; cbn [app armed].
        - now rewrite Nat.eqb_refl.
        - destruct (Nat.eqb i (fresh c1)) eqn:E.
          + apply Nat.eqb_eq in E. specialize (Hlt i k (or_introl eq_refl)). lia.
          + apply IH. intros id k' Hin. apply (Hlt id k'). now right. }
      apply Hnone. apply Hok'.
    + cbn. rewrite reconnectDelays_app, Hf, Hd, Hl. cbn. repeat split; reflexivity.
Qed.

Lemma inv_frame c c' : reconnect_frame c c' -> reconnect_inv c -> reconnect_inv c'.
Proof.
  intros (_ & Ht & _ & Hp & Hok) [H1 H2]. split; [now apply Hok|].
  unfold reconnect_tracked. rewrite Hp, Ht. exact H2.
Qed.

Lemma inv_emit e c : reconnect_inv c -> reconnect_inv (emit e c).
Proof. intros H. exact H. Qed.

(** [connectSocket] leaves no reconnection timer armed when the socket is
    created, and the one it arms otherwise. *)
Lemma connectSocket_spec created c :
  reconnect_inv c ->
  reconnect_inv (connectSocket created c) /\
  reconnectDelay (connectSocket created c) = reconnectDelay c /\
  (created = true ->
   reconnectDelays (log (connectSocket created c)) = reconnectDelays (log c)).
Proof.
  intros [Hok Ht]. unfold connectSocket. cbv zeta.
  pose proof (pending_cleared c Ht) as Hclr.
  pose proof (timers_ok_clear (reconnectTimer c) c Hok) as Hok'.
  assert (Hd : reconnectDelay (clearTimeout (reconnectTimer c) c) = reconnectDelay c)
    by (destruct (reconnectTimer c); reflexivity).
  assert (Hl : log (clearTimeout (reconnectTimer c) c) = log c)
    by (destruct (reconnectTimer c); reflexivity).
  set (c1 := clearTimeout (reconnectTimer c) c) in *.
  assert (Hinv1 : reconnect_inv c1).
  { split; [exact Hok'|]. unfold reconnect_tracked. rewrite Hclr. intros id []. }
  destruct created.
  - split; [|split].
    + split; [exact Hok'|]. unfold reconnect_tracked, pendingReconnects. cbn.
      fold (pendingReconnects c1). rewrite Hclr. intros id [].
    + cbn. exact Hd.
    + intros _. unfold setStatus. cbn. rewrite !reconnectDelays_app, Hl. cbn.
      now rewrite !app_nil_r.
  - destruct (scheduleReconnect_spec
                (emit (ConsoleError ConnectionFailed) (setStatus Connecting c1)))
      as (Hinv & _ & _ & _ & Hdelay & _); [exact Hinv1|].
    split; [exact Hinv|]. split; [|discriminate].
    rewrite Hdelay. cbn. exact Hd.
Qed.

Lemma inv_timerFired now created id c :
  reconnect_inv c -> reconnect_inv (timerFired now created id c).
Proof.
  intros Hinv. unfold timerFired. destruct (armed id (timers c)) as [[|]|]; [| |exact Hinv].
  - cbv zeta. eapply inv_frame; [apply frame_sendStickPayload|].
    destruct Hinv as [Hok Ht]. split.
    + apply (timers_ok_cancel id c Hok).
    + apply (tracked_cancel id c Ht).
  - cbv zeta. apply connectSocket_spec.
    destruct Hinv as [Hok Ht]. split.
    + apply (timers_ok_cancel id c Hok).
    + apply (tracked_cancel id c Ht).
Qed.

Lemma onOpen_frame now c :
  reconnect_frame (with_reconnectDelay 1000%float c) (final (onOpen now c)).
Proof.
  unfold onOpen. cbv zeta. apply frame_andThen.
  - match goal with |- context [if ?b then _ else _] => destruct b end.
    + cbn [final]. eapply frame_trans; [|apply frame_queueStickSend].
      unfold setStatus. frame_by_fields.
    + eapply frame_trans; [|apply frame_resetStick]. unfold setStatus. frame_by_fields.
  - intros c'. cbn [final]. apply frame_sendMessage.
Qed.

Lemma reconnectDelay_onOpen now c :
  reconnectDelay (step now SocketOpen c) = 1000%float.
Proof.
  cbn [step]. pose proof (frame_settle _ _ (onOpen_frame now c)) as (H & _). exact H.
Qed.

Lemma inv_step now e c : reconnect_inv c -> reconnect_inv (step now e c).
Proof.
  intros Hinv.
  pose proof (frame_pointer now e c) as Hf.
  destruct e; try (eapply inv_frame; [exact Hf | exact Hinv]); cbn [step].
  - eapply inv_frame; [apply frame_settle, onOpen_frame|]. exact Hinv.
  - unfold onClose. cbv zeta. apply scheduleReconnect_spec. exact Hinv.
  - now apply inv_timerFired.
Qed.

Lemma inv_run events c : reconnect_inv c -> reconnect_inv (run events c).
Proof.
  revert c. induction events as [|[now e] events IH]; intros c H; [exact H|].
  unfold run in *. cbn [fold_left fst snd]. apply IH. now apply inv_step.
Qed.

Lemma inv_init page : reconnect_inv (init page).
Proof.
  split; [split|].
  - intros id k [].
  - constructor.
  - intros id [].
Qed.

Lemma start_spec now created page :
  reconnect_inv (start now created page) /\
  reconnectDelay (start now created page) = 1000%float.
Proof.
  unfold start.
  pose proof (frame_settle _ _ (frame_setMode now (mode (state (init page))) true (init page)))
    as Hf.
  destruct (connectSocket_spec created
              (settle (setMode now (mode (state (init page))) true (init page))))
    as (Hinv & Hd & _).
  - eapply inv_frame; [exact Hf | apply inv_init].
  - split; [exact Hinv|]. rewrite Hd. destruct Hf as (-> & _). reflexivity.
Qed.

Lemma pending_at_most_one c : reconnect_inv c -> List.length (pendingReconnects c) <= 1.
Proof.
  intros [[_ ND] Ht].
  assert (NDp : NoDup (pendingReconnects c)).
  { unfold pendingReconnects. now apply NoDup_map_filter. }
  destruct (pendingReconnects c) as [|a [|b l]] eqn:E; cbn; try lia.
  exfalso.
  assert (Ha : reconnectTimer c = Some a) by (apply Ht; rewrite E; cbn; tauto).
  assert (Hb : reconnectTimer c = Some b) by (apply Ht; rewrite E; cbn; tauto).
  assert (a = b) by congruence. subst b.
  inversion NDp as [|? ? Hn _]; subst. apply Hn. now left.
Qed.

Lemma failedAttempt_spec now k c :
  reconnect_inv c ->
  reconnectDelay c = expectedDelay k ->
  reconnect_inv (failedAttempt now c) /\
  reconnectDelay (failedAttempt now c) = expectedDelay (S k) /\
  reconnectDelays (log (failedAttempt now c)) = reconnectDelays (log c) ++ [expectedDelay k].
Proof.
  intros Hinv Hd. unfold failedAttempt. cbv zeta. cbn [step]. unfold onClose. cbv zeta.
  set (c0 := setStatus Reconnecting (with_socket (Some CLOSED) c)).
  assert (Hinv0 : reconnect_inv c0) by exact Hinv.
  destruct (scheduleReconnect_spec c0 Hinv0) as (Hinv1 & Hp & Harmed & Ht & Hd1 & Hl1).
  rewrite Ht. unfold timerFired. rewrite Harmed. cbv zeta.
  set (c2 := with_reconnectDelay _ _).
  assert (Hinv2 : reconnect_inv c2).
  { destruct Hinv1 as [Hok Htr]. split.
    - apply (timers_ok_cancel (fresh c0) _ Hok).
    - apply (tracked_cancel (fresh c0) _ Htr). }
  destruct (connectSocket_spec true c2 Hinv2) as (Hinv3 & Hd3 & Hl3).
  split; [exact Hinv3|]. split.
  - rewrite Hd3. unfold c2. cbn [reconnectDelay with_reconnectDelay with_timers].
    rewrite Hd1. unfold c0. cbn. rewrite Hd. apply next_delay.
  - rewrite (Hl3 eq_refl). unfold c2. cbn [log with_reconnectDelay with_timers].
    rewrite Hl1. unfold c0 at 2. cbn [reconnectDelay setStatus emit with_socket].
    rewrite Hd. f_equal. unfold c0, setStatus. cbn. rewrite reconnectDelays_app. cbn.
    now rewrite app_nil_r.
Qed.

Lemma failedAttempts_spec now k c :
  reconnect_inv c ->
  reconnectDelay c = expectedDelay k ->
  forall n,
    reconnect_inv (failedAttempts n now c) /\
    reconnectDelay (failedAttempts n now c) = expectedDelay (k + n) /\
    reconnectDelays (log (failedAttempts n now c))
    = reconnectDelays (log c) ++ map expectedDelay (seq k n).
Proof.
  intros Hinv Hd. induction n as [|n (IHinv & IHd & IHl)].
  - cbn [failedAttempts seq map]. rewrite Nat.add_0_r, app_nil_r.
    split; [exact Hinv|]. split; [exact Hd | reflexivity].
  - change (failedAttempts (S n) now c) with (failedAttempt now (failedAttempts n now c)).
    destruct (failedAttempt_spec now (k + n) _ IHinv IHd) as (Hinv' & Hd' & Hl').
    split; [exact Hinv'|]. split.
    + rewrite Hd'. f_equal. lia.
    + rewrite Hl', IHl, seq_S, map_app, <- app_assoc. reflexivity.
Qed.

(** C8: the client starts with the interval 1000 ms and a successful
    connection resets it to 1000 ms; from there the delays of successive
    failed attempts are 1000, 1500, 2250, 3375, 5062.5, 7593.75, 10000,
    10000, ... ms; and in every state the client reaches at most one
    reconnection timer is armed. *)
Theorem reconnect_delays_follow_backoff :
  forall (events : list (Z * Event)) (now : Z) (created : bool) (page : Layout),
    let c := run events (start now created page) in
    reconnectDelay (start now created page) = 1000%float /\
    (forall t, reconnectDelay (step t SocketOpen c) = 1000%float) /\
    (forall t n,
       reconnectDelay c = 1000%float ->
       reconnectDelays (log (failedAttempts n t c))
       = reconnectDelays (log c) ++ map expectedDelay (seq 0 n)) /\
    map expectedDelay (seq 0 8)
    = [1000; 1500; 2250; 3375; 5062.5; 7593.75; 10000; 10000]%float /\
    (forall n, 6 <= n -> expectedDelay n = 10000%float) /\
    List.length (pendingReconnects c) <= 1.
Proof.
  intros events now created page c.
  destruct (start_spec now created page) as (Hinv0 & Hd0).
  assert (Hinv : reconnect_inv c) by (unfold c; now apply inv_run).
  split; [exact Hd0|]. split; [intros t; apply reconnectDelay_onOpen|].
  split; [|split; [reflexivity|split]].
  - intros t n Hd. now apply (failedAttempts_spec t 0 c Hinv Hd n).
  - intros n Hn. unfold expectedDelay. apply nth_overflow. cbn. lia.
  - now apply pending_at_most_one.
Qed.

Lemma reconnect_delays_follow_backoff_witness :
  reconnectDelays
    (log (failedAttempts 8 5
            (start 0 true (mkLayout (Fin 0) (Fin 0) (Fin 200) (Fin 200) (Fin 40)))))
  = reconnectDelays
      (log (start 0 true (mkLayout (Fin 0) (Fin 0) (Fin 200) (Fin 200) (Fin 40))))
    ++ map expectedDelay (seq 0 8).
Proof.
  destruct (reconnect_delays_follow_backoff []
              0%Z true (mkLayout (Fin 0) (Fin 0) (Fin 200) (Fin 200) (Fin 40)))
    as (Hfloor & _ & Hseq & _).
  apply (Hseq 5%Z 8). exact Hfloor.
Defined.

End Reconnect.

(** ** Server messages during a drag: C10 *)

Section Drag.
Import Client.
Local Open Scope R_scope.

Lemma applyStickData_dragging raw c :
  isDragging c = true ->
  thumb (final (applyStickData raw true c)) = thumb c /\
  isDragging (final (applyStickData raw true c)) = true /\
  mode (state (final (applyStickData raw true c))) = mode (state c) /\
  (forall v, normalizeStick raw = Ok v ->
             applyStickData raw true c = Done (with_state (mkState (mode (state c)) v) c)).
Proof.
  intros Hd. unfold applyStickData. destruct (normalizeStick raw) as [v|].
  - cbn [isDragging with_state]. rewrite Hd. cbn [negb orb final].
    repeat split; try assumption. intros v' E. now injection E as <-.
  - cbn [final]. repeat split; try assumption. discriminate.
Qed.

Lemma setMode_dragging now m c :
  isDragging c = true ->
  thumb (final (setMode now m true c)) = thumb c /\
  isDragging (final (setMode now m true c)) = true /\
  stick (state (final (setMode now m true c))) = stick (state c) /\
  (exists c', setMode now m true c = Done c').
Proof.
  intros Hd. unfold setMode.
  destruct (negb (is_string m "automatic") && negb (is_string m "manual")).
  - cbn [final]. repeat split; try assumption. now exists c.
  - cbn [isDragging with_state with_modeSwitchChecked]. rewrite Hd.
    rewrite andb_false_r. cbn [andThen negb final].
    repeat split; try assumption. eexists; reflexivity.
Qed.

Lemma is_string_other v a b : is_string v a = true -> a <> b -> is_string v b = false.
Proof.
  destruct v as [| |x|k|s k|props k]; try discriminate. cbn [is_string].
  intros H Hne. apply String.eqb_eq in H. subst s. now apply String.eqb_neq.
Qed.

Lemma dispatchMessage_dragging now message c :
  isDragging c = true ->
  thumb (final (dispatchMessage now message c)) = thumb c /\
  isDragging (final (dispatchMessage now message c)) = true.
Proof.
  intros Hd. unfold dispatchMessage.
  destruct (setMode_dragging now (get "mode" message) c Hd) as (Hm1 & Hm2 & _ & (cm & Hm4)).
  destruct (applyStickData_dragging (get "stick" message) c Hd) as (Ha1 & Ha2 & _).
  assert (Hstate :
    thumb (final (andThen
       (if truthy (get "mode" message) then setMode now (get "mode" message) true c else Done c)
       (fun c0 => if truthy (get "stick" message)
                  then applyStickData (get "stick" message) true c0 else Done c0))) = thumb c /\
    isDragging (final (andThen
       (if truthy (get "mode" message) then setMode now (get "mode" message) true c else Done c)
       (fun c0 => if truthy (get "stick" message)
                  then applyStickData (get "stick" message) true c0 else Done c0))) = true).
  { destruct (truthy (get "mode" message)).
    - rewrite Hm4 in *. cbn [andThen final] in *.
      destruct (truthy (get "stick" message)); cbn [final]; [|now split].
      destruct (applyStickData_dragging (get "stick" message) cm Hm2) as (Hb1 & Hb2 & _).
      split; [congruence | exact Hb2].
    - cbn [andThen]. destruct (truthy (get "stick" message)); cbn [final]; now split. }
  destruct message as [| |x|k|s k|props k]; cbn [final]; try (now split); cbv zeta;
    repeat match goal with
      | |- context [if is_string ?a ?b then _ else _] => destruct (is_string a b)
      end;
    try exact Hstate;
    try (destruct (truthy (get "mode" _)); cbn [final]; now split);
    try (destruct (truthy (get "stick" _)); cbn [final]; now split);
    cbn [final emit thumb isDragging]; now split.
Qed.

Lemma onMessage_dragging now data c :
  isDragging c = true ->
  thumb (onMessage now data c) = thumb c /\ isDragging (onMessage now data c) = true.
Proof.
  intros Hd. unfold onMessage. destruct data as [|message]; [now split|].
  pose proof (dispatchMessage_dragging now message c Hd) as H.
  destruct (dispatchMessage now message c); cbn [final] in H; exact H.
Qed.

Lemma onMessage_stick_dragging now message v c :
  isDragging c = true ->
  is_string (get "type" message) "stick" = true ->
  truthy (get "stick" message) = true ->
  normalizeStick (get "stick" message) = Ok v ->
  state (onMessage now (Parsed message) c) = mkState (mode (state c)) v.
Proof.
  intros Hd Ht Hs Hv. unfold onMessage, dispatchMessage.
  assert (Hobj : exists props k, message = JObj props k).
  { destruct message as [| |x|k|s k|props k]; try discriminate; eauto. }
  destruct Hobj as (props & k & ->). cbv zeta.
  rewrite (is_string_other _ "stick" "state" Ht) by discriminate.
  rewrite (is_string_other _ "stick" "mode" Ht) by discriminate.
  rewrite Ht, Hs.
  destruct (applyStickData_dragging (get "stick" (JObj props k)) c Hd) as (_ & _ & _ & H).
  rewrite (H v Hv). reflexivity.
Qed.

Lemma drag_refl c : drag_frame c c.
Proof. now split. Qed.

Lemma drag_trans c1 c2 c3 : drag_frame c1 c2 -> drag_frame c2 c3 -> drag_frame c1 c3.
Proof. unfold drag_frame. intros [A B] [C D]. split; congruence. Qed.

Lemma drag_sendMessage p c : drag_frame c (sendMessage p c).
Proof. unfold sendMessage. destruct (socket c) as [[| | |]|]; now split. Qed.

Lemma drag_applyStickData raw fs c : drag_frame c (final (applyStickData raw fs c)).
Proof.
  unfold applyStickData. destruct (normalizeStick raw); [|apply drag_refl].
  destruct (_ || _); now split.
Qed.

Lemma drag_sendStickPayload now c : drag_frame c (sendStickPayload now c).
Proof.
  unfold sendStickPayload. destruct (socket c) as [[| | |]|]; try apply drag_refl.
  eapply drag_trans; [|apply drag_sendMessage]. now split.
Qed.

Lemma drag_queueStickSend now c : drag_frame c (queueStickSend now c).
Proof.
  unfold queueStickSend. destruct (_ >=? _)%Z; [apply drag_sendStickPayload|].
  destruct (pendingStickTimeout c); now split.
Qed.

Lemma drag_andThen c o k :
  drag_frame c (final o) -> (forall c', drag_frame c' (final (k c'))) ->
  drag_frame c (final (andThen o k)).
Proof.
  intros Ho Hk. destruct o as [c'|c']; cbn [andThen final] in *; [|exact Ho].
  eapply drag_trans; [exact Ho | apply Hk].
Qed.

Lemma drag_settle c o : drag_frame c (final o) -> drag_frame c (settle o).
Proof. destruct o; cbn [final settle]; intros H; [exact H|]. destruct H. now split. Qed.

Lemma drag_resetStick now c : drag_frame c (final (resetStick now c)).
Proof.
  unfold resetStick. apply drag_andThen; [apply drag_applyStickData|].
  intros c'. apply drag_queueStickSend.
Qed.

Lemma drag_handlePointerEvent now ev c : drag_frame c (final (handlePointerEvent now ev c)).
Proof.
  unfold handlePointerEvent. destruct (negb _); [apply drag_refl|]. cbv zeta.
  apply drag_andThen; [apply drag_applyStickData|].
  intros c'. apply drag_queueStickSend.
Qed.

Lemma drag_connectSocket created c : drag_frame c (connectSocket created c).
Proof.
  unfold drag_frame, connectSocket, scheduleReconnect, setStatus, clearTimeout.
  destruct c as [? ? ? ? ? ? rt ? ? ? ? ? ? ?]. destruct created, rt; cbn; now split.
Qed.

(** [setMode] with one of the two modes stores it; the drag goes on. *)
Lemma setMode_valid now m fs c :
  valid_mode m ->
  mode (state (final (setMode now m fs c))) = m /\
  isDragging (final (setMode now m fs c)) = isDragging c.
Proof.
  intros Hv. unfold setMode.
  assert (E : negb (is_string m "automatic") && negb (is_string m "manual") = false).
  { destruct Hv as [-> | ->]; [reflexivity | apply andb_false_r]. }
  rewrite E. clear E.
  set (c1 := with_modeSwitchChecked _ _).
  assert (H1 : drag_frame c1 (final (if negb (is_string (mode (state c1)) "manual") && negb (isDragging c1)
                 then applyStickData (stick_value zeroStick) false c1 else Done c1))).
  { destruct (_ && _); [apply drag_applyStickData | apply drag_refl]. }
  assert (H2 : drag_frame c1 (final (andThen
                 (if negb (is_string (mode (state c1)) "manual") && negb (isDragging c1)
                  then applyStickData (stick_value zeroStick) false c1 else Done c1)
                 (fun c0 => if negb fs then Done (sendMessage (SetModeMsg (mode (state c0)) now) c0)
                            else Done c0)))).
  { apply drag_andThen; [exact H1|]. intros c'.
    destruct (negb fs); [apply drag_sendMessage | apply drag_refl]. }
  destruct H2 as [Hm Hd]. split; [rewrite Hm | rewrite Hd]; reflexivity.
Qed.

Lemma drag_onOpen now c : drag_frame c (final (onOpen now c)).
Proof.
  unfold onOpen. cbv zeta. apply drag_andThen.
  - match goal with |- context [if ?b then _ else _] => destruct b end.
    + eapply drag_trans; [|apply drag_queueStickSend]. now split.
    + eapply drag_trans; [|apply drag_resetStick]. now split.
  - intros c'. apply drag_sendMessage.
Qed.

Lemma start_mode now created page :
  mode (state (start now created page)) = str "automatic" /\
  isDragging (start now created page) = false.
Proof.
  unfold start.
  destruct (drag_connectSocket created
              (settle (setMode now (mode (state (init page))) true (init page)))) as [Hm Hd].
  destruct (drag_settle (final (setMode now (mode (state (init page))) true (init page)))
              (setMode now (mode (state (init page))) true (init page)) (drag_refl _))
    as [Hm' Hd'].
  destruct (setMode_valid now (mode (state (init page))) true (init page)) as [Hm'' Hd''];
    [left; reflexivity|].
  rewrite Hm, Hd, Hm', Hd', Hm'', Hd''. split; reflexivity.
Qed.

Lemma drag_step_open now c : drag_frame c (step now SocketOpen c).
Proof. cbn [step]. apply drag_settle, drag_onOpen. Qed.

Lemma step_switch_manual now c :
  isDragging c = false ->
  mode (state (step now (ModeSwitchChange true) c)) = str "manual" /\
  isDragging (step now (ModeSwitchChange true) c) = false.
Proof.
  intros Hd. cbn [step]. unfold onModeSwitchChange. cbv zeta.
  cbn [modeSwitchChecked with_modeSwitchChecked].
  destruct (setMode_valid now (JStr "manual" NaN) false (with_modeSwitchChecked true c))
    as [Hm Hd']; [right; reflexivity|].
  cbn [isDragging with_modeSwitchChecked] in Hd'. rewrite Hd in Hd'.
  destruct (setMode now (JStr "manual" NaN) false (with_modeSwitchChecked true c))
    as [c'|c']; cbn [andThen final settle] in *.
  - change (String.eqb "manual" "automatic") with false. cbn [settle]. now split.
  - now split.
Qed.

Lemma step_pointerDown_manual now ev c :
  mode (state c) = str "manual" ->
  mode (state (step now (PointerDown ev) c)) = str "manual" /\
  isDragging (step now (PointerDown ev) c) = true.
Proof.
  intros Hm. cbn [step]. unfold onPointerDown. rewrite Hm.
  change (negb (is_string (str "manual") "manual")) with false. cbv iota.
  destruct (drag_settle _ _ (drag_handlePointerEvent now ev
                               (with_drag true (Some (pointerId ev)) c)))
    as [Hm' Hd'].
  rewrite Hm', Hd'. cbn [mode state isDragging with_drag]. now split.
Qed.

Lemma dragging_client_spec :
  mode (state dragging_client) = str "manual" /\ isDragging dragging_client = true.
Proof.
  unfold dragging_client, run. cbn [fold_left fst snd].
  destruct (start_mode 0 true page0) as [Hm0 Hd0].
  generalize dependent (start 0 true page0). intros c0 Hm0 Hd0.
  destruct (drag_step_open 10 c0) as [Hm1 Hd1]. rewrite Hd0 in Hd1.
  generalize dependent (step 10 SocketOpen c0). intros c1 _ Hd1.
  destruct (step_switch_manual 20 c1 Hd1) as [Hm2 _].
  generalize dependent (step 20 (ModeSwitchChange true) c1). intros c2 Hm2.
  exact (step_pointerDown_manual 30 pointerAtCentre c2 Hm2).
Qed.

Lemma normalizeDegrees_90 : normalizeDegrees (Fin 90) = Fin 90.
Proof.
  unfold normalizeDegrees. rewrite rem_small by lra. cbn [add].
  rewrite rem_once by lra. f_equal. lra.
Qed.

Lemma normalizeStick_1_0_1_90 :
  normalizeStick (stick_value (mkStick (Fin 1) (Fin 0) (Fin 1) (Fin 90)))
  = Ok (mkStick (Fin 1) (Fin 0) (Fin 1) (Fin 90)).
Proof.
  unfold normalizeStick, stick_value.
  cbn -[calculateJoystickDegrees clamp num_or normalizeDegrees].
  rewrite num_or_nonzero, num_or_zero, !clamp_inside, normalizeDegrees_90 by lra.
  reflexivity.
Qed.

(** C10, as stated, fails: while the thumb is held, a [stick] broadcast
    replaces the stick of the client state, and the next one replaces it
    again. *)
Lemma server_stick_overwrites_during_drag :
  isDragging dragging_client = true /\
  isDragging
    (step 40 (SocketMessage (Parsed (serverStick (mkStick (Fin 1) (Fin 0) (Fin 1) (Fin 90)))))
       dragging_client) = true /\
  stick (state
    (step 40 (SocketMessage (Parsed (serverStick (mkStick (Fin 1) (Fin 0) (Fin 1) (Fin 90)))))
       dragging_client))
  = mkStick (Fin 1) (Fin 0) (Fin 1) (Fin 90) /\
  stick (state
    (step 50 (SocketMessage (Parsed (serverStick zeroStick)))
       (step 40 (SocketMessage (Parsed (serverStick (mkStick (Fin 1) (Fin 0) (Fin 1) (Fin 90)))))
          dragging_client)))
  = zeroStick /\
  mkStick (Fin 1) (Fin 0) (Fin 1) (Fin 90) <> zeroStick.
Proof.
  destruct dragging_client_spec as [_ Hd].
  destruct (onMessage_dragging 40
              (Parsed (serverStick (mkStick (Fin 1) (Fin 0) (Fin 1) (Fin 90))))
              dragging_client Hd) as [_ Hd1].
  split; [exact Hd|]. split; [exact Hd1|]. cbn [step]. split; [|split].
  - rewrite (onMessage_stick_dragging 40 _ (mkStick (Fin 1) (Fin 0) (Fin 1) (Fin 90)) _ Hd);
      [reflexivity | reflexivity | reflexivity | exact normalizeStick_1_0_1_90].
  - rewrite (onMessage_stick_dragging 50 _ zeroStick _ Hd1);
      [reflexivity | reflexivity | reflexivity | exact normalizeStick_zero].
  - unfold zeroStick. intros E. injection E as E _ _. lra.
Qed.

Lemma valid_mode_truthy m : valid_mode m -> truthy m = true.
Proof.
  intros [H|H]; destruct m as [| |k|k|t k|props k]; try discriminate;
    cbn [is_string] in H; apply String.eqb_eq in H; subst t; reflexivity.
Qed.

(** During a drag [setMode] with one of the two modes, coming from the
    server, stores the mode and touches nothing else of the state. *)
Lemma setMode_dragging_state now m c :
  isDragging c = true -> valid_mode m ->
  exists c',
    setMode now m true c = Done c' /\
    state c' = mkState m (stick (state c)) /\
    isDragging c' = true.
Proof.
  intros Hd Hv. unfold setMode.
  assert (E : negb (is_string m "automatic") && negb (is_string m "manual") = false).
  { destruct Hv as [-> | ->]; [reflexivity | apply andb_false_r]. }
  rewrite E. cbn [isDragging with_state with_modeSwitchChecked]. rewrite Hd.
  rewrite andb_false_r. cbn [andThen negb].
  eexists. split; [reflexivity|]. split; [reflexivity | exact Hd].
Qed.

Lemma onMessage_mode_dragging now message c :
  isDragging c = true ->
  is_string (get "type" message) "mode" = true ->
  valid_mode (get "mode" message) ->
  state (onMessage now (Parsed message) c)
  = mkState (get "mode" message) (stick (state c)).
Proof.
  intros Hd Ht Hv. unfold onMessage, dispatchMessage.
  assert (Hobj : exists props k, message = JObj props k).
  { destruct message as [| |x|k|s k|props k]; try discriminate; eauto. }
  destruct Hobj as (props & k & ->). cbv zeta.
  rewrite (is_string_other _ "mode" "state" Ht) by discriminate.
  rewrite Ht, (valid_mode_truthy _ Hv).
  destruct (setMode_dragging_state now _ c Hd Hv) as (c' & -> & E & _). exact E.
Qed.

Lemma onMessage_state_dragging now message v c :
  isDragging c = true ->
  is_string (get "type" message) "state" = true ->
  valid_mode (get "mode" message) ->
  truthy (get "stick" message) = true ->
  normalizeStick (get "stick" message) = Ok v ->
  state (onMessage now (Parsed message) c) = mkState (get "mode" message) v.
Proof.
  intros Hd Ht Hm Hs Hv. unfold onMessage, dispatchMessage.
  assert (Hobj : exists props k, message = JObj props k).
  { destruct message as [| |x|k|s k|props k]; try discriminate; eauto. }
  destruct Hobj as (props & k & ->). cbv zeta.
  rewrite Ht, (valid_mode_truthy _ Hm), Hs.
  destruct (setMode_dragging_state now _ c Hd Hm) as (c' & -> & E & Hd').
  cbn [andThen].
  destruct (applyStickData_dragging (get "stick" (JObj props k)) c' Hd') as (_ & _ & _ & H).
  rewrite (H v Hv). cbn [state with_state]. now rewrite E.
Qed.

(** C10 (amended): a message of the server that arrives while a drag is in
    progress leaves the thumb where it is (the rendered position) and the
    drag in progress; the local state is overwritten all the same.  A
    [state] message stores its mode and the normalized fields [x], [y],
    [mag], [deg] of its stick; a [mode] message stores its mode and keeps the
    stick; a [stick] message stores the normalized fields of its stick and
    keeps the mode. *)
Theorem server_message_during_drag_keeps_thumb :
  forall (now : Z) (data : Frame) (c : Client),
    isDragging c = true ->
    let c' := step now (SocketMessage data) c in
    thumb c' = thumb c /\
    isDragging c' = true /\
    (forall message v,
       data = Parsed message ->
       is_string (get "type" message) "state" = true ->
       valid_mode (get "mode" message) ->
       truthy (get "stick" message) = true ->
       normalizeStick (get "stick" message) = Ok v ->
       state c' = mkState (get "mode" message) v) /\
    (forall message,
       data = Parsed message ->
       is_string (get "type" message) "mode" = true ->
       valid_mode (get "mode" message) ->
       state c' = mkState (get "mode" message) (stick (state c))) /\
    (forall message v,
       data = Parsed message ->
       is_string (get "type" message) "stick" = true ->
       truthy (get "stick" message) = true ->
       normalizeStick (get "stick" message) = Ok v ->
       state c' = mkState (mode (state c)) v).
Proof.
  intros now data c Hd c'. subst c'. cbn [step].
  destruct (onMessage_dragging now data c Hd) as [Ht Hd'].
  split; [exact Ht|]. split; [exact Hd'|]. split; [|split].
  - intros message v -> Htype Hmode Hstick Hv. now apply onMessage_state_dragging.
  - intros message -> Htype Hmode. now apply onMessage_mode_dragging.
  - intros message v -> Htype Hstick Hv. now apply onMessage_stick_dragging.
Qed.

Lemma server_message_during_drag_keeps_thumb_witness :
  thumb (step 40 (SocketMessage (Parsed (serverStick zeroStick))) dragging_client)
  = thumb dragging_client /\
  state (step 40 (SocketMessage (Parsed (serverStick zeroStick))) dragging_client)
  = mkState (mode (state dragging_client)) zeroStick.
Proof.
  destruct (server_message_during_drag_keeps_thumb 40
              (Parsed (serverStick zeroStick)) dragging_client)
    as (Ht & _ & _ & _ & Hs).
  - exact (proj2 dragging_client_spec).
  - split; [exact Ht|].
    apply (Hs (serverStick zeroStick) zeroStick);
      [reflexivity | reflexivity | reflexivity | exact normalizeStick_zero].
Defined.

End Drag.

(** ** The downstream forwarder: the window of the breaker, and C7 *)

Section Forwarder.
Import Server.
Local Open Scope Z_scope.

Lemma count_app p l1 l2 : count p (l1 ++ l2) = (count p l1 + count p l2)%nat.
Proof. unfold count. now rewrite filter_app, length_app. Qed.

Lemma count_sends p payload cs :
  (forall c, p (Send c payload) = false) ->
  count p (map (fun c => Send c payload) cs) = 0%nat.
Proof.
  intros H. induction cs as [|c cs IH]; [reflexivity|].
  unfold count in *. cbn [map filter]. now rewrite H.
Qed.

Ltac count_tac :=
  rewrite ?count_app; unfold count; cbn; try lia.


Lemma wf_refl s : window_frame s s.
Proof. unfold window_frame. now repeat split. Qed.

Lemma wf_trans s1 s2 s3 : window_frame s1 s2 -> window_frame s2 s3 -> window_frame s1 s3.
Proof.
  unfold window_frame. intros (A1 & A2 & A3 & A4 & A5) (B1 & B2 & B3 & B4 & B5).
  split; [congruence|]. split; [congruence|]. split; [congruence|].
  split; [congruence|]. intros H. apply B5, A5, H.
Qed.

Lemma wf_emits es s : Forall quiet_effect es -> window_frame s (emits es s).
Proof.
  intros H. rewrite emits_eq. unfold window_frame, breaker, cooldown_tracked. cbn.
  assert (C : forall p, (forall e, quiet_effect e -> p e = false) ->
                        count p (log s ++ es) = count p (log s)).
  { intros p Hp. rewrite count_app. unfold count at 2.
    replace (filter p es) with (@nil Effect); [cbn; lia|].
    symmetry. induction H as [|e es He Hes IH]; [reflexivity|].
    cbn [filter]. now rewrite (Hp e He). }
  split; [reflexivity|]. split; [apply C; intros e He; apply He|].
  split; [apply C; intros e He; apply He|].
  split; [apply C; intros e He; apply He|]. trivial.
Qed.

Lemma wf_emit e s : quiet_effect e -> window_frame s (emit e s).
Proof. intros H. apply (wf_emits [e] s). now constructor. Qed.

Lemma wf_broadcast p ex s : window_frame s (broadcast p ex s).
Proof.
  rewrite broadcast_emits. apply wf_emits. apply Forall_forall.
  intros e Hin. apply in_map_iff in Hin as (c & <- & _). now repeat split.
Qed.

Ltac wf_fields :=
  unfold window_frame, breaker, cooldown_tracked, count; cbn;
  rewrite ?filter_app, ?length_app; cbn;
  repeat split; try reflexivity; try lia.

Lemma tracked_arm_dispatch (ts : list (nat * TimerKind)) n (r : option nat) :
  (forall id, In (id, CooldownTimer) ts -> r = Some id) ->
  forall id, In (id, CooldownTimer) (ts ++ [(n, DispatchTimer)]) -> r = Some id.
Proof.
  intros H id Hin. apply in_app_iff in Hin as [Hin|[E|[]]]; [now apply H | discriminate].
Qed.

Lemma tracked_cancel_any (ts : list (nat * TimerKind)) i (r : option nat) :
  (forall id, In (id, CooldownTimer) ts -> r = Some id) ->
  forall id, In (id, CooldownTimer) (cancel i ts) -> r = Some id.
Proof.
  intros H id Hin. unfold cancel in Hin. apply filter_In in Hin as [Hin _]. now apply H.
Qed.

(** While the breaker is open the scheduler issues no request. *)
Lemma wf_dispatch cfg now s :
  breakerOpen now s = true ->
  window_frame s (dispatch cfg now s).
Proof.
  unfold breakerOpen. intros Hopen. destruct s. cbn in Hopen.
  unfold dispatch. cbn. rewrite Hopen. wf_fields. trivial.
Qed.

Lemma wf_scheduleNodeRedPush cfg now s :
  breakerOpen now s = true ->
  window_frame s (scheduleNodeRedPush cfg now s).
Proof.
  intros Hopen. unfold scheduleNodeRedPush.
  destruct (negb (NODE_RED_ENABLED cfg)); [apply wf_refl|].
  destruct (_ >=? _); [now apply wf_dispatch|].
  destruct (nodeRedTimeout s) eqn:E; [apply wf_refl|].
  destruct s. unfold setTimeout. wf_fields. apply tracked_arm_dispatch.
Qed.

Lemma breakerOpen_with_state now st s :
  breakerOpen now (with_state st s) = breakerOpen now s.
Proof. reflexivity. Qed.

Lemma wf_updateState cfg now ns s :
  breakerOpen now s = true ->
  window_frame s (updateState cfg now ns s).
Proof.
  intros Hopen. unfold updateState.
  eapply wf_trans; [|apply wf_scheduleNodeRedPush; rewrite breakerOpen_with_state; exact Hopen].
  wf_fields. trivial.
Qed.

Lemma wf_onMessage cfg now data s :
  breakerOpen now s = true ->
  window_frame s (onMessage cfg now data s).
Proof.
  intros Hopen. unfold onMessage.
  destruct data as [|message]; [apply wf_emit; now repeat split|].
  destruct (_ || _); [apply wf_refl|].
  destruct (is_string (get "type" message) "setMode").
  - destruct (negb _); [apply wf_emit; now repeat split|].
    eapply wf_trans; [apply wf_updateState; exact Hopen | apply wf_broadcast].
  - destruct (is_string (get "type" message) "stick"); [|apply wf_emit; now repeat split].
    destruct (normalizeStickPayload message); [|apply wf_emit; now repeat split].
    eapply wf_trans; [apply wf_updateState; exact Hopen | apply wf_broadcast].
Qed.

Lemma wf_onConnection ws s : window_frame s (onConnection ws s).
Proof.
  unfold onConnection.
  destruct (existsb _ _); (eapply wf_trans; [|apply wf_emit; now repeat split]);
    wf_fields; trivial.
Qed.

Lemma heartbeatSweep_quiet cs : Forall quiet_effect (snd (heartbeatSweep cs)).
Proof.
  induction cs as [|c cs IH]; [constructor|]. cbn [heartbeatSweep].
  destruct (heartbeatSweep cs) as [kept done]. cbn [snd] in IH.
  destruct (negb (isAlive c)); cbn [snd]; constructor; try exact IH; now repeat split.
Qed.

Lemma wf_heartbeat s : window_frame s (heartbeat s).
Proof.
  unfold heartbeat. pose proof (heartbeatSweep_quiet (clients s)) as H.
  destruct (heartbeatSweep (clients s)) as [kept done]. cbn [snd] in H.
  eapply wf_trans; [|apply wf_emits; exact H]. wf_fields. trivial.
Qed.

(** A timer other than a cool-down timer, while the breaker is open. *)
Lemma wf_timerFired cfg now id s :
  breakerOpen now s = true ->
  armed id (timers s) <> Some CooldownTimer ->
  window_frame s (timerFired cfg now id s).
Proof.
  intros Hopen Hk. unfold timerFired.
  destruct (armed id (timers s)) as [[|]|]; [|congruence|apply wf_refl].
  eapply wf_trans; [|apply wf_dispatch; exact Hopen].
  wf_fields. apply tracked_cancel_any.
Qed.

Lemma cooldown_delay now cd :
  (if Z.max 0 (now + cd - now) =? 0 then cd else Z.max 0 (now + cd - now)) = cd.
Proof. destruct (Z.max 0 (now + cd - now) =? 0) eqn:E; lia. Qed.

Lemma armed_In {K} id (k : K) ts : armed id ts = Some k -> In (id, k) ts.
Proof.
  induction ts as [|[i k'] ts IH]; [discriminate|]. cbn [armed].
  destruct (Nat.eqb i id) eqn:E.
  - apply Nat.eqb_eq in E. intros H. injection H as <-. subst i. now left.
  - intros H. right. now apply IH.
Qed.

(** A refused request, in whatever state it finds the breaker: the window
    is moved to end a cool-down later; the warning is logged unless it has
    been, the cool-down timer is armed unless one is held. *)
Lemma settled_refused_any cfg t0 s :
  cooldown_tracked s ->
  let id := match nodeRedCooldownTimer s with Some i => i | None => fresh s end in
  let s1 := postToNodeRed_settled cfg t0 refused s in
  window_inv t0 (NODE_RED_RETRY_COOLDOWN_MS cfg) id s1 /\
  nodeRedNextAttemptAt s1 = t0 + NODE_RED_RETRY_COOLDOWN_MS cfg /\
  log s1
  = log s
    ++ (if nodeRedSuppressedWarningLogged s then [] else [ConsoleWarn NodeRedSuppressing])
    ++ match nodeRedCooldownTimer s with
       | Some _ => []
       | None => [SetTimeout (fresh s) CooldownTimer (NODE_RED_RETRY_COOLDOWN_MS cfg)]
       end.
Proof.
  intros Htr. destruct s as [st cl ld nt na ct fl ts fr lg].
  unfold postToNodeRed_settled, refused, str, setTimeout.
  unfold window_inv, cooldown_tracked in *. cbn in *.
  destruct fl, ct as [i|]; cbn; rewrite ?cooldown_delay; cbn;
    rewrite <- ?app_assoc, ?app_nil_r; cbn;
    repeat split; try reflexivity; try lia; try exact Htr;
    intros id Hin; apply in_app_iff in Hin as [Hin|[E|[]]];
    try (apply Htr in Hin; discriminate); now injection E as <-.
Qed.

(** A request that ends inside the window without a response. *)
Lemma settled_in_window cfg t0 id0 t o s :
  window_inv t0 (NODE_RED_RETRY_COOLDOWN_MS cfg) id0 s ->
  t0 <= t ->
  match o with Responded _ => False | _ => True end ->
  let s' := postToNodeRed_settled cfg t o s in
  window_inv t0 (NODE_RED_RETRY_COOLDOWN_MS cfg) id0 s' /\
  count isFetch (log s') = count isFetch (log s) /\
  count isSuppressWarning (log s') = count isSuppressWarning (log s) /\
  count isCooldownArming (log s') = count isCooldownArming (log s).
Proof.
  intros (Hflag & Hcd & Hnext & Htr) Ht Ho. destruct s. cbn in Hflag, Hcd, Hnext. subst.
  unfold postToNodeRed_settled, window_inv, cooldown_tracked, count in *.
  destruct o as [ok| |code]; [contradiction| |]; cbn in *.
  - rewrite !filter_app, !length_app. cbn. repeat split; try assumption; lia.
  - destruct (is_string code "ECONNREFUSED"); cbn.
    + repeat split; try assumption; lia.
    + rewrite !filter_app, !length_app. cbn. repeat split; try assumption; lia.
Qed.

Lemma window_inv_open t0 cd id0 t s :
  window_inv t0 cd id0 s -> 0 <= t0 -> t0 <= t < t0 + cd -> breakerOpen t s = true.
Proof.
  intros (_ & _ & Hnext & _) H0 Ht. unfold breakerOpen.
  apply andb_true_iff. split.
  - apply negb_true_iff, Z.eqb_neq. lia.
  - apply Z.ltb_lt. lia.
Qed.

Lemma window_inv_frame t0 cd id0 s s' :
  window_frame s s' -> window_inv t0 cd id0 s -> window_inv t0 cd id0 s'.
Proof.
  intros (Hb & _ & _ & _ & Htr) (Hflag & Hcd & Hnext & Ht).
  unfold breaker in Hb. injection Hb as E1 E2 E3.
  unfold window_inv. rewrite E1, E2, E3. auto.
Qed.

Lemma step_in_window cfg t0 id0 te s :
  window_inv t0 (NODE_RED_RETRY_COOLDOWN_MS cfg) id0 s ->
  0 <= t0 ->
  in_window t0 (NODE_RED_RETRY_COOLDOWN_MS cfg) id0 te ->
  let s' := step cfg (fst te) (snd te) s in
  window_inv t0 (NODE_RED_RETRY_COOLDOWN_MS cfg) id0 s' /\
  count isFetch (log s') = count isFetch (log s) /\
  count isSuppressWarning (log s') = count isSuppressWarning (log s) /\
  count isCooldownArming (log s') = count isCooldownArming (log s).
Proof.
  intros Hinv H0 [Ht He]. destruct te as [t e]. cbn [fst snd] in *.
  pose proof (window_inv_open _ _ _ t s Hinv H0 Ht) as Hopen.
  assert (Hframe : forall s', window_frame s s' ->
            window_inv t0 (NODE_RED_RETRY_COOLDOWN_MS cfg) id0 s' /\
            count isFetch (log s') = count isFetch (log s) /\
            count isSuppressWarning (log s') = count isSuppressWarning (log s) /\
            count isCooldownArming (log s') = count isCooldownArming (log s)).
  { intros s' Hf. split; [now apply (window_inv_frame _ _ _ s)|].
    destruct Hf as (_ & A & B & C & _). auto. }
  destruct e as [ws|ws data|ws|ws| |i|o]; cbn [step].
  - apply Hframe, wf_onConnection.
  - apply Hframe, wf_onMessage, Hopen.
  - apply Hframe. unfold onPong, window_frame, breaker, cooldown_tracked. cbn. now repeat split.
  - apply Hframe. unfold onClose, window_frame, breaker, cooldown_tracked. cbn. now repeat split.
  - apply Hframe, wf_heartbeat.
  - apply Hframe, wf_timerFired; [exact Hopen|].
    intros Harmed. apply armed_In in Harmed.
    destruct Hinv as (_ & Hcd & _ & Htr). apply Htr in Harmed. congruence.
  - apply settled_in_window; [exact Hinv | lia|]. destruct o; trivial.
Qed.

Lemma run_in_window cfg t0 id0 events : forall s,
  window_inv t0 (NODE_RED_RETRY_COOLDOWN_MS cfg) id0 s ->
  0 <= t0 ->
  Forall (in_window t0 (NODE_RED_RETRY_COOLDOWN_MS cfg) id0) events ->
  count isFetch (log (run cfg events s)) = count isFetch (log s) /\
  count isSuppressWarning (log (run cfg events s)) = count isSuppressWarning (log s) /\
  count isCooldownArming (log (run cfg events s)) = count isCooldownArming (log s).
Proof.
  induction events as [|te events IH]; intros s Hinv H0 Hall; [now repeat split|].
  inversion Hall as [|? ? Hte Hall']; subst.
  destruct (step_in_window cfg t0 id0 te s Hinv H0 Hte) as (Hinv' & A & B & C).
  unfold run in *. cbn [fold_left].
  destruct (IH _ Hinv' H0 Hall') as (A' & B' & C').
  rewrite A', B', C'. auto.
Qed.

Lemma run_window_inv cfg t0 id0 events : forall s,
  window_inv t0 (NODE_RED_RETRY_COOLDOWN_MS cfg) id0 s ->
  0 <= t0 ->
  Forall (in_window t0 (NODE_RED_RETRY_COOLDOWN_MS cfg) id0) events ->
  window_inv t0 (NODE_RED_RETRY_COOLDOWN_MS cfg) id0 (run cfg events s).
Proof.
  induction events as [|te events IH]; intros s Hinv H0 Hall; [exact Hinv|].
  inversion Hall as [|? ? Hte Hall']; subst.
  destruct (step_in_window cfg t0 id0 te s Hinv H0 Hte) as (Hinv' & _).
  unfold run in *. cbn [fold_left]. now apply IH.
Qed.

(** Inside the window nothing but the outcome of a request touches the
    variables of the breaker. *)
Lemma breaker_step_open cfg now e s :
  breakerOpen now s = true ->
  match e with
  | FetchSettled _ => False
  | TimerFired i => armed i (timers s) <> Some CooldownTimer
  | _ => True
  end ->
  breaker (step cfg now e s) = breaker s.
Proof.
  intros Hopen He.
  assert (Hf : forall s', window_frame s s' -> breaker s' = breaker s)
    by (intros s' (A & _); exact A).
  destruct e as [ws|ws data|ws|ws| |i|o]; cbn [step].
  - apply Hf, wf_onConnection.
  - apply Hf, wf_onMessage, Hopen.
  - reflexivity.
  - reflexivity.
  - apply Hf, wf_heartbeat.
  - apply Hf, wf_timerFired; [exact Hopen | exact He].
  - contradiction.
Qed.

Lemma next_step_calm cfg t0 id0 te s :
  window_inv t0 (NODE_RED_RETRY_COOLDOWN_MS cfg) id0 s ->
  0 <= t0 ->
  calm t0 (NODE_RED_RETRY_COOLDOWN_MS cfg) id0 te ->
  nodeRedNextAttemptAt (step cfg (fst te) (snd te) s) = nodeRedNextAttemptAt s.
Proof.
  intros Hinv H0 [[Ht He] Hc]. destruct te as [t e]. cbn [fst snd] in *.
  pose proof (window_inv_open _ _ _ t s Hinv H0 Ht) as Hopen.
  assert (Hb : breaker (step cfg t e s) = breaker s -> 
               nodeRedNextAttemptAt (step cfg t e s) = nodeRedNextAttemptAt s).
  { unfold breaker. intros E. now injection E as E _ _. }
  destruct e as [ws|ws data|ws|ws| |i|o];
    try (apply Hb, breaker_step_open; [exact Hopen | exact I]).
  - apply Hb, breaker_step_open; [exact Hopen|].
    intros Harmed. apply armed_In in Harmed.
    destruct Hinv as (_ & Hcd & _ & Htr). apply Htr in Harmed. congruence.
  - cbn [step]. unfold postToNodeRed_settled.
    destruct o as [ok| |code]; [contradiction | reflexivity|]. now rewrite Hc.
Qed.

Lemma next_run_calm cfg t0 id0 events : forall s,
  window_inv t0 (NODE_RED_RETRY_COOLDOWN_MS cfg) id0 s ->
  0 <= t0 ->
  Forall (calm t0 (NODE_RED_RETRY_COOLDOWN_MS cfg) id0) events ->
  nodeRedNextAttemptAt (run cfg events s) = nodeRedNextAttemptAt s.
Proof.
  induction events as [|te events IH]; intros s Hinv H0 Hall; [reflexivity|].
  inversion Hall as [|? ? Hte Hall']; subst.
  destruct (step_in_window cfg t0 id0 te s Hinv H0 (proj1 Hte)) as (Hinv' & _).
  unfold run in *. cbn [fold_left]. rewrite (IH _ Hinv' H0 Hall').
  exact (next_step_calm cfg t0 id0 te s Hinv H0 Hte).
Qed.

(** What the scheduler and a message do to the timers, whatever the breaker. *)
Lemma tracked_arms s s' : arms_dispatch_only s s' -> cooldown_tracked s -> cooldown_tracked s'.
Proof.
  intros [Hcd Ht] Htr. unfold cooldown_tracked. rewrite Hcd.
  destruct Ht as [-> | (id & ->)]; [exact Htr | now apply tracked_arm_dispatch].
Qed.

Lemma arms_scheduleNodeRedPush cfg now s :
  arms_dispatch_only s (scheduleNodeRedPush cfg now s).
Proof.
  destruct s. unfold arms_dispatch_only, scheduleNodeRedPush, dispatch, postToNodeRed, setTimeout.
  repeat first [progress cbn | break_if]; split; try reflexivity; try (now left);
    right; eexists; reflexivity.
Qed.

Lemma arms_onMessage cfg now data s : arms_dispatch_only s (onMessage cfg now data s).
Proof.
  assert (Hu : forall ns, arms_dispatch_only s (updateState cfg now ns s)).
  { intros ns. unfold updateState.
    destruct (arms_scheduleNodeRedPush cfg now
                (with_state (mkState (nullish_or (newMode ns) (mode (state s)))
                   match newStick ns with Some v => v | None => stick (state s) end now) s))
      as [A B]. split; [exact A | exact B]. }
  assert (Hb : forall p s', arms_dispatch_only s s' -> arms_dispatch_only s (broadcast p None s')).
  { intros p s' H. rewrite broadcast_emits, emits_eq. exact H. }
  unfold onMessage.
  destruct data as [|message]; [split; [reflexivity | now left]|].
  destruct (_ || _); [split; [reflexivity | now left]|].
  destruct (is_string (get "type" message) "setMode").
  - destruct (negb _); [split; [reflexivity | now left]|]. apply Hb, Hu.
  - destruct (is_string (get "type" message) "stick"); [|split; [reflexivity | now left]].
    destruct (normalizeStickPayload message); [|split; [reflexivity | now left]].
    apply Hb, Hu.
Qed.

Lemma tracked_settled cfg now o s :
  cooldown_tracked s -> cooldown_tracked (postToNodeRed_settled cfg now o s).
Proof.
  intros Htr. destruct s. unfold cooldown_tracked, postToNodeRed_settled, setTimeout, clearTimeout in *.
  cbn in *.
  destruct o as [ok| |code].
  - destruct ok; cbn; destruct nodeRedCooldownTimer0 as [id|]; cbn;
      intros i Hin; try (apply Htr in Hin; discriminate);
      apply in_cancel in Hin as [Hin Hne]; apply Htr in Hin; congruence.
  - exact Htr.
  - destruct (is_string code "ECONNREFUSED"); [|exact Htr].
    destruct nodeRedSuppressedWarningLogged0; cbn;
      destruct nodeRedCooldownTimer0 as [id|]; cbn; try exact Htr;
      intros i Hin; apply in_app_iff in Hin as [Hin|[E|[]]];
      try (apply Htr in Hin; discriminate); now injection E as <-.
Qed.

Lemma tracked_timerFired cfg now id s :
  cooldown_tracked s -> cooldown_tracked (timerFired cfg now id s).
Proof.
  intros Htr. unfold timerFired. destruct (armed id (timers s)) as [[|]|] eqn:Ha; [| |exact Htr].
  - destruct s. unfold cooldown_tracked, dispatch, postToNodeRed in *. cbn in *.
    repeat first [progress cbn | break_if]; now apply tracked_cancel_any.
  - apply (tracked_arms _ _ (arms_scheduleNodeRedPush cfg now _)).
    apply armed_In in Ha. pose proof (Htr id Ha) as Hid.
    unfold cooldown_tracked. cbn. intros i Hin.
    apply in_cancel in Hin as [Hin Hne]. apply Htr in Hin. congruence.
Qed.

Lemma tracked_step cfg now e s :
  cooldown_tracked s -> cooldown_tracked (step cfg now e s).
Proof.
  intros Htr. destruct e as [ws|ws data|ws|ws| |i|o]; cbn [step].
  - unfold onConnection. destruct (existsb _ _); exact Htr.
  - exact (tracked_arms _ _ (arms_onMessage cfg now data s) Htr).
  - exact Htr.
  - exact Htr.
  - unfold heartbeat. destruct (heartbeatSweep (clients s)). rewrite emits_eq. exact Htr.
  - now apply tracked_timerFired.
  - now apply tracked_settled.
Qed.

(** Every state the server reaches keeps its cool-down timers in
    [nodeRedCooldownTimer]. *)
Lemma tracked_reachable cfg t0 events : cooldown_tracked (run cfg events (boot cfg t0)).
Proof.
  assert (H : forall s, cooldown_tracked s -> cooldown_tracked (run cfg events s)).
  { induction events as [|[t e] events IH]; intros s Hs; [exact Hs|].
    unfold run in *. cbn [fold_left fst snd]. apply IH. now apply tracked_step. }
  apply H. apply (tracked_arms _ _ (arms_scheduleNodeRedPush cfg t0 (init t0))).
  intros id [].
Qed.

Lemma settled_responded cfg now ok s :
  breaker (postToNodeRed_settled cfg now (Responded ok) s) = (0, false, None).
Proof.
  destruct s. unfold postToNodeRed_settled, breaker, clearTimeout.
  destruct ok; cbn; destruct nodeRedCooldownTimer0; reflexivity.
Qed.

Lemma settled_other_keeps_closed cfg now o s :
  match o with
  | Failed code => is_string code "ECONNREFUSED" = false
  | _ => True
  end ->
  nodeRedNextAttemptAt (postToNodeRed_settled cfg now o s) = nodeRedNextAttemptAt s \/
  nodeRedNextAttemptAt (postToNodeRed_settled cfg now o s) = 0.
Proof.
  intros Ho. destruct o as [ok| |code].
  - right. pose proof (settled_responded cfg now ok s) as H. unfold breaker in H.
    now injection H as H _ _.
  - now left.
  - left. unfold postToNodeRed_settled. now rewrite Ho.
Qed.

(** While the breaker is open no event makes the server issue a request. *)
Lemma no_fetch_while_open cfg now e s :
  breakerOpen now s = true ->
  count isFetch (log (step cfg now e s)) = count isFetch (log s).
Proof.
  intros Hopen.
  assert (Hf : forall s', window_frame s s' -> count isFetch (log s') = count isFetch (log s)).
  { intros s' (_ & A & _). exact A. }
  destruct e as [ws|ws data|ws|ws| |i|o]; cbn [step].
  - apply Hf, wf_onConnection.
  - apply Hf, wf_onMessage, Hopen.
  - reflexivity.
  - reflexivity.
  - apply Hf, wf_heartbeat.
  - destruct (armed i (timers s)) as [[|]|] eqn:Ha.
    + apply Hf, wf_timerFired; [exact Hopen | congruence].
    + unfold timerFired. rewrite Ha.
      destruct (wf_scheduleNodeRedPush cfg now
                  (with_nodeRedCooldownTimer None (with_timers (cancel i (timers s)) s)) Hopen)
        as (_ & A & _). exact A.
    + apply Hf, wf_timerFired; [exact Hopen | congruence].
  - destruct s. unfold postToNodeRed_settled, setTimeout, clearTimeout, count.
    repeat first [progress cbn | break_if]; rewrite ?filter_app, ?length_app; cbn; lia.
Qed.

(** C7 on the server, at the point where it fails.  A [setMode] 10 ms after
    the post of start-up arms the deferred dispatch (timer 0, due at 1050).
    The next [setMode] is handled at 1055, before the loop has run that
    timer: [dispatch] posts at once and resets [nodeRedTimeout] without
    clearing the timer.  The timer then runs at 1056 and posts again, 1 ms
    after the previous post; and a mutation at 1060, had it come first, would
    have armed a second timer beside it. *)
Theorem stale_dispatch_timer_posts_twice :
  timers throttled_server = [(0%nat, DispatchTimer)] /\
  nodeRedTimeout throttled_server = Some 0%nat /\
  (let s2 := step defaultConfig 1055
               (Message 1 (Parsed (setModeMessage "automatic"))) throttled_server in
   log s2 = log throttled_server
            ++ [Fetch (mkState (str "automatic") zeroStick 1055);
                Send 1 (MsgMode (str "automatic") 1055)] /\
   lastNodeRedDispatch s2 = 1055 /\
   nodeRedTimeout s2 = None /\
   timers s2 = [(0%nat, DispatchTimer)] /\
   log (step defaultConfig 1056 (TimerFired 0) s2)
   = log s2 ++ [Fetch (mkState (str "automatic") zeroStick 1055)] /\
   timers (step defaultConfig 1060 (Message 1 (Parsed (setModeMessage "manual"))) s2)
   = [(0%nat, DispatchTimer); (1%nat, DispatchTimer)]).
Proof. vm_compute. repeat split; reflexivity. Qed.

End Forwarder.

(** ** The same throttle in the client *)

Section ClientThrottle.
Import Client.
Local Open Scope Z_scope.

Lemma sendStickPayload_open now c :
  socket c = Some OPEN ->
  sendStickPayload now c
  = emit (SocketSend (StickMsg (x (stick (state c))) (y (stick (state c)))
                               (mag (stick (state c))) (deg (stick (state c))) now))
         (with_pendingStickTimeout None (with_lastStickSend now c)).
Proof.
  intros Hs. unfold sendStickPayload. rewrite Hs. cbv zeta. unfold sendMessage.
  change (socket (with_pendingStickTimeout None (with_lastStickSend now c)))
    with (socket c).
  rewrite Hs. reflexivity.
Qed.

(** [queueStickSend] called at or after the end of the window while the
    deferred send [id] has not run yet: the stick is sent at once, the
    variable [pendingStickTimeout] is reset and the timer stays armed; when
    it runs, whenever that is, the stick is sent again. *)
Lemma stale_stick_timer_sends_twice :
  forall (now now' : Z) (created : bool) (id : nat) (c : Client),
    socket c = Some OPEN ->
    armed id (timers c) = Some StickTimer ->
    UI_THROTTLE_MS <= now - lastStickSend c ->
    let c1 := queueStickSend now c in
    log c1 = log c ++ [SocketSend (StickMsg (x (stick (state c))) (y (stick (state c)))
                                            (mag (stick (state c))) (deg (stick (state c))) now)] /\
    pendingStickTimeout c1 = None /\
    timers c1 = timers c /\
    log (step now' (TimerFired id created) c1)
    = log c1 ++ [SocketSend (StickMsg (x (stick (state c))) (y (stick (state c)))
                                      (mag (stick (state c))) (deg (stick (state c))) now')].
Proof.
  intros now now' created id c Hs Ha Ht c1.
  assert (E : (now - lastStickSend c >=? UI_THROTTLE_MS) = true) by (apply Z.geb_le; lia).
  assert (E1 : c1 = sendStickPayload now c) by (unfold c1, queueStickSend; now rewrite E).
  rewrite (sendStickPayload_open now c Hs) in E1.
  clearbody c1. subst c1.
  split; [reflexivity|]. split; [reflexivity|]. split; [reflexivity|].
  cbn [step]. unfold timerFired.
  cbn [timers emit with_pendingStickTimeout with_lastStickSend].
  rewrite Ha. cbv zeta.
  rewrite sendStickPayload_open by exact Hs.
  reflexivity.
Qed.

(** Such a state: the socket is open, the last send was at 1000 and the
    deferred send armed at 1010 is still waiting at 1034. *)
Example stale_stick_timer_state :
  let c := with_timers [(0%nat, StickTimer)]
             (with_pendingStickTimeout (Some 0%nat)
                (with_lastStickSend 1000 (with_socket (Some OPEN) (init page0)))) in
  socket c = Some OPEN /\
  armed 0 (timers c) = Some StickTimer /\
  UI_THROTTLE_MS <= 1034 - lastStickSend c.
Proof. cbn. repeat split; try reflexivity. unfold UI_THROTTLE_MS. lia. Qed.

End ClientThrottle.

(* ================================================================= *)
(** * Further properties of the code *)

Section Wire.
Local Open Scope R_scope.



Lemma In_map_Send p (l : list nat) e :
  In e (map (fun c => Server.Send c p) l) -> exists c', e = Server.Send c' p.
Proof. intros H. apply in_map_iff in H. destruct H as (c' & <- & _). now exists c'. Qed.

Lemma log_broadcast p ex s :
  Server.log (Server.broadcast p ex s)
  = Server.log s ++ map (fun c => Server.Send c p) (Server.recipients ex (Server.clients s)).
Proof. rewrite broadcast_emits, emits_eq. reflexivity. Qed.



(** *** Sticks that have been through a normalizer *)

Lemma Rmax_Rmin_inside lo hi r : lo <= r <= hi -> Rmax lo (Rmin hi r) = r.
Proof.
  intros [L U]. unfold Rmax, Rmin.
  destruct (Rle_dec hi r); destruct (Rle_dec lo _); lra.
Qed.

Lemma normalizeDegrees_inside d : 0 <= d < 360 -> Client.normalizeDegrees (Fin d) = Fin d.
Proof.
  intros H. unfold Client.normalizeDegrees. rewrite rem_small by exact H. cbn [add].
  rewrite rem_once by lra. f_equal. lra.
Qed.

Lemma valid_stick_fin v :
  valid_stick v ->
  exists a b m d, v = mkStick (Fin a) (Fin b) (Fin m) (Fin d) /\
                  -1 <= a <= 1 /\ -1 <= b <= 1 /\ 0 <= m <= 1 /\ 0 <= d < 360.
Proof.
  destruct v as [[a| | |] [b| | |] [m| | |] [d| | |]]; unfold valid_stick; cbn; try tauto.
  intros (Ha & Hb & Hm & Hd). exists a, b, m, d. tauto.
Qed.

Lemma rewrap_valid v : valid_stick v -> rewrap v = v.
Proof.
  intros Hv. destruct (valid_stick_fin v Hv) as (a & b & m & d & -> & _ & _ & _ & Hd).
  unfold rewrap. cbn [x y mag deg]. f_equal.
  exact (normalizeDegrees_inside d Hd).
Qed.

Lemma server_fixed q v :
  valid_stick v -> carries q v -> Server.normalizeStickPayload q = Ok v.
Proof.
  intros Hv (Ex & Ey & Em & Ed).
  destruct (valid_stick_fin v Hv) as (a & b & m & d & -> & Ha & Hb & Hm & Hd).
  cbn [x y mag deg] in *.
  unfold Server.normalizeStickPayload, Server.sanitizeNumber.
  rewrite Ex, Ey, Em, Ed.
  cbn [Number bind isFinite negb Number_isFinite Math_min Math_max].
  rewrite !Rmax_Rmin_inside by lra.
  pose proof (normalizeDegrees_inside d Hd) as E. unfold Client.normalizeDegrees in E.
  rewrite E. reflexivity.
Qed.

Lemma client_fixed q v :
  valid_stick v -> carries q v -> Client.normalizeStick q = Ok v.
Proof.
  intros Hv (Ex & Ey & Em & Ed).
  destruct (valid_stick_fin v Hv) as (a & b & m & d & -> & Ha & Hb & Hm & Hd).
  cbn [x y mag deg] in *.
  unfold Client.normalizeStick. rewrite Ex, Ey, Em, Ed.
  cbn [Number bind isFinite negb].
  assert (Hor : forall r, num_or (Fin r) (Fin 0) = Fin r).
  { intros r. destruct (Req_dec_T r 0) as [->|Hr];
      [apply num_or_zero | now apply num_or_nonzero]. }
  rewrite !Hor, !clamp_inside by lra.
  rewrite normalizeDegrees_inside by exact Hd. reflexivity.
Qed.

Lemma carries_stick_value v : carries (stick_value v) v.
Proof. repeat split. Qed.

Lemma carries_wire_stick v : valid_stick v -> carries (wire_stick v) v.
Proof.
  intros Hv. destruct (valid_stick_fin v Hv) as (a & b & m & d & -> & _).
  repeat split.
Qed.

(** X2.  Normalizing twice: of a stick the normalizer of the server has
    returned, the normalizer of the server and the normalizer of the client
    both keep [x], [y] and [mag] as they are and wrap [deg] once more. *)
Theorem renormalizing_only_rewraps_deg :
  forall (payload : jsval) (v : StickVector),
    Server.normalizeStickPayload payload = Ok v ->
    Server.normalizeStickPayload (stick_value v) = Ok (rewrap v) /\
    Client.normalizeStick (stick_value v) = Ok (rewrap v).
Proof.
  intros payload v H. apply normalizeStickPayload_valid in H.
  rewrite (rewrap_valid v H).
  split; [apply server_fixed | apply client_fixed];
    auto using carries_stick_value.
Qed.

Lemma renormalizing_only_rewraps_deg_witness :
  Server.normalizeStickPayload (stick_value (mkStick (Fin 1) (Fin (-1)) (Fin 1) (Fin 315)))
  = Ok (rewrap (mkStick (Fin 1) (Fin (-1)) (Fin 1) (Fin 315))) /\
  Client.normalizeStick (stick_value (mkStick (Fin 1) (Fin (-1)) (Fin 1) (Fin 315)))
  = Ok (rewrap (mkStick (Fin 1) (Fin (-1)) (Fin 1) (Fin 315))).
Proof.
  apply (renormalizing_only_rewraps_deg payload_2_m2). exact eval_server_2_m2.
Defined.

(** *** The normalizer of the client *)

Lemma clamp_between n lo hi :
  lo <= hi -> n <> NaN -> between lo hi (Client.clamp n (Fin lo) (Fin hi)).
Proof.
  intros Hle Hn. destruct n as [r| | |]; [| congruence | |]; cbn.
  - unfold Rmin, Rmax. destruct (Rle_dec r lo); destruct (Rle_dec _ hi); lra.
  - lra.
  - unfold Rmin. destruct (Rle_dec lo hi); lra.
Qed.

Lemma num_or_not_NaN n : num_or n (Fin 0) <> NaN.
Proof.
  unfold num_or. destruct n as [r| | |]; cbn; try discriminate.
  destruct (negb (Reqb r 0)); discriminate.
Qed.

Lemma calculateJoystickDegrees_range a b :
  exists r, Client.calculateJoystickDegrees (Fin a) (Fin b) = Fin r /\ 0 <= r < 360.
Proof.
  unfold Client.calculateJoystickDegrees.
  destruct (lt (Math_abs (Fin a)) Number_EPSILON && lt (Math_abs (Fin b)) Number_EPSILON).
  - exists 0. split; [reflexivity | lra].
  - rewrite div_180_PI. cbn [Math_atan2 mul sub neg add]. apply normalizeDegrees_range.
Qed.

(** Whatever its argument, the stick [applyStickData] stores is in range. *)
Lemma normalizeStick_valid raw v : Client.normalizeStick raw = Ok v -> valid_stick v.
Proof.
  unfold Client.normalizeStick.
  destruct (Number (get "x" raw)) as [nx|]; [|discriminate].
  destruct (Number (get "y" raw)) as [ny|]; [|discriminate].
  destruct (Number (get "mag" raw)) as [nm|]; [|discriminate].
  destruct (Number (get "deg" raw)) as [nd|]; [|discriminate].
  cbn [bind].
  pose proof (clamp_between (num_or nx (Fin 0)) (-1) 1 ltac:(lra) (num_or_not_NaN nx)) as Bx.
  pose proof (clamp_between (num_or ny (Fin 0)) (-1) 1 ltac:(lra) (num_or_not_NaN ny)) as By.
  destruct (between_fin _ _ _ Bx) as (a & Ea & Ha).
  destruct (between_fin _ _ _ By) as (b & Eb & Hb).
  rewrite Ea, Eb. intros E. injection E as <-.
  unfold valid_stick; cbn [x y mag deg].
  split; [exact Ha|]. split; [exact Hb|]. split.
  - apply clamp_between; [lra|]. destruct nm; cbn; discriminate.
  - destruct nd as [d| | |]; cbn [isFinite negb].
    + destruct (normalizeDegrees_range d) as (r & -> & Hr). exact Hr.
    + destruct (calculateJoystickDegrees_range a b) as (r & -> & Hr). exact Hr.
    + destruct (calculateJoystickDegrees_range a b) as (r & -> & Hr). exact Hr.
    + destruct (calculateJoystickDegrees_range a b) as (r & -> & Hr). exact Hr.
Qed.

End Wire.

Section ClientState.
Import Client.

Lemma sound_same c c' :
  state c' = state c -> log c' = log c -> sound c -> sound c'.
Proof. unfold sound, valid_client. intros -> ->. tauto. Qed.

Lemma sound_emit e c :
  match e with SocketSend payload => valid_sent payload | _ => True end ->
  sound c -> sound (emit e c).
Proof.
  intros He [Hv Hs]. split; [exact Hv|].
  intros payload H. cbn [log emit] in H. apply in_app_or in H.
  destruct H as [H|[E|[]]]; [now apply Hs | subst e; exact He].
Qed.

Lemma sound_sendMessage payload c :
  valid_sent payload -> sound c -> sound (sendMessage payload c).
Proof.
  intros Hp Hc. unfold sendMessage.
  destruct (socket c) as [[| | |]|]; try exact Hc. now apply sound_emit.
Qed.

Lemma sound_setThumbPosition a b c : sound c -> sound (setThumbPosition a b c).
Proof. now apply sound_same. Qed.

Lemma sound_applyStickData raw fs c : sound c -> sound (final (applyStickData raw fs c)).
Proof.
  intros Hc. unfold applyStickData.
  destruct (normalizeStick raw) as [v|] eqn:E; [|exact Hc].
  apply normalizeStick_valid in E.
  assert (H : sound (with_state (mkState (mode (state c)) v) c)).
  { destruct Hc as [[_ Hm] Hs]. split; [split; [exact E | exact Hm] | exact Hs]. }
  destruct (negb (isDragging (with_state (mkState (mode (state c)) v) c)) || negb fs);
    cbn [final]; [now apply sound_setThumbPosition | exact H].
Qed.

Lemma sound_sendStickPayload now c : sound c -> sound (sendStickPayload now c).
Proof.
  intros Hc. unfold sendStickPayload.
  destruct (socket c) as [[| | |]|]; try exact Hc.
  apply sound_sendMessage.
  - destruct Hc as [[Hv _] _]. cbn [with_pendingStickTimeout with_lastStickSend state valid_sent].
    destruct (stick (state c)); exact Hv.
  - revert Hc. now apply sound_same.
Qed.

Lemma sound_queueStickSend now c : sound c -> sound (queueStickSend now c).
Proof.
  intros Hc. unfold queueStickSend.
  destruct (now - lastStickSend c >=? UI_THROTTLE_MS)%Z; [now apply sound_sendStickPayload|].
  destruct (pendingStickTimeout c); [exact Hc|].
  cbv zeta.
  refine (sound_same _ _ _ _ (sound_emit (SetStickTimeout (fresh c) _) c I Hc)); reflexivity.
Qed.

Lemma sound_andThen o k :
  sound (final o) -> (forall c', sound c' -> sound (final (k c'))) ->
  sound (final (andThen o k)).
Proof. destruct o; cbn [andThen final]; auto. Qed.

Lemma sound_settle o : sound (final o) -> sound (settle o).
Proof. destruct o; cbn [settle final]; [tauto|]. now apply sound_emit. Qed.

Lemma sound_resetStick now c : sound c -> sound (final (resetStick now c)).
Proof.
  intros Hc. unfold resetStick. apply sound_andThen.
  - now apply sound_applyStickData.
  - intros c' Hc'. cbn [final]. now apply sound_queueStickSend.
Qed.

Lemma sound_setMode now m fs c : sound c -> sound (final (setMode now m fs c)).
Proof.
  intros Hc. unfold setMode.
  destruct (negb (is_string m "automatic") && negb (is_string m "manual")) eqn:E; [exact Hc|].
  assert (Hm : valid_mode m).
  { unfold valid_mode. destruct (is_string m "automatic"); [now left|].
    destruct (is_string m "manual"); [now right | discriminate]. }
  set (c1 := with_modeSwitchChecked _ _).
  assert (H1 : sound c1).
  { destruct Hc as [[Hv _] Hs]. split; [split; [exact Hv | exact Hm] | exact Hs]. }
  assert (M1 : mode (state c1) = m) by reflexivity.
  clearbody c1. apply sound_andThen.
  - destruct (negb (is_string (mode (state c1)) "manual") && negb (isDragging c1));
      [now apply sound_applyStickData | exact H1].
  - intros c' Hc'. destruct (negb fs); cbn [final]; [|exact Hc'].
    apply sound_sendMessage; [|exact Hc']. exact (proj2 (proj1 Hc')).
Qed.

Lemma sound_handlePointerEvent now ev c :
  sound c -> sound (final (handlePointerEvent now ev c)).
Proof.
  intros Hc. unfold handlePointerEvent.
  destruct (negb (is_string (mode (state c)) "manual")); [exact Hc|].
  cbv zeta. apply sound_andThen.
  - now apply sound_applyStickData.
  - intros c' Hc'. cbn [final]. now apply sound_queueStickSend.
Qed.

Lemma sound_scheduleReconnect c : sound c -> sound (scheduleReconnect c).
Proof.
  intros Hc. unfold scheduleReconnect. cbv zeta.
  set (c0 := clearTimeout (reconnectTimer c) c).
  assert (H0 : sound c0).
  { revert Hc. apply sound_same; unfold c0, clearTimeout; now destruct (reconnectTimer c). }
  clearbody c0.
  refine (sound_same _ _ _ _
            (sound_emit (SetReconnectTimeout (fresh c0) (reconnectDelay c0)) c0 I H0));
    reflexivity.
Qed.

Lemma sound_connectSocket created c : sound c -> sound (connectSocket created c).
Proof.
  intros Hc. unfold connectSocket. cbv zeta.
  set (c0 := clearTimeout (reconnectTimer c) c).
  assert (H0 : sound c0).
  { revert Hc. apply sound_same; unfold c0, clearTimeout; now destruct (reconnectTimer c). }
  clearbody c0. unfold setStatus. destruct created.
  - refine (sound_same _ _ _ _ (sound_emit NewWebSocket _ I (sound_emit (SetStatus Connecting) c0 I H0)));
      reflexivity.
  - apply sound_scheduleReconnect. now repeat apply sound_emit.
Qed.

Lemma sound_onOpen now c : sound c -> sound (final (onOpen now c)).
Proof.
  intros Hc. unfold onOpen. cbv zeta.
  set (c1 := with_reconnectDelay _ _).
  assert (H1 : sound c1).
  { refine (sound_same _ _ _ _ (sound_emit (SetStatus Connected) c I Hc)); reflexivity. }
  clearbody c1. apply sound_andThen.
  - destruct (is_string (mode (state c1)) "manual"); cbn [final];
      [now apply sound_queueStickSend | now apply sound_resetStick].
  - intros c' Hc'. cbn [final]. apply sound_sendMessage; [|exact Hc']. exact (proj2 (proj1 Hc')).
Qed.

Lemma sound_dispatchMessage now message c :
  sound c -> sound (final (dispatchMessage now message c)).
Proof.
  intros Hc.
  assert (A : forall raw c', sound c' ->
            sound (final (if truthy raw then applyStickData raw true c' else Done c'))).
  { intros raw c' H. destruct (truthy raw); [now apply sound_applyStickData | exact H]. }
  assert (B : forall m c', sound c' ->
            sound (final (if truthy m then setMode now m true c' else Done c'))).
  { intros m c' H. destruct (truthy m); [now apply sound_setMode | exact H]. }
  unfold dispatchMessage.
  destruct message; try exact Hc;
    (destruct (is_string _ "state"); [apply sound_andThen; [now apply B | intros; now apply A]|];
     destruct (is_string _ "mode"); [now apply B|];
     destruct (is_string _ "stick"); [now apply A|];
     cbn [final]; now apply sound_emit).
Qed.

Lemma sound_onMessage now data c : sound c -> sound (onMessage now data c).
Proof.
  intros Hc. unfold onMessage. destruct data as [|message]; [now apply sound_emit|].
  pose proof (sound_dispatchMessage now message c Hc) as H.
  destruct (dispatchMessage now message c); cbn [final] in H; [exact H | now apply sound_emit].
Qed.

Lemma sound_timerFired now created id c : sound c -> sound (timerFired now created id c).
Proof.
  intros Hc. unfold timerFired. destruct (armed id (timers c)) as [[|]|]; [| |exact Hc].
  - apply sound_sendStickPayload. revert Hc. now apply sound_same.
  - apply sound_connectSocket. revert Hc. now apply sound_same.
Qed.

Lemma sound_step now e c : sound c -> sound (step now e c).
Proof.
  intros Hc. destruct e; cbn [step].
  - apply sound_settle, sound_onOpen, Hc.
  - apply sound_onMessage, Hc.
  - unfold onClose, setStatus. apply sound_scheduleReconnect, sound_emit; [exact I|].
    revert Hc. now apply sound_same.
  - unfold onError, setStatus. now repeat apply sound_emit.
  - apply sound_timerFired, Hc.
  - apply sound_settle. unfold onModeSwitchChange. cbv zeta. apply sound_andThen.
    + apply sound_setMode. revert Hc. now apply sound_same.
    + intros c' Hc'. destruct (String.eqb _ _); [now apply sound_resetStick | exact Hc'].
  - apply sound_settle. unfold onPointerDown.
    destruct (negb (is_string (mode (state c)) "manual")); [exact Hc|].
    apply sound_handlePointerEvent. revert Hc. now apply sound_same.
  - apply sound_settle. unfold onPointerMove.
    destruct (negb (isDragging c) || _); [exact Hc | now apply sound_handlePointerEvent].
  - apply sound_settle. unfold endPointer.
    destruct (negb _); [exact Hc|]. apply sound_resetStick. revert Hc. now apply sound_same.
  - apply sound_settle. unfold onLostPointerCapture.
    destruct (isDragging c); [|exact Hc]. apply sound_resetStick. revert Hc. now apply sound_same.
  - unfold onResize. cbv zeta. apply sound_setThumbPosition. revert Hc. now apply sound_same.
Qed.

Lemma sound_run events : forall c, sound c -> sound (run events c).
Proof.
  induction events as [|[t e] rest IH]; intros c Hc; [exact Hc|].
  apply IH, sound_step, Hc.
Qed.

Lemma sound_start now created page : sound (start now created page).
Proof.
  unfold start. apply sound_connectSocket, sound_settle, sound_setMode.
  split; [split; [exact valid_stick_zero | now left]|].
  intros payload [].
Qed.

(** X3.  In every state the client reaches from the loading of the page,
    whatever the events, the local state is within the ranges of the data
    model, and so is every message the client has handed to its socket. *)
Theorem client_state_always_valid :
  forall (events : list (Z * Event)) (now : Z) (created : bool) (page : Layout),
    let c := run events (start now created page) in
    valid_stick (stick (state c)) /\
    valid_mode (mode (state c)) /\
    (forall payload, In (SocketSend payload) (log c) -> valid_sent payload).
Proof.
  intros events now created page c.
  destruct (sound_run events _ (sound_start now created page)) as [[Hv Hm] Hs].
  auto.
Qed.

End ClientState.

Section RoundTrip.
Local Open Scope Z_scope.

Lemma valid_mode_validateMode m : valid_mode m -> Server.validateMode m = true.
Proof.
  unfold valid_mode, Server.validateMode. intros [-> | ->]; [reflexivity | apply orb_true_r].
Qed.

Lemma carries_fromClient a b m d t :
  valid_stick (mkStick a b m d) ->
  carries (fromClient (Client.StickMsg a b m d t)) (mkStick a b m d).
Proof.
  intros Hv. destruct (valid_stick_fin _ Hv) as (a' & b' & m' & d' & E & _).
  injection E as -> -> -> ->. repeat split.
Qed.

Lemma server_stores_valid payload cfg t ws s :
  valid_sent payload ->
  Server.state (Server.step cfg t (Server.Message ws (Server.Parsed (fromClient payload))) s)
  = match payload with
    | Client.SetModeMsg m _ => Server.mkState m (Server.stick (Server.state s)) t
    | Client.StickMsg a b m d _ =>
        Server.mkState (Server.mode (Server.state s)) (mkStick a b m d) t
    end.
Proof.
  intros Hp. destruct payload as [m ts|a b m d ts]; cbn [valid_sent] in Hp.
  - cbn [Server.step]. unfold fromClient, obj.
    apply (state_onMessage_setMode cfg t s); [reflexivity|].
    now apply valid_mode_validateMode.
  - cbn [Server.step].
    pose proof (server_fixed _ _ Hp (carries_fromClient a b m d ts Hp)) as E.
    unfold fromClient, obj in *.
    apply (state_onMessage_stick cfg t s); [reflexivity | reflexivity | exact E].
Qed.

(** X4.  What the client sends, the server stores: for every message the
    client has handed to its socket in a run from the loading of the page, the
    server that receives it takes over its mode, resp. the [x], [y] and
    [mag] of its stick as they are and its [deg] wrapped once more. *)
Theorem server_stores_what_client_sends :
  forall (events : list (Z * Client.Event)) (now : Z) (created : bool) (page : Client.Layout)
         (payload : Client.ClientMessage)
         (cfg : Server.Config) (t : Z) (ws : nat) (s : Server.Server),
    In (Client.SocketSend payload)
       (Client.log (Client.run events (Client.start now created page))) ->
    Server.state (Server.step cfg t (Server.Message ws (Server.Parsed (fromClient payload))) s)
    = match payload with
      | Client.SetModeMsg m _ => Server.mkState m (Server.stick (Server.state s)) t
      | Client.StickMsg a b m d _ =>
          Server.mkState (Server.mode (Server.state s)) (rewrap (mkStick a b m d)) t
      end.
Proof.
  intros events now created page payload cfg t ws s H.
  assert (Hp : valid_sent payload)
    by exact (proj2 (sound_run events _ (sound_start now created page)) payload H).
  rewrite (server_stores_valid payload cfg t ws s Hp).
  destruct payload as [m ts|a b m d ts]; [reflexivity|].
  cbn [valid_sent] in Hp. now rewrite (rewrap_valid _ Hp).
Qed.

Lemma server_stores_what_client_sends_witness :
  Server.state
    (Server.step Server.defaultConfig 1001
       (Server.Message 1 (Server.Parsed (fromClient (Client.SetModeMsg (str "automatic") 1000))))
       (Server.boot Server.defaultConfig 990))
  = Server.mkState (str "automatic")
      (Server.stick (Server.state (Server.boot Server.defaultConfig 990))) 1001.
Proof.
  apply (server_stores_what_client_sends [(1000, Client.SocketOpen)] 0 true page0
           (Client.SetModeMsg (str "automatic") 1000)).
  vm_compute. do 4 right. left. reflexivity.
Defined.

(** *** What the server sends *)

Lemma nosend_nil : nosend [].
Proof. intros ws p []. Qed.

Lemma nosend_one e :
  match e with Server.Send _ _ => False | _ => True end -> nosend [e].
Proof. intros He ws p [E|[]]. subst e. exact He. Qed.

Lemma internal_nil : internal [].
Proof. intros e []. Qed.

Lemma internal_one e : addressee e = None -> internal [e].
Proof. intros He e' [<-|[]]. exact He. Qed.

Lemma internal_app l1 l2 : internal l1 -> internal l2 -> internal (l1 ++ l2).
Proof. intros H1 H2 e H. apply in_app_or in H. destruct H; [now apply H1 | now apply H2]. Qed.

Lemma internal_nosend l : internal l -> nosend l.
Proof. intros H ws p Hin. apply H in Hin. discriminate. Qed.

Lemma internal_scheduleNodeRedPush cfg now s :
  exists l, Server.log (Server.scheduleNodeRedPush cfg now s) = Server.log s ++ l /\ internal l.
Proof.
  destruct (log_scheduleNodeRedPush cfg now s) as (l & E & Hl).
  exists l. split; [exact E|].
  destruct Hl as [->|[->|(id & delay & ->)]];
    [apply internal_nil | now apply internal_one | now apply internal_one].
Qed.

Lemma internal_dispatch cfg now s :
  exists l, Server.log (Server.dispatch cfg now s) = Server.log s ++ l /\ internal l.
Proof.
  unfold Server.dispatch, Server.postToNodeRed. cbv zeta.
  repeat match goal with
         | |- context [if ?b then _ else _] => destruct b
         end;
    first [ exists []; split; [symmetry; apply app_nil_r | apply internal_nil]
          | eexists; split; [reflexivity | now apply internal_one] ].
Qed.

Lemma internal_timerFired cfg now id s :
  exists l, Server.log (Server.timerFired cfg now id s) = Server.log s ++ l /\ internal l.
Proof.
  unfold Server.timerFired. destruct (armed id (Server.timers s)) as [[|]|].
  - apply (internal_dispatch cfg now (Server.with_timers _ s)).
  - apply (internal_scheduleNodeRedPush cfg now
             (Server.with_nodeRedCooldownTimer None (Server.with_timers _ s))).
  - exists []. split; [symmetry; apply app_nil_r | apply internal_nil].
Qed.

Lemma internal_settled cfg now o s :
  exists l, Server.log (Server.postToNodeRed_settled cfg now o s) = Server.log s ++ l /\ internal l.
Proof.
  unfold Server.postToNodeRed_settled, Server.setTimeout, Server.clearTimeout.
  destruct o as [[|]| |code]; cbv zeta; cbn [negb];
    repeat match goal with
           | |- context [if ?b then _ else _] => destruct b
           | |- context [match Server.nodeRedCooldownTimer ?t with _ => _ end] =>
               destruct (Server.nodeRedCooldownTimer t) eqn:?
           end;
    cbn [Server.log Server.emit Server.with_nodeRedNextAttemptAt
           Server.with_nodeRedSuppressedWarningLogged Server.with_nodeRedCooldownTimer
           Server.with_timers Server.with_fresh];
    first [ exists []; split; [symmetry; apply app_nil_r | apply internal_nil]
          | eexists; split; [reflexivity | now apply internal_one]
          | eexists; split; [rewrite <- app_assoc; reflexivity
                            | apply internal_app; now apply internal_one] ].
Qed.

Lemma nosend_sweep cs : nosend (snd (Server.heartbeatSweep cs)).
Proof.
  induction cs as [|k rest IH]; [apply nosend_nil|].
  cbn [Server.heartbeatSweep]. destruct (Server.heartbeatSweep rest) as [kept done].
  cbn [snd] in IH. destruct (negb (Server.isAlive k)); cbn [snd];
    intros ws p [H|H]; try discriminate; now apply (IH ws p).
Qed.

Lemma sound_server_grow s s' l :
  Server.state s' = Server.state s -> Server.log s' = Server.log s ++ l -> nosend l ->
  sound_server s -> sound_server s'.
Proof.
  intros Es El Hl [Hv Hs]. split; [now rewrite Es|].
  intros ws p H. rewrite El in H. apply in_app_or in H.
  destruct H as [H|H]; [now apply (Hs ws) | now apply Hl in H].
Qed.

Lemma sound_server_broadcast p ex s :
  valid_broadcast p -> sound_server s -> sound_server (Server.broadcast p ex s).
Proof.
  intros Hp [Hv Hs]. split.
  - rewrite broadcast_emits, emits_eq. exact Hv.
  - intros ws q H. rewrite log_broadcast in H. apply in_app_or in H.
    destruct H as [H|H]; [now apply (Hs ws)|].
    apply In_map_Send in H. destruct H as (c' & H). injection H as _ ->. exact Hp.
Qed.

Lemma sound_server_updateState cfg now ns s :
  valid_state (Server.state (Server.updateState cfg now ns s)) ->
  sound_server s -> sound_server (Server.updateState cfg now ns s).
Proof.
  intros Hv [_ Hs]. split; [exact Hv|].
  destruct (log_updateState cfg now ns s) as (l & -> & Hl).
  intros ws p H. apply in_app_or in H.
  destruct H as [H|H]; [now apply (Hs ws) | now apply Hl in H].
Qed.

Lemma sound_server_step cfg now e s : sound_server s -> sound_server (Server.step cfg now e s).
Proof.
  intros Hs.
  assert (Hv : valid_state (Server.state (Server.step cfg now e s)))
    by (apply valid_state_step, Hs).
  destruct e as [ws|ws data|ws|ws| |id|o]; cbn [Server.step] in *.
  - unfold Server.onConnection. cbv zeta.
    match goal with |- sound_server (Server.emit ?e ?t) => set (s1 := t) end.
    assert (H1 : sound_server s1).
    { revert Hs. unfold s1. destruct (existsb _ _);
        apply (sound_server_grow _ _ []); auto using nosend_nil, app_nil_r. }
    assert (E1 : Server.state s1 = Server.state s) by (unfold s1; now destruct (existsb _ _)).
    clearbody s1. destruct H1 as [Hv1 Hs1]. split; [exact Hv1|].
    intros ws' p H. cbn [Server.log Server.emit] in H. apply in_app_or in H.
    destruct H as [H|[H|[]]]; [now apply (Hs1 ws')|].
    injection H as _ <-. destruct Hv1 as [A B]. split; [exact B | exact A].
  - unfold Server.onMessage in *. destruct data as [|message].
    + revert Hs. apply (sound_server_grow _ _ [Server.ConsoleWarn Server.InvalidJSON]);
        [reflexivity | reflexivity | now apply nosend_one].
    + destruct (negb (truthy message) || negb (typeof_object message)); [exact Hs|].
      destruct (is_string (get "type" message) "setMode").
      * destruct (negb (Server.validateMode (get "mode" message))).
        -- revert Hs. eapply sound_server_grow; [reflexivity | reflexivity | now apply nosend_one].
        -- cbv zeta in *. rewrite broadcast_emits, emits_eq in Hv. cbn [Server.state] in Hv.
           apply sound_server_broadcast; [exact (proj2 Hv)|].
           now apply sound_server_updateState.
      * destruct (is_string (get "type" message) "stick").
        -- destruct (Server.normalizeStickPayload message) as [v|].
           ++ cbv zeta in *. rewrite broadcast_emits, emits_eq in Hv. cbn [Server.state] in Hv.
              apply sound_server_broadcast; [exact (proj1 Hv)|].
              now apply sound_server_updateState.
           ++ revert Hs. eapply sound_server_grow; [reflexivity | reflexivity | now apply nosend_one].
        -- revert Hs. eapply sound_server_grow; [reflexivity | reflexivity | now apply nosend_one].
  - revert Hs. apply (sound_server_grow _ _ []); auto using nosend_nil, app_nil_r.
  - revert Hs. apply (sound_server_grow _ _ []); auto using nosend_nil, app_nil_r.
  - revert Hs. apply (sound_server_grow _ _ (snd (Server.heartbeatSweep (Server.clients s))));
      [apply state_heartbeat | apply log_heartbeat | apply nosend_sweep].
  - destruct (internal_timerFired cfg now id s) as (l & E & Hl).
    revert Hs. apply (sound_server_grow _ _ l);
      [apply state_timerFired | exact E | exact (internal_nosend l Hl)].
  - destruct (internal_settled cfg now o s) as (l & E & Hl).
    revert Hs. apply (sound_server_grow _ _ l);
      [apply state_postToNodeRed_settled | exact E | exact (internal_nosend l Hl)].
Qed.

Lemma sound_server_run cfg events : forall s,
  sound_server s -> sound_server (Server.run cfg events s).
Proof.
  induction events as [|[t e] rest IH]; intros s Hs; [exact Hs|].
  apply IH, sound_server_step, Hs.
Qed.

Lemma sound_server_boot cfg t0 : sound_server (Server.boot cfg t0).
Proof.
  unfold Server.boot.
  destruct (internal_scheduleNodeRedPush cfg t0 (Server.init t0)) as (l & E & Hl).
  apply (sound_server_grow (Server.init t0) _ l);
    [apply state_scheduleNodeRedPush | exact E | exact (internal_nosend l Hl) |].
  split; [split; [exact valid_stick_zero | now left]|]. intros ws p [].
Qed.

(** *** What the client does with it *)

Lemma valid_mode_accepted m :
  valid_mode m -> negb (is_string m "automatic") && negb (is_string m "manual") = false.
Proof. intros [-> | ->]; [reflexivity | apply andb_false_r]. Qed.

Lemma setMode_fromServer now m c :
  valid_mode m ->
  exists c',
    Client.setMode now m true c = Client.Done c' /\
    Client.log c' = Client.log c /\
    Client.isDragging c' = Client.isDragging c /\
    Client.state c'
    = Client.mkState m
        (if negb (is_string m "manual") && negb (Client.isDragging c)
         then zeroStick else Client.stick (Client.state c)).
Proof.
  intros Hm. unfold Client.setMode. rewrite (valid_mode_accepted m Hm). cbv zeta.
  cbn [Client.state Client.with_state Client.with_modeSwitchChecked Client.mode
         Client.isDragging].
  destruct (negb (is_string m "manual") && negb (Client.isDragging c)).
  - unfold Client.applyStickData. rewrite normalizeStick_zero.
    cbn [negb]. rewrite orb_true_r. cbn [Client.andThen].
    eexists; split; [reflexivity|]. repeat split.
  - cbn [negb Client.andThen]. eexists; split; [reflexivity|]. repeat split.
Qed.

Lemma applyStickData_fromServer raw v c :
  valid_stick v -> carries raw v ->
  exists c',
    Client.applyStickData raw true c = Client.Done c' /\
    Client.log c' = Client.log c /\
    Client.state c' = Client.mkState (Client.mode (Client.state c)) v.
Proof.
  intros Hv Hc. unfold Client.applyStickData. rewrite (client_fixed raw v Hv Hc).
  destruct (negb _ || negb true); eexists; split; try reflexivity; repeat split.
Qed.

Lemma client_adopts_valid payload now c :
  valid_broadcast payload ->
  let c' := Client.step now (Client.SocketMessage (Client.Parsed (fromServer payload))) c in
  Client.log c' = Client.log c /\
  match payload with
  | Server.MsgState m v _ => Client.state c' = Client.mkState m v
  | Server.MsgMode m _ =>
      Client.state c'
      = Client.mkState m
          (if negb (is_string m "manual") && negb (Client.isDragging c)
           then zeroStick else Client.stick (Client.state c))
  | Server.MsgStick v _ => Client.state c' = Client.mkState (Client.mode (Client.state c)) v
  end.
Proof.
  intros Hp c'. subst c'. cbn [Client.step]. unfold Client.onMessage.
  destruct payload as [m v ts|m ts|v ts]; cbn [valid_broadcast] in Hp.
  - destruct Hp as [Hm Hv].
    assert (Tm : truthy m = true).
    { destruct Hm as [H|H]; destruct m; try discriminate; cbn in *;
        apply String.eqb_eq in H; subst; reflexivity. }
    destruct (setMode_fromServer now m c Hm) as (c1 & E1 & L1 & _ & S1).
    destruct (applyStickData_fromServer (wire_stick v) v c1 Hv (carries_wire_stick v Hv))
      as (c2 & E2 & L2 & S2).
    assert (E : Client.dispatchMessage now (fromServer (Server.MsgState m v ts)) c
                = Client.Done c2).
    { unfold Client.dispatchMessage, fromServer, obj.
      change (get "type" (JObj _ _)) with (str "state").
      change (get "mode" (JObj _ _)) with m.
      change (get "stick" (JObj _ _)) with (wire_stick v).
      change (is_string (str "state") "state") with true. cbv iota.
      rewrite Tm, E1. cbn [Client.andThen]. change (truthy (wire_stick v)) with true.
      cbv iota. exact E2. }
    rewrite E. split; [congruence|]. rewrite S2, S1. reflexivity.
  - assert (Tm : truthy m = true).
    { destruct Hp as [H|H]; destruct m; try discriminate; cbn in *;
        apply String.eqb_eq in H; subst; reflexivity. }
    destruct (setMode_fromServer now m c Hp) as (c1 & E1 & L1 & _ & S1).
    assert (E : Client.dispatchMessage now (fromServer (Server.MsgMode m ts)) c
                = Client.Done c1).
    { unfold Client.dispatchMessage, fromServer, obj.
      change (get "type" (JObj _ _)) with (str "mode").
      change (get "mode" (JObj _ _)) with m.
      change (is_string (str "mode") "state") with false.
      change (is_string (str "mode") "mode") with true. cbv iota.
      rewrite Tm. exact E1. }
    rewrite E. split; [exact L1 | exact S1].
  - destruct (applyStickData_fromServer (wire_stick v) v c Hp (carries_wire_stick v Hp))
      as (c2 & E2 & L2 & S2).
    assert (E : Client.dispatchMessage now (fromServer (Server.MsgStick v ts)) c
                = Client.Done c2).
    { unfold Client.dispatchMessage, fromServer, obj.
      change (get "type" (JObj _ _)) with (str "stick").
      change (get "stick" (JObj _ _)) with (wire_stick v).
      change (is_string (str "stick") "state") with false.
      change (is_string (str "stick") "mode") with false.
      change (is_string (str "stick") "stick") with true. cbv iota.
      change (truthy (wire_stick v)) with true. cbv iota. exact E2. }
    rewrite E. split; [exact L2 | exact S2].
Qed.

(** X5.  What the server sends, the client takes over: for every message
    the server has written to a connection in a run from start-up, the client
    that receives it ends with the mode of the message and with the [x],
    [y] and [mag] of its stick as they are, its [deg] wrapped once more (a
    [mode] message zeroes the stick when the mode is not manual and no drag is
    in progress), and does nothing to the outside. *)
Theorem client_adopts_what_server_sends :
  forall (cfg : Server.Config) (t0 : Z) (events : list (Z * Server.Event))
         (ws : nat) (payload : Server.ServerMessage) (now : Z) (c : Client.Client),
    In (Server.Send ws payload) (Server.log (Server.run cfg events (Server.boot cfg t0))) ->
    let c' := Client.step now (Client.SocketMessage (Client.Parsed (fromServer payload))) c in
    Client.log c' = Client.log c /\
    match payload with
    | Server.MsgState m v _ => Client.state c' = Client.mkState m (rewrap v)
    | Server.MsgMode m _ =>
        Client.state c'
        = Client.mkState m
            (if negb (is_string m "manual") && negb (Client.isDragging c)
             then zeroStick else Client.stick (Client.state c))
    | Server.MsgStick v _ =>
        Client.state c' = Client.mkState (Client.mode (Client.state c)) (rewrap v)
    end.
Proof.
  intros cfg t0 events ws payload now c H c'. subst c'.
  assert (Hp : valid_broadcast payload)
    by exact (proj2 (sound_server_run cfg events _ (sound_server_boot cfg t0)) ws payload H).
  destruct (client_adopts_valid payload now c Hp) as [L S].
  split; [exact L|].
  destruct payload as [m v ts|m ts|v ts]; cbn [valid_broadcast] in Hp.
  - now rewrite (rewrap_valid v (proj2 Hp)).
  - exact S.
  - now rewrite (rewrap_valid v Hp).
Qed.

Lemma client_adopts_what_server_sends_witness :
  Client.state
    (Client.step 1010
       (Client.SocketMessage
          (Client.Parsed (fromServer (Server.MsgState (str "automatic") zeroStick 1000))))
       (Client.init page0))
  = Client.mkState (str "automatic") (rewrap zeroStick).
Proof.
  apply (client_adopts_what_server_sends Server.defaultConfig 1000
           [(1005, Server.Connection_ 1)] 1
           (Server.MsgState (str "automatic") zeroStick 1000) 1010 (Client.init page0)).
  vm_compute. right. left. reflexivity.
Defined.

End RoundTrip.

Section Broadcast.
Import Server.
Local Open Scope Z_scope.

Lemma clients_updateState cfg now ns s : clients (updateState cfg now ns s) = clients s.
Proof. unfold updateState. now rewrite clients_scheduleNodeRedPush. Qed.

Lemma clients_broadcast p ex s : clients (broadcast p ex s) = clients s.
Proof. rewrite broadcast_emits, emits_eq. reflexivity. Qed.

Lemma state_broadcast p ex s : state (broadcast p ex s) = state s.
Proof. rewrite broadcast_emits, emits_eq. reflexivity. Qed.

Lemma In_recipients c ex cs :
  In c (recipients ex cs) <->
  exists k, In k cs /\ conn k = c /\ isOpen k = true /\ ex <> Some c.
Proof.
  unfold recipients. rewrite in_map_iff. split.
  - intros (k & <- & H). apply filter_In in H. destruct H as [Hin H].
    apply andb_prop in H. destruct H as [Hex Hopen].
    exists k. repeat split; auto.
    destruct ex as [e|]; [|discriminate].
    intros E. injection E as ->. now rewrite Nat.eqb_refl in Hex.
  - intros (k & Hin & <- & Hopen & Hex). exists k. split; [reflexivity|].
    apply filter_In. split; [exact Hin|]. rewrite Hopen, andb_true_r.
    destruct ex as [e|]; [|reflexivity].
    destruct (Nat.eqb_spec (conn k) e) as [E|]; [congruence | reflexivity].
Qed.

(** X6.  [broadcast] writes the payload to the registered connections that
    are open and not the excluded one, once per entry of the registry, and
    does nothing else: the shared state and the registry stay as they
    are. *)
Theorem broadcast_reaches_open_connections :
  forall (payload : ServerMessage) (exclude : option nat) (s : Server),
    state (broadcast payload exclude s) = state s /\
    clients (broadcast payload exclude s) = clients s /\
    exists l,
      log (broadcast payload exclude s) = log s ++ l /\
      List.length l
      = List.length (filter (fun k => isOpen k && negb match exclude with
                                                       | Some e => Nat.eqb (conn k) e
                                                       | None => false
                                                       end) (clients s)) /\
      forall e, In e l <->
                exists k, In k (clients s) /\ isOpen k = true /\
                          exclude <> Some (conn k) /\ e = Send (conn k) payload.
Proof.
  intros payload exclude s.
  split; [apply state_broadcast|]. split; [apply clients_broadcast|].
  exists (map (fun c => Send c payload) (recipients exclude (clients s))).
  split; [apply log_broadcast|]. split.
  - unfold recipients. rewrite !length_map. f_equal. apply filter_ext.
    intros k. apply andb_comm.
  - intros e. rewrite in_map_iff. split.
    + intros (c & <- & H). apply In_recipients in H.
      destruct H as (k & Hin & <- & Hopen & Hex). exists k. auto.
    + intros (k & Hin & Hopen & Hex & ->). exists (conn k). split; [reflexivity|].
      apply In_recipients. exists k. auto.
Qed.

Lemma log_onMessage_stick cfg now s props n v :
  is_string (get "type" (JObj props n)) "stick" = true ->
  normalizeStickPayload (JObj props n) = Ok v ->
  exists l,
    log (onMessage cfg now (Parsed (JObj props n)) s)
    = log s ++ l ++ map (fun c => Send c (MsgStick v now)) (recipients None (clients s)) /\
    internal l.
Proof.
  intros Ht Hn.
  assert (Hs : is_string (get "type" (JObj props n)) "setMode" = false)
    by (apply (is_string_other _ "stick"); [exact Ht | discriminate]).
  unfold onMessage. cbn [truthy typeof_object negb orb]. rewrite Hs, Ht, Hn. cbv zeta.
  rewrite log_broadcast, clients_updateState, state_updateState. cbn [newStick stick ts].
  unfold updateState.
  destruct (internal_scheduleNodeRedPush cfg now
              (with_state (mkState (nullish_or (newMode (mkNewState JUndefined (Some v)))
                                      (mode (state s))) v now) s)) as (l & E & Hl).
  cbn [newMode newStick] in *. rewrite E. cbn [log with_state].
  exists l. split; [now rewrite app_assoc | exact Hl].
Qed.

(** X7.  A stick frame is taken in whatever the mode: the normalized stick
    replaces the stored one, the mode stays, [ts] is the time of the
    handler, and the new stick goes to every open connection of the
    registry, the sender included. *)
Theorem stick_frame_updates_and_broadcasts :
  forall (cfg : Config) (now : Z) (ws : nat) (s : Server)
         (props : list (string * jsval)) (n : option num) (v : StickVector),
    is_string (get "type" (JObj props n)) "stick" = true ->
    normalizeStickPayload (JObj props n) = Ok v ->
    let s' := step cfg now (Message ws (Parsed (JObj props n))) s in
    state s' = mkState (mode (state s)) v now /\
    clients s' = clients s /\
    exists l,
      log s' = log s ++ l
               ++ map (fun c => Send c (MsgStick v now)) (recipients None (clients s)) /\
      internal l /\
      (forall k, In k (clients s) -> conn k = ws -> isOpen k = true ->
                 In (Send ws (MsgStick v now)) (log s')).
Proof.
  intros cfg now ws s props n v Ht Hn s'. subst s'. cbn [step].
  assert (Hs : is_string (get "type" (JObj props n)) "setMode" = false)
    by (apply (is_string_other _ "stick"); [exact Ht | discriminate]).
  split; [now apply state_onMessage_stick|]. split; [apply clients_onMessage|].
  destruct (log_onMessage_stick cfg now s props n v Ht Hn) as (l & E & Hl).
  exists l. split; [exact E|]. split; [exact Hl|].
  intros k Hin Hk Hopen. rewrite E. apply in_or_app. right. apply in_or_app. right.
  apply (in_map (fun c => Send c (MsgStick v now))).
  apply In_recipients. exists k. repeat split; auto. discriminate.
Qed.

Lemma stick_frame_updates_and_broadcasts_witness :
  state (step defaultConfig 1020 (Message 1 (Parsed stickMessage_1_0_1_90))
           (boot defaultConfig 1000))
  = mkState (mode (state (boot defaultConfig 1000))) (mkStick (Fin 1) (Fin 0) (Fin 1) (Fin 90)) 1020.
Proof.
  apply (stick_frame_updates_and_broadcasts defaultConfig 1020 1 (boot defaultConfig 1000)
           [("type"%string, str "stick"); ("x"%string, JNum (Fin 1)); ("y"%string, JNum (Fin 0));
            ("mag"%string, JNum (Fin 1)); ("deg"%string, JNum (Fin 90))] (Some NaN)).
  - reflexivity.
  - exact eval_server_1_0_1_90.
Defined.

End Broadcast.

Section Registry.
Import Server.
Local Open Scope Z_scope.

Lemma internal_addressed l (P : nat -> Prop) :
  internal l -> forall e c, In e l -> addressee e = Some c -> P c.
Proof. intros H e c Hin E. rewrite (H e Hin) in E. discriminate. Qed.

Lemma sends_addressed p ex s e c :
  In e (map (fun c => Send c p) (recipients ex (clients s))) ->
  addressee e = Some c -> registered c s.
Proof.
  intros H E. apply in_map_iff in H. destruct H as (c' & <- & H).
  injection E as <-. apply In_recipients in H. destruct H as (k & Hin & <- & _).
  unfold registered. now apply in_map.
Qed.

Lemma sweep_addressed cs e c :
  In e (snd (heartbeatSweep cs)) -> addressee e = Some c -> In c (map conn cs).
Proof.
  induction cs as [|k rest IH]; [intros []|].
  cbn [heartbeatSweep]. destruct (heartbeatSweep rest) as [kept done]. cbn [snd] in IH.
  destruct (negb (isAlive k)); cbn [snd map]; intros [<-|H] E.
  - injection E as <-. now left.
  - right. now apply IH.
  - injection E as <-. now left.
  - right. now apply IH.
Qed.

Lemma onMessage_addressed cfg now data s :
  exists l,
    log (onMessage cfg now data s) = log s ++ l /\
    forall e c, In e l -> addressee e = Some c -> registered c s.
Proof.
  assert (U : forall ns p,
            exists l,
              log (broadcast p None (updateState cfg now ns s)) = log s ++ l /\
              forall e c, In e l -> addressee e = Some c -> registered c s).
  { intros ns p. rewrite log_broadcast, clients_updateState. unfold updateState.
    destruct (internal_scheduleNodeRedPush cfg now
                (with_state (mkState (nullish_or (newMode ns) (mode (state s)))
                               match newStick ns with
                               | Some stick => stick
                               | None => stick (state s)
                               end now) s)) as (l & E & Hl).
    rewrite E. cbn [log with_state]. eexists. split; [symmetry; apply app_assoc|].
    intros e c H. apply in_app_or in H. destruct H as [H|H].
    - now apply (internal_addressed l (fun c => registered c s) Hl e).
    - now apply (sends_addressed p None). }
  assert (W : forall e0, addressee e0 = None ->
            exists l, log (emit e0 s) = log s ++ l /\
                      forall e c, In e l -> addressee e = Some c -> registered c s).
  { intros e0 H0. exists [e0]. split; [reflexivity|].
    intros e c [<-|[]] E. congruence. }
  unfold onMessage. destruct data as [|message]; [now apply W|].
  destruct (negb (truthy message) || negb (typeof_object message)).
  { exists []. split; [symmetry; apply app_nil_r | intros e c []]. }
  destruct (is_string (get "type" message) "setMode").
  - destruct (negb (validateMode (get "mode" message))); [now apply W | apply U].
  - destruct (is_string (get "type" message) "stick"); [|now apply W].
    destruct (normalizeStickPayload message); [apply U | now apply W].
Qed.

Lemma log_onConnection ws s :
  log (onConnection ws s)
  = log s ++ [Send ws (MsgState (mode (state s)) (stick (state s)) (ts (state s)))].
Proof. unfold onConnection. destruct (existsb _ _); reflexivity. Qed.

(** One step of the server writes to, pings and terminates connections of
    the registry only, or the connection that is just coming in. *)
Lemma step_addressed cfg now ev s :
  exists l,
    log (step cfg now ev s) = log s ++ l /\
    forall e c, In e l -> addressee e = Some c -> registered c s \/ ev = Connection_ c.
Proof.
  destruct ev as [ws|ws data|ws|ws| |id|o]; cbn [step].
  - eexists. split; [apply log_onConnection|].
    intros e c [<-|[]] E. injection E as <-. now right.
  - destruct (onMessage_addressed cfg now data s) as (l & E & H).
    exists l. split; [exact E|]. intros e c Hin Ha. left. now apply (H e).
  - exists []. split; [symmetry; apply app_nil_r | intros e c []].
  - exists []. split; [symmetry; apply app_nil_r | intros e c []].
  - exists (snd (heartbeatSweep (clients s))). split; [apply log_heartbeat|].
    intros e c Hin Ha. left. now apply (sweep_addressed (clients s) e).
  - destruct (internal_timerFired cfg now id s) as (l & E & Hl).
    exists l. split; [exact E|]. intros e c Hin Ha.
    now apply (internal_addressed l (fun c => registered c s \/ _) Hl e).
  - destruct (internal_settled cfg now o s) as (l & E & Hl).
    exists l. split; [exact E|]. intros e c Hin Ha.
    now apply (internal_addressed l (fun c => registered c s \/ _) Hl e).
Qed.

(** Only an incoming connection enters the registry. *)
Lemma step_registered cfg now ev s c :
  registered c (step cfg now ev s) -> registered c s \/ ev = Connection_ c.
Proof.
  unfold registered. destruct ev as [ws|ws data|ws|ws| |id|o]; cbn [step].
  - unfold onConnection. cbv zeta. cbn [clients emit].
    destruct (existsb _ _); cbn [clients with_clients].
    + rewrite conn_mark. now left.
    + rewrite map_app. intros H. apply in_app_or in H.
      destruct H as [H|[<-|[]]]; [now left | now right].
  - rewrite clients_onMessage. now left.
  - unfold onPong. cbn [clients with_clients]. rewrite conn_mark. now left.
  - unfold onClose. cbn [clients with_clients]. intros H. left.
    apply in_map_iff in H. destruct H as (k & <- & H). apply filter_In in H.
    apply in_map. tauto.
  - rewrite clients_heartbeat. destruct (heartbeatSweep_conn (clients s)) as (p & ->).
    intros H. left. apply in_map_iff in H. destruct H as (k & <- & H). apply filter_In in H.
    apply in_map. tauto.
  - rewrite clients_timerFired. now left.
  - rewrite clients_postToNodeRed_settled. now left.
Qed.

Lemma run_untouched cfg ws events : forall s,
  ~ registered ws s ->
  Forall (fun te => snd te <> Connection_ ws) events ->
  ~ registered ws (run cfg events s) /\
  exists l, log (run cfg events s) = log s ++ l /\ untouched ws l.
Proof.
  induction events as [|[t ev] rest IH]; intros s Hs Hev.
  - split; [exact Hs|]. exists []. split; [symmetry; apply app_nil_r | intros e []].
  - inversion Hev as [|? ? Hne Hrest]; subst. cbn [snd] in Hne. cbn [run fold_left fst snd].
    assert (Hs' : ~ registered ws (step cfg t ev s)).
    { intros H. apply step_registered in H. tauto. }
    destruct (IH (step cfg t ev s) Hs' Hrest) as (Hr & l2 & E2 & U2).
    split; [exact Hr|].
    destruct (step_addressed cfg t ev s) as (l1 & E1 & A1).
    exists (l1 ++ l2). split.
    + unfold run in E2. rewrite E2, E1. symmetry. apply app_assoc.
    + intros e H. apply in_app_or in H. destruct H as [H|H]; [|now apply U2].
      intros Ha. destruct (A1 e ws H Ha); tauto.
Qed.

(** X8.  The server writes to, pings and terminates only connections that
    are in the registry or just coming in; so a connection that has closed
    is left alone: until it connects again, whatever happens, nothing is
    sent to it, it is neither pinged nor terminated, and it stays out of the
    registry. *)
Theorem closed_connection_is_left_alone :
  forall (cfg : Config) (ws : nat) (t : Z) (s : Server) (events : list (Z * Event)),
    Forall (fun te => snd te <> Connection_ ws) events ->
    let closed := step cfg t (Close ws) s in
    ~ registered ws closed /\
    ~ registered ws (run cfg events closed) /\
    exists l, log (run cfg events closed) = log closed ++ l /\ untouched ws l.
Proof.
  intros cfg ws t s events Hev closed.
  assert (Hc : ~ registered ws closed).
  { unfold closed, registered. cbn [step]. unfold onClose. cbn [clients with_clients].
    intros H. apply in_map_iff in H. destruct H as (k & E & H). apply filter_In in H.
    destruct H as [_ H]. rewrite E, Nat.eqb_refl in H. discriminate. }
  split; [exact Hc|]. now apply run_untouched.
Qed.

Lemma closed_connection_is_left_alone_witness :
  exists l,
    log (run defaultConfig
           [(1020, Message 2 (Parsed (setModeMessage "manual"))); (31000, HeartbeatTick)]
           (step defaultConfig 1010 (Close 1)
              (step defaultConfig 1005 (Connection_ 1) (boot defaultConfig 1000))))
    = log (step defaultConfig 1010 (Close 1)
             (step defaultConfig 1005 (Connection_ 1) (boot defaultConfig 1000))) ++ l /\
    untouched 1 l.
Proof.
  apply (closed_connection_is_left_alone defaultConfig 1 1010
           (step defaultConfig 1005 (Connection_ 1) (boot defaultConfig 1000))
           [(1020, Message 2 (Parsed (setModeMessage "manual"))); (31000, HeartbeatTick)]).
  repeat constructor; discriminate.
Defined.

End Registry.

Section Requests.
Import Server.
Local Open Scope Z_scope.

Lemma fetched_app l1 l2 : fetched (l1 ++ l2) = fetched l1 ++ fetched l2.
Proof. apply flat_map_app. Qed.

Lemma fetched_sends p (cs : list nat) : fetched (map (fun c => Send c p) cs) = [].
Proof. induction cs; [reflexivity | exact IHcs]. Qed.

Lemma fetched_sweep cs : fetched (snd (heartbeatSweep cs)) = [].
Proof.
  induction cs as [|k rest IH]; [reflexivity|].
  cbn [heartbeatSweep]. destruct (heartbeatSweep rest) as [kept done]. cbn [snd] in IH.
  destruct (negb (isAlive k)); exact IH.
Qed.

Lemma posts_dispatch cfg now s :
  exists l, log (dispatch cfg now s) = log s ++ l /\ posts cfg (state s) l.
Proof.
  unfold dispatch, postToNodeRed. cbv zeta.
  cbn [nodeRedNextAttemptAt with_nodeRedTimeout with_lastNodeRedDispatch state].
  destruct (negb (nodeRedNextAttemptAt s =? 0) && (now <? nodeRedNextAttemptAt s)).
  - exists []. split; [symmetry; apply app_nil_r | now left].
  - destruct (NODE_RED_ENABLED cfg) eqn:En; cbn [negb].
    + exists [Fetch (state s)]. split; [reflexivity | right; auto].
    + exists []. split; [symmetry; apply app_nil_r | now left].
Qed.

Lemma posts_scheduleNodeRedPush cfg now s :
  exists l, log (scheduleNodeRedPush cfg now s) = log s ++ l /\ posts cfg (state s) l.
Proof.
  unfold scheduleNodeRedPush.
  destruct (NODE_RED_ENABLED cfg) eqn:En; cbn [negb].
  - destruct (now - lastNodeRedDispatch s >=? NODE_RED_THROTTLE_MS); [apply posts_dispatch|].
    destruct (nodeRedTimeout s).
    + exists []. split; [symmetry; apply app_nil_r | now left].
    + eexists. split; [reflexivity | now left].
  - exists []. split; [symmetry; apply app_nil_r | now left].
Qed.

Lemma posts_onMessage cfg now data s :
  exists l,
    log (onMessage cfg now data s) = log s ++ l /\
    posts cfg (state (onMessage cfg now data s)) l.
Proof.
  assert (U : forall ns p,
            exists l,
              log (broadcast p None (updateState cfg now ns s)) = log s ++ l /\
              posts cfg (state (broadcast p None (updateState cfg now ns s))) l).
  { intros ns p. rewrite state_broadcast, log_broadcast. unfold updateState.
    rewrite state_scheduleNodeRedPush.
    match goal with |- context [scheduleNodeRedPush cfg now ?t] => set (s1 := t) end.
    destruct (posts_scheduleNodeRedPush cfg now s1) as (l & E & Hl).
    rewrite E. change (log s1) with (log s).
    eexists. split; [symmetry; apply app_assoc|].
    unfold posts in *. rewrite fetched_app, fetched_sends, app_nil_r. exact Hl. }
  assert (W : forall e0, fetched [e0] = [] ->
            exists l, log (emit e0 s) = log s ++ l /\ posts cfg (state (emit e0 s)) l).
  { intros e0 H0. exists [e0]. split; [reflexivity | now left]. }
  unfold onMessage. destruct data as [|message]; [now apply W|].
  destruct (negb (truthy message) || negb (typeof_object message)).
  { exists []. split; [symmetry; apply app_nil_r | now left]. }
  destruct (is_string (get "type" message) "setMode").
  - destruct (negb (validateMode (get "mode" message))); [now apply W | apply U].
  - destruct (is_string (get "type" message) "stick"); [|now apply W].
    destruct (normalizeStickPayload message); [apply U | now apply W].
Qed.

Lemma fetched_settled cfg now o s :
  exists l, log (postToNodeRed_settled cfg now o s) = log s ++ l /\ fetched l = [].
Proof.
  unfold postToNodeRed_settled, setTimeout, clearTimeout.
  destruct o as [[|]| |code]; cbv zeta; cbn [negb];
    repeat match goal with
           | |- context [if ?b then _ else _] => destruct b
           | |- context [match nodeRedCooldownTimer ?t with _ => _ end] =>
               destruct (nodeRedCooldownTimer t) eqn:?
           end;
    cbn [log emit with_nodeRedNextAttemptAt with_nodeRedSuppressedWarningLogged
           with_nodeRedCooldownTimer with_timers with_fresh];
    first [ exists []; split; [symmetry; apply app_nil_r | reflexivity]
          | eexists; split; [reflexivity | reflexivity]
          | eexists; split; [rewrite <- app_assoc; reflexivity | reflexivity] ].
Qed.

Lemma posts_step cfg now ev s :
  exists l,
    log (step cfg now ev s) = log s ++ l /\ posts cfg (state (step cfg now ev s)) l.
Proof.
  destruct ev as [ws|ws data|ws|ws| |id|o]; cbn [step].
  - eexists. split; [apply log_onConnection | now left].
  - apply posts_onMessage.
  - exists []. split; [symmetry; apply app_nil_r | now left].
  - exists []. split; [symmetry; apply app_nil_r | now left].
  - eexists. split; [apply log_heartbeat | left; apply fetched_sweep].
  - rewrite state_timerFired. unfold timerFired.
    destruct (armed id (timers s)) as [[|]|].
    + apply (posts_dispatch cfg now (with_timers _ s)).
    + apply (posts_scheduleNodeRedPush cfg now
               (with_nodeRedCooldownTimer None (with_timers _ s))).
    + exists []. split; [symmetry; apply app_nil_r | now left].
  - destruct (fetched_settled cfg now o s) as (l & E & Hl).
    exists l. split; [exact E | now left].
Qed.

(** X9.  The forwarder posts at most once per handled event, and what it
    posts is the shared state as the handler leaves it: never a state that
    a later part of the same handler replaces. *)
Theorem request_carries_newest_state :
  forall (cfg : Config) (now : Z) (ev : Event) (s : Server),
    exists l,
      log (step cfg now ev s) = log s ++ l /\
      (fetched l = [] \/ fetched l = [state (step cfg now ev s)]).
Proof.
  intros cfg now ev s. destruct (posts_step cfg now ev s) as (l & E & [H|[_ H]]);
    exists l; auto.
Qed.

Lemma fetched_run_off cfg events : forall s,
  NODE_RED_ENABLED cfg = false ->
  fetched (log (run cfg events s)) = fetched (log s).
Proof.
  induction events as [|[t ev] rest IH]; intros s Hoff; [reflexivity|].
  cbn [run fold_left fst snd]. fold (run cfg rest (step cfg t ev s)).
  rewrite (IH _ Hoff).
  destruct (posts_step cfg t ev s) as (l & -> & [H|[H _]]); [|congruence].
  now rewrite fetched_app, H, app_nil_r.
Qed.

Lemma dispatch_timers_off cfg now ev s :
  NODE_RED_ENABLED cfg = false ->
  forall id, In (id, DispatchTimer) (timers (step cfg now ev s)) ->
             In (id, DispatchTimer) (timers s).
Proof.
  intros Hoff id.
  assert (Sch : forall t, scheduleNodeRedPush cfg now t = t)
    by (intros t; unfold scheduleNodeRedPush; now rewrite Hoff).
  destruct ev as [ws|ws data|ws|ws| |id'|o]; cbn [step].
  - unfold onConnection. cbv zeta. now destruct (existsb _ _).
  - unfold onMessage. destruct data as [|message]; [tauto|].
    destruct (negb (truthy message) || negb (typeof_object message)); [tauto|].
    destruct (is_string (get "type" message) "setMode").
    + destruct (negb (validateMode (get "mode" message))); [tauto|].
      cbv zeta. rewrite broadcast_emits, emits_eq. cbn [timers].
      unfold updateState. rewrite Sch. tauto.
    + destruct (is_string (get "type" message) "stick"); [|tauto].
      destruct (normalizeStickPayload message); [|tauto].
      cbv zeta. rewrite broadcast_emits, emits_eq. cbn [timers].
      unfold updateState. rewrite Sch. tauto.
  - tauto.
  - tauto.
  - unfold heartbeat. destruct (heartbeatSweep (clients s)) as [kept done].
    rewrite emits_eq. tauto.
  - unfold timerFired. destruct (armed id' (timers s)) as [[|]|]; [| |tauto].
    + unfold dispatch, postToNodeRed. rewrite Hoff. cbv zeta. cbn [negb].
      destruct (_ && _); cbn [timers with_nodeRedTimeout with_lastNodeRedDispatch with_timers];
        intros H; apply in_cancel in H; tauto.
    + rewrite Sch. cbn [timers with_nodeRedCooldownTimer with_timers].
      intros H; apply in_cancel in H; tauto.
  - unfold postToNodeRed_settled, setTimeout, clearTimeout.
    destruct o as [[|]| |code]; cbv zeta; cbn [negb];
      repeat match goal with
             | |- context [if ?b then _ else _] => destruct b
             | |- context [match nodeRedCooldownTimer ?t with _ => _ end] =>
                 destruct (nodeRedCooldownTimer t) eqn:?
             end;
      cbn [timers emit with_nodeRedNextAttemptAt with_nodeRedSuppressedWarningLogged
             with_nodeRedCooldownTimer with_timers with_fresh];
      try tauto;
      intros H;
      try (apply in_cancel in H; tauto);
      try (apply in_app_or in H; destruct H as [H|[H|[]]]; [exact H | discriminate]).
Qed.

(** X10.  With forwarding switched off (an empty [NODE_RED_HTTP_URL]) the
    server never issues a request and never arms a dispatch timer, whatever
    the events. *)
Theorem forwarding_off_never_posts :
  forall (cfg : Config) (t0 : Z) (events : list (Z * Event)),
    NODE_RED_ENABLED cfg = false ->
    fetched (log (run cfg events (boot cfg t0))) = [] /\
    forall id, ~ In (id, DispatchTimer) (timers (run cfg events (boot cfg t0))).
Proof.
  intros cfg t0 events Hoff.
  assert (B : boot cfg t0 = init t0)
    by (unfold boot, scheduleNodeRedPush; now rewrite Hoff).
  rewrite B. split; [now rewrite fetched_run_off|].
  assert (G : forall evs s id, In (id, DispatchTimer) (timers (run cfg evs s)) ->
                               In (id, DispatchTimer) (timers s)).
  { induction evs as [|[t ev] rest IH]; intros s id H; [exact H|].
    cbn [run fold_left fst snd] in H. fold (run cfg rest (step cfg t ev s)) in H.
    apply IH in H. now apply dispatch_timers_off in H. }
  intros id H. apply G in H. exact H.
Qed.

Lemma forwarding_off_never_posts_witness :
  fetched
    (log (run forwardingOff
            [(1005, Connection_ 1); (1010, Message 1 (Parsed (setModeMessage "manual")));
             (1020, Message 1 (Parsed (setModeMessage "automatic")))]
            (boot forwardingOff 1000))) = [].
Proof.
  apply (forwarding_off_never_posts forwardingOff 1000). reflexivity.
Defined.

End Requests.

Section Inbound.
Import Client.
Local Open Scope Z_scope.

Lemma inbound_applyStickData raw fs c :
  wiring (final (applyStickData raw fs c)) = wiring c /\
  log (final (applyStickData raw fs c)) = log c.
Proof.
  unfold applyStickData. destruct (normalizeStick raw) as [v|]; [|now split].
  destruct (negb _ || negb fs); now split.
Qed.

Lemma inbound_setMode now m c :
  wiring (final (setMode now m true c)) = wiring c /\
  log (final (setMode now m true c)) = log c.
Proof.
  unfold setMode. destruct (negb (is_string m "automatic") && negb (is_string m "manual"));
    [now split|].
  cbv zeta. set (c1 := with_modeSwitchChecked _ _).
  assert (H1 : wiring c1 = wiring c /\ log c1 = log c) by now split.
  clearbody c1.
  destruct (negb (is_string (mode (state c1)) "manual") && negb (isDragging c1)).
  - pose proof (inbound_applyStickData (stick_value zeroStick) false c1) as H.
    destruct (applyStickData (stick_value zeroStick) false c1); cbn [andThen final negb] in *;
      destruct H as [-> ->]; exact H1.
  - exact H1.
Qed.

Lemma inbound_andThen c o k :
  (wiring (final o) = wiring c /\ log (final o) = log c) ->
  (forall c', wiring (final (k c')) = wiring c' /\ log (final (k c')) = log c') ->
  wiring (final (andThen o k)) = wiring c /\ log (final (andThen o k)) = log c.
Proof.
  intros H K. destruct o as [c1|c1]; cbn [andThen final] in *; [|exact H].
  destruct (K c1) as [-> ->]. exact H.
Qed.

Lemma inbound_dispatchMessage now message c :
  (wiring (final (dispatchMessage now message c)) = wiring c /\
   log (final (dispatchMessage now message c)) = log c) \/
  dispatchMessage now message c
  = Done (emit (ConsoleWarn (UnhandledType (get "type" message))) c).
Proof.
  assert (A : forall raw c', wiring (final (if truthy raw then applyStickData raw true c'
                                            else Done c')) = wiring c' /\
                             log (final (if truthy raw then applyStickData raw true c'
                                         else Done c')) = log c').
  { intros raw c'. destruct (truthy raw); [apply inbound_applyStickData | now split]. }
  assert (B : forall m c', wiring (final (if truthy m then setMode now m true c'
                                          else Done c')) = wiring c' /\
                           log (final (if truthy m then setMode now m true c'
                                       else Done c')) = log c').
  { intros m c'. destruct (truthy m); [apply inbound_setMode | now split]. }
  unfold dispatchMessage.
  destruct message; try (left; now split);
    (destruct (is_string _ "state"); [left; apply inbound_andThen; [apply B | intros; apply A]|];
     destruct (is_string _ "mode"); [left; apply B|];
     destruct (is_string _ "stick"); [left; apply A|];
     right; reflexivity).
Qed.

Lemma inbound_step now data c :
  wiring (step now (SocketMessage data) c) = wiring c /\
  exists l,
    log (step now (SocketMessage data) c) = log c ++ l /\ sent l = [].
Proof.
  cbn [step]. unfold onMessage. destruct data as [|message].
  - split; [reflexivity|]. eexists. split; reflexivity.
  - destruct (inbound_dispatchMessage now message c) as [[W L]| ->].
    + destruct (dispatchMessage now message c) as [c1|c1]; cbn [final] in *.
      * split; [exact W|]. exists []. now rewrite app_nil_r.
      * split; [exact W|]. exists [ConsoleError FailedToParse].
        cbn [log emit]. now rewrite L.
    + split; [reflexivity|]. eexists. split; reflexivity.
Qed.

(** X11.  Handling a frame of the server, whatever it holds, the client
    hands nothing to its socket and arms or clears no timer: apart from the
    local state and what is displayed, all it may do is log one console
    line (an unhandled type, or a frame it cannot read). *)
Theorem server_frames_are_never_answered :
  forall (now : Z) (data : Frame) (c : Client),
    let c' := step now (SocketMessage data) c in
    wiring c' = wiring c /\
    exists l,
      log c' = log c ++ l /\
      (l = [] \/ (exists received, l = [ConsoleWarn (UnhandledType received)])
       \/ l = [ConsoleError FailedToParse]).
Proof.
  intros now data c c'. subst c'. cbn [step]. unfold onMessage.
  destruct data as [|message].
  - split; [reflexivity|]. eexists. split; [reflexivity | auto].
  - destruct (inbound_dispatchMessage now message c) as [[W L]| ->].
    + destruct (dispatchMessage now message c) as [c1|c1]; cbn [final] in *.
      * split; [exact W|]. exists []. rewrite app_nil_r. auto.
      * split; [exact W|]. exists [ConsoleError FailedToParse].
        cbn [log emit]. rewrite L. auto.
    + split; [reflexivity|]. eexists. split; [reflexivity | eauto].
Qed.

End Inbound.

Section Offline.
Import Client.
Local Open Scope Z_scope.

Lemma sent_app l1 l2 : sent (l1 ++ l2) = sent l1 ++ sent l2.
Proof. apply flat_map_app. Qed.

Lemma hush_refl c : hush c c.
Proof. intros H. now split. Qed.

Lemma hush_trans c1 c2 c3 : hush c1 c2 -> hush c2 c3 -> hush c1 c3.
Proof.
  intros H12 H23 H1. destruct (H12 H1) as [H2 E2]. destruct (H23 H2) as [H3 E3].
  split; [exact H3 | congruence].
Qed.

Lemma hush_quiet c c' l :
  socket c' = socket c -> log c' = log c ++ l -> sent l = [] -> hush c c'.
Proof.
  intros Es El Hl H. split; [unfold offline; now rewrite Es|].
  now rewrite El, sent_app, Hl, app_nil_r.
Qed.

Lemma sendMessage_offline payload c : offline c -> sendMessage payload c = c.
Proof. unfold offline, sendMessage. destruct (socket c) as [[| | |]|]; congruence. Qed.

Lemma sendStickPayload_offline now c : offline c -> sendStickPayload now c = c.
Proof. unfold offline, sendStickPayload. destruct (socket c) as [[| | |]|]; congruence. Qed.

Lemma hush_sendMessage payload c : hush c (sendMessage payload c).
Proof. intros H. rewrite sendMessage_offline by exact H. now split. Qed.

Lemma wiring_socket c c' : wiring c' = wiring c -> socket c' = socket c.
Proof. unfold wiring. intros H. now inversion H. Qed.

Lemma hush_applyStickData raw fs c : hush c (final (applyStickData raw fs c)).
Proof.
  destruct (inbound_applyStickData raw fs c) as [W L].
  apply (hush_quiet _ _ []); [|now rewrite app_nil_r | reflexivity].
  now apply wiring_socket.
Qed.

Lemma hush_queueStickSend now c : hush c (queueStickSend now c).
Proof.
  unfold queueStickSend.
  destruct (now - lastStickSend c >=? UI_THROTTLE_MS).
  - intros H. rewrite sendStickPayload_offline by exact H. now split.
  - destruct (pendingStickTimeout c); [apply hush_refl|].
    cbv zeta.
    now apply (hush_quiet _ _ [SetStickTimeout (fresh c) (UI_THROTTLE_MS - (now - lastStickSend c))]).
Qed.

Lemma hush_andThen c o k :
  hush c (final o) -> (forall c', hush c' (final (k c'))) -> hush c (final (andThen o k)).
Proof.
  intros H K. destruct o as [c1|c1]; cbn [andThen final] in *; [|exact H].
  exact (hush_trans _ _ _ H (K c1)).
Qed.

Lemma hush_settle c o : hush c (final o) -> hush c (settle o).
Proof.
  destruct o as [c1|c1]; cbn [settle final]; [tauto|].
  intros H. apply (hush_trans _ _ _ H). now apply (hush_quiet _ _ [Uncaught]).
Qed.

Lemma hush_resetStick now c : hush c (final (resetStick now c)).
Proof.
  unfold resetStick. apply hush_andThen; [apply hush_applyStickData|].
  intros c'. apply hush_queueStickSend.
Qed.

Lemma hush_setMode now m fs c : hush c (final (setMode now m fs c)).
Proof.
  unfold setMode. destruct (negb (is_string m "automatic") && negb (is_string m "manual"));
    [apply hush_refl|].
  cbv zeta. set (c1 := with_modeSwitchChecked _ _).
  assert (H1 : hush c c1) by (apply (hush_quiet _ _ []); [reflexivity | symmetry; apply app_nil_r | reflexivity]).
  clearbody c1. apply (hush_trans _ _ _ H1). apply hush_andThen.
  - destruct (negb _ && negb _); [apply hush_applyStickData | apply hush_refl].
  - intros c'. destruct (negb fs); cbn [final]; [apply hush_sendMessage | apply hush_refl].
Qed.

Lemma hush_handlePointerEvent now ev c : hush c (final (handlePointerEvent now ev c)).
Proof.
  unfold handlePointerEvent. destruct (negb _); [apply hush_refl|]. cbv zeta.
  apply hush_andThen; [apply hush_applyStickData|]. intros c'. apply hush_queueStickSend.
Qed.

Lemma hush_scheduleReconnect c : hush c (scheduleReconnect c).
Proof.
  unfold scheduleReconnect. cbv zeta. set (c0 := clearTimeout (reconnectTimer c) c).
  assert (H0 : socket c0 = socket c /\ log c0 = log c)
    by (unfold c0, clearTimeout; now destruct (reconnectTimer c)).
  clearbody c0. destruct H0 as [Es El].
  apply (hush_quiet _ _ [SetReconnectTimeout (fresh c0) (reconnectDelay c0)]);
    [exact Es | cbn [log emit with_reconnectTimer with_fresh with_timers]; now rewrite El
    | reflexivity].
Qed.

Lemma hush_connectSocket created c : hush c (connectSocket created c).
Proof.
  unfold connectSocket. cbv zeta. set (c0 := clearTimeout (reconnectTimer c) c).
  assert (H0 : socket c0 = socket c /\ log c0 = log c)
    by (unfold c0, clearTimeout; now destruct (reconnectTimer c)).
  clearbody c0. destruct H0 as [Es El]. unfold setStatus. destruct created.
  - intros _. split; [discriminate|]. cbn [log emit with_socket].
    now rewrite El, !sent_app, !app_nil_r.
  - apply (hush_trans _ (emit (ConsoleError ConnectionFailed) (emit (SetStatus Connecting) c0))).
    + apply (hush_quiet _ _ [SetStatus Connecting; ConsoleError ConnectionFailed]);
        [exact Es | cbn [log emit]; now rewrite El, <- app_assoc | reflexivity].
    + apply hush_scheduleReconnect.
Qed.

Lemma hush_step now ev c : ev <> SocketOpen -> hush c (step now ev c).
Proof.
  intros Hev. destruct ev; cbn [step]; [congruence| | | | | | | | | |].
  - destruct (inbound_step now data c) as (W & l & L & Hl).
    apply (hush_quiet _ _ l); [now apply wiring_socket | exact L | exact Hl].
  - unfold onClose, setStatus. intros _.
    destruct (hush_scheduleReconnect (emit (SetStatus Reconnecting) (with_socket (Some CLOSED) c)))
      as [H E]; [discriminate|].
    split; [exact H|]. rewrite E. cbn [log emit with_socket]. now rewrite sent_app, app_nil_r.
  - unfold onError, setStatus.
    now apply (hush_quiet _ _ [ConsoleError SocketError; SetStatus ConnectionError]);
      [| cbn [log emit]; rewrite <- app_assoc |].
  - unfold timerFired. destruct (armed id (timers c)) as [[|]|]; [| |apply hush_refl].
    + intros H. rewrite sendStickPayload_offline by exact H. now split.
    + eapply hush_trans; [|apply hush_connectSocket].
      now apply (hush_quiet _ _ []); [| symmetry; apply app_nil_r |].
  - apply hush_settle. unfold onModeSwitchChange. cbv zeta.
    eapply hush_trans; [apply (hush_quiet _ (with_modeSwitchChecked checked c) []);
                        [reflexivity | symmetry; apply app_nil_r | reflexivity]|].
    apply hush_andThen; [apply hush_setMode|].
    intros c'. destruct (String.eqb _ _); [apply hush_resetStick | apply hush_refl].
  - apply hush_settle. unfold onPointerDown. destruct (negb _); [apply hush_refl|].
    eapply hush_trans; [|apply hush_handlePointerEvent].
    now apply (hush_quiet _ _ []); [| symmetry; apply app_nil_r |].
  - apply hush_settle. unfold onPointerMove.
    destruct (negb _ || negb _); [apply hush_refl | apply hush_handlePointerEvent].
  - apply hush_settle. unfold endPointer. destruct (negb _); [apply hush_refl|].
    eapply hush_trans; [|apply hush_resetStick].
    now apply (hush_quiet _ _ []); [| symmetry; apply app_nil_r |].
  - apply hush_settle. unfold onLostPointerCapture. destruct (isDragging c); [|apply hush_refl].
    eapply hush_trans; [|apply hush_resetStick].
    now apply (hush_quiet _ _ []); [| symmetry; apply app_nil_r |].
  - unfold onResize. cbv zeta.
    now apply (hush_quiet _ _ []); [| symmetry; apply app_nil_r |].
Qed.

(** X12.  While its socket is not open the client hands nothing to it:
    from a client with no open socket, whatever happens short of the socket
    opening (pointer moves, the switch, timers, frames, the socket closing),
    no message is sent and the socket is still not open.  Stick movements
    made meanwhile are not queued. *)
Theorem nothing_is_sent_while_offline :
  forall (events : list (Z * Event)) (c : Client),
    offline c ->
    Forall (fun te => snd te <> SocketOpen) events ->
    offline (run events c) /\ sent (log (run events c)) = sent (log c).
Proof.
  induction events as [|[t ev] rest IH]; intros c Hc Hev; [now split|].
  inversion Hev as [|? ? Hne Hrest]; subst. cbn [snd] in Hne.
  cbn [run fold_left fst snd]. fold (run rest (step t ev c)).
  destruct (hush_step t ev c Hne Hc) as [H1 E1].
  destruct (IH _ H1 Hrest) as [H2 E2]. split; [exact H2 | congruence].
Qed.

Lemma nothing_is_sent_while_offline_witness :
  sent (log (run [(10, ModeSwitchChange true); (20, PointerDown pointerAtCentre);
                  (30, SocketClose); (1040, TimerFired 0 true)]
               (start 0 true page0)))
  = sent (log (start 0 true page0)).
Proof.
  apply (nothing_is_sent_while_offline
           [(10, ModeSwitchChange true); (20, PointerDown pointerAtCentre);
            (30, SocketClose); (1040, TimerFired 0 true)] (start 0 true page0)).
  - discriminate.
  - repeat constructor; discriminate.
Defined.

End Offline.

Section Opening.
Import Client.
Local Open Scope Z_scope.

Lemma queueStickSend_open now c :
  socket c = Some OPEN ->
  let c' := queueStickSend now c in
  state c' = state c /\ socket c' = Some OPEN /\ reconnectDelay c' = reconnectDelay c /\
  exists l,
    log c' = log c ++ l /\
    (l = [SocketSend (StickMsg (x (stick (state c))) (y (stick (state c)))
                               (mag (stick (state c))) (deg (stick (state c))) now)]
     \/ (exists id delay, l = [SetStickTimeout id delay] /\ pendingStickTimeout c' = Some id)
     \/ (l = [] /\ pendingStickTimeout c' <> None)).
Proof.
  intros Hs c'. subst c'. unfold queueStickSend.
  destruct (now - lastStickSend c >=? UI_THROTTLE_MS).
  - rewrite (sendStickPayload_open now c Hs).
    repeat split; try assumption. eexists. split; [reflexivity | now left].
  - destruct (pendingStickTimeout c) as [id|] eqn:Hp.
    + repeat split; try assumption. exists []. split; [symmetry; apply app_nil_r|].
      right. right. split; [reflexivity | congruence].
    + cbv zeta. repeat split; try assumption. eexists. split; [reflexivity|].
      right. left. eauto.
Qed.

(** X13.  When its socket opens the client pushes its own state to the
    server, whatever the server holds: the back-off interval is reset, the
    stick is zeroed unless the mode is manual, the stick is sent (at once, or
    by the timer of the throttle), and the last thing handed to the socket is
    a [setMode] with the local mode. *)
Theorem open_pushes_local_state :
  forall (now : Z) (c : Client),
    let c' := step now SocketOpen c in
    socket c' = Some OPEN /\
    reconnectDelay c' = 1000%float /\
    state c'
    = mkState (mode (state c))
        (if is_string (mode (state c)) "manual" then stick (state c) else zeroStick) /\
    exists l,
      log c' = log c ++ [SetStatus Connected] ++ l
               ++ [SocketSend (SetModeMsg (mode (state c)) now)] /\
      (l = [SocketSend (StickMsg (x (stick (state c'))) (y (stick (state c')))
                                 (mag (stick (state c'))) (deg (stick (state c'))) now)]
       \/ (exists id delay, l = [SetStickTimeout id delay] /\ pendingStickTimeout c' = Some id)
       \/ (l = [] /\ pendingStickTimeout c' <> None)).
Proof.
  intros now c c'. subst c'. cbn [step]. unfold onOpen. cbv zeta. unfold setStatus.
  set (c1 := with_reconnectDelay 1000%float (emit (SetStatus Connected) (with_socket (Some OPEN) c))).
  assert (S1 : socket c1 = Some OPEN) by reflexivity.
  assert (D1 : reconnectDelay c1 = 1000%float) by reflexivity.
  assert (T1 : state c1 = state c) by reflexivity.
  assert (L1 : log c1 = log c ++ [SetStatus Connected]) by reflexivity.
  clearbody c1.
  assert (K : forall c2,
            socket c2 = Some OPEN -> reconnectDelay c2 = 1000%float ->
            log c2 = log c ++ [SetStatus Connected] ->
            mode (state c2) = mode (state c) ->
            let c3 := sendMessage (SetModeMsg (mode (state (queueStickSend now c2))) now)
                        (queueStickSend now c2) in
            socket c3 = Some OPEN /\ reconnectDelay c3 = 1000%float /\ state c3 = state c2 /\
            exists l,
              log c3 = log c ++ [SetStatus Connected] ++ l
                       ++ [SocketSend (SetModeMsg (mode (state c)) now)] /\
              (l = [SocketSend (StickMsg (x (stick (state c3))) (y (stick (state c3)))
                                         (mag (stick (state c3))) (deg (stick (state c3))) now)]
               \/ (exists id delay, l = [SetStickTimeout id delay]
                                    /\ pendingStickTimeout c3 = Some id)
               \/ (l = [] /\ pendingStickTimeout c3 <> None))).
  { intros c2 S2 D2 L2 M2.
    destruct (queueStickSend_open now c2 S2) as (T & S & D & l & L & Hl).
    set (q := queueStickSend now c2) in *. clearbody q.
    cbv zeta. unfold sendMessage. rewrite S.
    cbn [socket reconnectDelay state log emit pendingStickTimeout].
    rewrite T, M2, L, L2, D, D2. repeat split; try assumption.
    exists l. split; [now rewrite <- !app_assoc | exact Hl]. }
  destruct (is_string (mode (state c1)) "manual") eqn:Hm;
    assert (Hm' := Hm); rewrite T1 in Hm'; rewrite Hm'.
  - cbn [andThen settle].
    destruct (K c1 S1 D1 L1 (f_equal mode T1)) as (S & D & T & H).
    split; [exact S|]. split; [exact D|]. split; [|exact H].
    rewrite T, T1. now destruct (state c).
  - unfold resetStick, applyStickData. rewrite normalizeStick_zero.
    cbn [negb]. rewrite orb_true_r. cbn [andThen settle x y zeroStick].
    set (c2 := setThumbPosition _ _ _).
    assert (S2 : socket c2 = Some OPEN) by exact S1.
    assert (D2 : reconnectDelay c2 = 1000%float) by exact D1.
    assert (L2 : log c2 = log c ++ [SetStatus Connected]) by exact L1.
    assert (T2 : state c2 = mkState (mode (state c1)) zeroStick) by reflexivity.
    clearbody c2.
    assert (M2 : mode (state c2) = mode (state c)) by (now rewrite T2, T1).
    destruct (K c2 S2 D2 L2 M2) as (S & D & T & H).
    split; [exact S|]. split; [exact D|]. split; [|exact H].
    now rewrite T, T2, T1.
Qed.

End Opening.

Section Pointer.
Import Client.
Local Open Scope R_scope.

Lemma shown_queueStickSend now c :
  state (queueStickSend now c) = state c /\ thumb (queueStickSend now c) = thumb c.
Proof.
  unfold queueStickSend. destruct (_ >=? _)%Z.
  - unfold sendStickPayload, sendMessage.
    destruct (socket c) as [[| | |]|] eqn:E; cbn [socket with_pendingStickTimeout with_lastStickSend];
      rewrite ?E; now split.
  - destruct (pendingStickTimeout c); now split.
Qed.

Lemma applyStickData_own v c :
  valid_stick v ->
  applyStickData (stick_value v) false c
  = Done (setThumbPosition (x v) (y v) (with_state (mkState (mode (state c)) v) c)).
Proof.
  intros Hv. unfold applyStickData.
  rewrite (client_fixed _ v Hv (carries_stick_value v)).
  cbn [negb]. now rewrite orb_true_r.
Qed.

End Pointer.

Section Release.
Import Client.
Local Open Scope Z_scope.

Lemma resetStick_spec now c :
  resetStick now c
  = Done (queueStickSend now
            (setThumbPosition (Fin 0) (Fin 0)
               (with_state (mkState (mode (state c)) zeroStick) c))).
Proof.
  unfold resetStick. rewrite (applyStickData_own zeroStick c valid_stick_zero). reflexivity.
Qed.

(** After [resetStick] the stick is zero; with the socket open the zero
    stick is sent at once, or a timer of the throttle is pending. *)
Lemma resetStick_zero now c :
  let c' := final (resetStick now c) in
  state c' = mkState (mode (state c)) zeroStick /\
  isDragging c' = isDragging c /\ activePointerId c' = activePointerId c /\
  (socket c = Some OPEN ->
   exists l,
     log c' = log c ++ l /\
     (l = [SocketSend (StickMsg (Fin 0) (Fin 0) (Fin 0) (Fin 0) now)]
      \/ (exists id delay, l = [SetStickTimeout id delay] /\ pendingStickTimeout c' = Some id)
      \/ (l = [] /\ pendingStickTimeout c' <> None))).
Proof.
  rewrite resetStick_spec. cbn [final]. cbv zeta.
  set (c1 := setThumbPosition _ _ _).
  assert (T1 : state c1 = mkState (mode (state c)) zeroStick) by reflexivity.
  assert (D1 : isDragging c1 = isDragging c) by reflexivity.
  assert (P1 : activePointerId c1 = activePointerId c) by reflexivity.
  assert (S1 : socket c1 = socket c) by reflexivity.
  assert (L1 : log c1 = log c) by reflexivity.
  clearbody c1.
  split; [now rewrite (proj1 (shown_queueStickSend now c1))|].
  split; [rewrite <- D1|split; [rewrite <- P1|]].
  - unfold queueStickSend, sendStickPayload, sendMessage.
    destruct (_ >=? _).
    + destruct (socket c1) as [[| | |]|] eqn:E;
        cbn [socket with_pendingStickTimeout with_lastStickSend]; rewrite ?E; reflexivity.
    + now destruct (pendingStickTimeout c1).
  - unfold queueStickSend, sendStickPayload, sendMessage.
    destruct (_ >=? _).
    + destruct (socket c1) as [[| | |]|] eqn:E;
        cbn [socket with_pendingStickTimeout with_lastStickSend]; rewrite ?E; reflexivity.
    + now destruct (pendingStickTimeout c1).
  - intros Hs. rewrite <- S1 in Hs.
    destruct (queueStickSend_open now c1 Hs) as (_ & _ & _ & l & L & Hl).
    exists l. rewrite L, L1. split; [reflexivity|]. rewrite T1 in Hl. exact Hl.
Qed.

(** X15.  Letting go of the thumb returns the stick to zero: when the
    active pointer is lifted or cancelled, or its capture is lost during a
    drag, the drag ends and the stick of the local state is the zero vector;
    with the socket open the zero stick is sent at once or a timer of the
    throttle is pending.  Turning the switch to automatic zeroes the stick as
    well, even in the middle of a drag. *)
Theorem release_returns_stick_to_zero :
  forall (now : Z) (c : Client),
    (forall ev,
       same_pointer (pointerId ev) (activePointerId c) = true ->
       let c' := step now (PointerUp ev) c in
       state c' = mkState (mode (state c)) zeroStick /\
       isDragging c' = false /\ activePointerId c' = None /\
       (socket c = Some OPEN ->
        exists l,
          log c' = log c ++ l /\
          (l = [SocketSend (StickMsg (Fin 0) (Fin 0) (Fin 0) (Fin 0) now)]
           \/ (exists id delay, l = [SetStickTimeout id delay]
                                /\ pendingStickTimeout c' = Some id)
           \/ (l = [] /\ pendingStickTimeout c' <> None)))) /\
    (isDragging c = true ->
     let c' := step now LostPointerCapture c in
     state c' = mkState (mode (state c)) zeroStick /\
     isDragging c' = false /\ activePointerId c' = None /\
     (socket c = Some OPEN ->
      exists l,
        log c' = log c ++ l /\
        (l = [SocketSend (StickMsg (Fin 0) (Fin 0) (Fin 0) (Fin 0) now)]
         \/ (exists id delay, l = [SetStickTimeout id delay]
                              /\ pendingStickTimeout c' = Some id)
         \/ (l = [] /\ pendingStickTimeout c' <> None)))) /\
    (let c' := step now (ModeSwitchChange false) c in
     state c' = mkState (str "automatic") zeroStick).
Proof.
  intros now c. split; [|split].
  - intros ev Hp c'. subst c'. cbn [step]. unfold endPointer. rewrite Hp. cbn [negb].
    pose proof (resetStick_zero now (with_drag false None c)) as H. cbv zeta in H.
    rewrite resetStick_spec in *. cbn [final settle] in *. exact H.
  - intros Hd c'. subst c'. cbn [step]. unfold onLostPointerCapture. rewrite Hd.
    pose proof (resetStick_zero now (with_drag false None c)) as H. cbv zeta in H.
    rewrite resetStick_spec in *. cbn [final settle] in *. exact H.
  - cbv zeta. cbn [step]. unfold onModeSwitchChange. cbv zeta.
    cbn [modeSwitchChecked with_modeSwitchChecked String.eqb Ascii.eqb Bool.eqb].
    set (c0 := with_modeSwitchChecked false c).
    pose proof (setMode_valid now (JStr "automatic" NaN) false c0 (or_introl eq_refl)) as [M _].
    destruct (setMode now (JStr "automatic" NaN) false c0) as [c1|c1] eqn:E.
    + cbn [andThen final] in *. rewrite resetStick_spec. cbn [settle].
      rewrite (proj1 (shown_queueStickSend now _)). cbn [state setThumbPosition with_thumb with_state].
      now rewrite M.
    + exfalso. revert E. unfold setMode. cbn [is_string String.eqb Ascii.eqb Bool.eqb negb andb].
      cbv zeta. cbn [state with_state with_modeSwitchChecked mode is_string String.eqb
                       Ascii.eqb Bool.eqb negb andb isDragging].
      destruct (negb (isDragging c0)).
      * rewrite (applyStickData_own zeroStick _ valid_stick_zero). discriminate.
      * discriminate.
Qed.

End Release.

Section Backoff.
Import Client.

Lemma expectedDelay_in_range k : in_backoff_range (expectedDelay k) = true.
Proof.
  do 6 (destruct k as [|k]; [reflexivity|]).
  unfold expectedDelay. rewrite nth_overflow by (cbn; lia). reflexivity.
Qed.

Lemma backoff_frame c c' : reconnect_frame c c' -> backoff_ok c -> backoff_ok c'.
Proof.
  intros F (I & D & L). pose proof (inv_frame c c' F I) as I'.
  destruct F as (Ed & _ & El & _). split; [exact I'|]. now rewrite Ed, El.
Qed.

Lemma backoff_scheduleReconnect c : backoff_ok c -> backoff_ok (scheduleReconnect c).
Proof.
  intros (I & D & L).
  destruct (scheduleReconnect_spec c I) as (I' & _ & _ & _ & Ed & El).
  split; [exact I'|]. rewrite Ed, El. split; [exact D|].
  apply Forall_app. split; [exact L|]. constructor; [exact D | constructor].
Qed.

Lemma backoff_connectSocket created c : backoff_ok c -> backoff_ok (connectSocket created c).
Proof.
  intros (I & D & L).
  destruct (connectSocket_spec created c I) as (I' & Ed & El).
  destruct created.
  - split; [exact I'|]. rewrite Ed, (El eq_refl). now split.
  - clear I' Ed El. unfold connectSocket. cbv zeta. apply backoff_scheduleReconnect.
    destruct I as [Hok Ht].
    pose proof (pending_cleared c Ht) as Hclr.
    pose proof (timers_ok_clear (reconnectTimer c) c Hok) as Hok'.
    assert (Hd : reconnectDelay (clearTimeout (reconnectTimer c) c) = reconnectDelay c)
      by (destruct (reconnectTimer c); reflexivity).
    assert (Hl : log (clearTimeout (reconnectTimer c) c) = log c)
      by (destruct (reconnectTimer c); reflexivity).
    set (c1 := clearTimeout (reconnectTimer c) c) in *. clearbody c1.
    assert (I1 : reconnect_inv c1).
    { split; [exact Hok'|]. unfold reconnect_tracked. rewrite Hclr. intros id []. }
    split; [unfold setStatus; now repeat apply inv_emit|].
    unfold setStatus. cbn [reconnectDelay log emit]. rewrite Hd, !reconnectDelays_app, Hl.
    cbn [reconnectDelays flat_map]. rewrite !app_nil_r. now split.
Qed.

Lemma backoff_step now ev c : backoff_ok c -> backoff_ok (step now ev c).
Proof.
  intros H.
  pose proof (frame_pointer now ev c) as Hf.
  destruct ev; try (exact (backoff_frame _ _ Hf H)); cbn [step].
  - apply (backoff_frame _ _ (frame_settle _ _ (onOpen_frame now c))).
    destruct H as (I & _ & L). split; [exact I|]. split; [now exists 0%nat | exact L].
  - unfold onClose, setStatus. apply backoff_scheduleReconnect.
    destruct H as (I & D & L). split; [now apply inv_emit|].
    cbn [reconnectDelay log emit with_socket]. rewrite reconnectDelays_app.
    cbn [reconnectDelays flat_map]. rewrite app_nil_r. now split.
  - unfold timerFired. destruct (armed id (timers c)) as [[|]|] eqn:Ha; [| |exact H].
    + destruct H as ([Hok Ht] & D & L).
      apply (backoff_frame _ _ (frame_sendStickPayload now _)).
      split; [|now split].
      split; [apply (timers_ok_cancel id c Hok) | apply (tracked_cancel id c Ht)].
    + destruct H as ([Hok Ht] & (k & D) & L).
      apply backoff_connectSocket. split; [|split].
      * split; [apply (timers_ok_cancel id c Hok) | apply (tracked_cancel id c Ht)].
      * exists (S k). cbn [reconnectDelay with_reconnectDelay with_timers].
        rewrite D. apply next_delay.
      * exact L.
Qed.

Lemma backoff_run events : forall c, backoff_ok c -> backoff_ok (run events c).
Proof.
  induction events as [|[t ev] rest IH]; intros c H; [exact H|].
  apply IH, backoff_step, H.
Qed.

Lemma backoff_start now created page : backoff_ok (start now created page).
Proof.
  unfold start. apply backoff_connectSocket.
  apply (backoff_frame (init page)).
  - apply frame_settle, frame_setMode.
  - split; [apply inv_init|]. split; [now exists 0%nat | constructor].
Qed.

(** X16.  In every state the client reaches from the loading of the page,
    the reconnection interval is a member of the back-off sequence, and so
    is every delay it has passed to [setTimeout] for a reconnection: the
    client never waits less than one second or more than
    [MAX_RECONNECT_DELAY] before it connects again. *)
Theorem reconnect_delay_stays_in_range :
  forall (events : list (Z * Event)) (now : Z) (created : bool) (page : Layout),
    let c := run events (start now created page) in
    (exists k, reconnectDelay c = expectedDelay k) /\
    in_backoff_range (reconnectDelay c) = true /\
    Forall (fun d => exists k, d = expectedDelay k) (reconnectDelays (log c)) /\
    Forall (fun d => in_backoff_range d = true) (reconnectDelays (log c)).
Proof.
  intros events now created page c.
  destruct (backoff_run events _ (backoff_start now created page)) as (_ & (k & D) & L).
  fold c in D, L. split; [now exists k|]. split; [|split].
  - rewrite D. apply expectedDelay_in_range.
  - exact L.
  - eapply Forall_impl; [|exact L]. intros d (j & ->). apply expectedDelay_in_range.
Qed.

End Backoff.

Section Deferred.
Import Client.
Local Open Scope Z_scope.

Lemma In_armed {K} id (k : K) ts :
  NoDup (map fst ts) -> In (id, k) ts -> armed id ts = Some k.
Proof.
  induction ts as [|[i k'] rest IH]; intros ND Hin; [destruct Hin|].
  cbn [map fst] in ND. inversion ND as [|? ? Hnot ND']; subst.
  cbn [armed]. destruct Hin as [E|Hin].
  - injection E as -> ->. now rewrite Nat.eqb_refl.
  - destruct (Nat.eqb_spec i id) as [->|Hne]; [|now apply IH].
    exfalso. apply Hnot. apply (in_map fst) in Hin. exact Hin.
Qed.

Lemma throttle_same c c' :
  pendingStickTimeout c' = pendingStickTimeout c -> reconnectTimer c' = reconnectTimer c ->
  timers c' = timers c -> fresh c' = fresh c ->
  throttle_inv c -> throttle_inv c'.
Proof.
  unfold throttle_inv, timers_ok. intros Hp Hr Ht Hf. now rewrite Hp, Hr, Ht, Hf.
Qed.

Lemma throttle_wiring c c' : wiring c' = wiring c -> throttle_inv c -> throttle_inv c'.
Proof.
  unfold wiring. intros W. injection W as _ _ _ Hp _ Hr _ _ Ht Hf.
  now apply throttle_same.
Qed.

Lemma wiring_sendMessage payload c : wiring (sendMessage payload c) = wiring c.
Proof. unfold sendMessage. now destruct (socket c) as [[| | |]|]. Qed.

Lemma wiring_setMode now m fs c : wiring (final (setMode now m fs c)) = wiring c.
Proof.
  unfold setMode. destruct (negb (is_string m "automatic") && negb (is_string m "manual"));
    [reflexivity|].
  cbv zeta. set (c1 := with_modeSwitchChecked _ _).
  assert (H1 : wiring c1 = wiring c) by reflexivity. clearbody c1.
  destruct (negb (is_string (mode (state c1)) "manual") && negb (isDragging c1)).
  - pose proof (inbound_applyStickData (stick_value zeroStick) false c1) as [W _].
    destruct (applyStickData (stick_value zeroStick) false c1) as [c2|c2];
      cbn [andThen final] in *; [|congruence].
    destruct (negb fs); cbn [final]; rewrite ?wiring_sendMessage; congruence.
  - cbn [andThen]. destruct (negb fs); cbn [final]; rewrite ?wiring_sendMessage; congruence.
Qed.

Lemma throttle_sendStickPayload now c : throttle_inv c -> throttle_inv (sendStickPayload now c).
Proof.
  intros H. unfold sendStickPayload. destruct (socket c) as [[| | |]|] eqn:E; try exact H.
  unfold sendMessage. cbn [socket with_pendingStickTimeout with_lastStickSend]. rewrite E.
  destruct H as (Hok & _ & Hr). split; [exact Hok|]. split; [discriminate | exact Hr].
Qed.

Lemma throttle_queueStickSend now c : throttle_inv c -> throttle_inv (queueStickSend now c).
Proof.
  intros H. unfold queueStickSend.
  destruct (now - lastStickSend c >=? UI_THROTTLE_MS); [now apply throttle_sendStickPayload|].
  destruct (pendingStickTimeout c) eqn:Hp; [exact H|].
  destruct H as (Hok & _ & Hr). cbv zeta. split; [|split].
  - now apply timers_ok_arm.
  - cbn [pendingStickTimeout with_pendingStickTimeout timers emit with_fresh with_timers].
    intros id E. injection E as <-. apply in_or_app. right. now left.
  - cbn [reconnectTimer with_pendingStickTimeout timers emit with_fresh with_timers fresh].
    intros id E. destruct (Hr id E) as [Hlt Hk]. split; [lia|].
    intros k Hin. apply in_app_or in Hin. destruct Hin as [Hin|[Hin|[]]]; [now apply Hk|].
    injection Hin as E1 _. lia.
Qed.

Lemma throttle_clear c :
  throttle_inv c ->
  let c' := clearTimeout (reconnectTimer c) c in
  throttle_inv c' /\
  forall id, reconnectTimer c = Some id -> forall k, ~ In (id, k) (timers c').
Proof.
  intros H c'. pose proof H as (Hok & Hp & Hr). subst c'. unfold clearTimeout.
  destruct (reconnectTimer c) as [r|] eqn:Er; [|split; [exact H | discriminate]].
  split.
  - split; [apply (timers_ok_cancel r c Hok)|]. split.
    + cbn [pendingStickTimeout timers with_timers]. intros id E.
      apply in_cancel. split; [now apply Hp|].
      intros ->. destruct (Hr r eq_refl) as [_ Hk].
      specialize (Hk StickTimer (Hp r E)). discriminate.
    + cbn [reconnectTimer timers with_timers fresh]. rewrite Er.
      intros id E. destruct (Hr id E) as [Hlt Hk]. split; [exact Hlt|].
      intros k Hin. apply in_cancel in Hin. now apply Hk.
  - intros id E k Hin. injection E as <-. cbn [timers with_timers] in Hin.
    apply in_cancel in Hin. tauto.
Qed.

Lemma throttle_scheduleReconnect c : throttle_inv c -> throttle_inv (scheduleReconnect c).
Proof.
  intros H. destruct (throttle_clear c H) as [(Hok & Hp & _) _].
  unfold scheduleReconnect. cbv zeta.
  set (c0 := clearTimeout (reconnectTimer c) c) in *. clearbody c0.
  split; [|split].
  - now apply timers_ok_arm.
  - cbn [pendingStickTimeout with_reconnectTimer timers emit with_fresh with_timers].
    intros id E. apply in_or_app. left. now apply Hp.
  - cbn [reconnectTimer with_reconnectTimer timers emit with_fresh with_timers fresh].
    intros id E. injection E as <-. split; [lia|].
    intros k Hin. apply in_app_or in Hin. destruct Hin as [Hin|[Hin|[]]].
    + apply (proj1 Hok) in Hin. lia.
    + now injection Hin as <-.
Qed.

Lemma throttle_emit e c : throttle_inv c -> throttle_inv (emit e c).
Proof. now apply throttle_wiring. Qed.

Lemma throttle_connectSocket created c : throttle_inv c -> throttle_inv (connectSocket created c).
Proof.
  intros H. destruct (throttle_clear c H) as [H0 _].
  unfold connectSocket. cbv zeta.
  set (c0 := clearTimeout (reconnectTimer c) c) in *. clearbody c0.
  unfold setStatus. destruct created.
  - revert H0. now apply throttle_same.
  - apply throttle_scheduleReconnect. now repeat apply throttle_emit.
Qed.

Lemma throttle_andThen o k :
  throttle_inv (final o) -> (forall c', throttle_inv c' -> throttle_inv (final (k c'))) ->
  throttle_inv (final (andThen o k)).
Proof. destruct o; cbn [andThen final]; auto. Qed.

Lemma throttle_settle o : throttle_inv (final o) -> throttle_inv (settle o).
Proof. destruct o; cbn [settle final]; [tauto | apply throttle_emit]. Qed.

Lemma throttle_applyStickData raw fs c :
  throttle_inv c -> throttle_inv (final (applyStickData raw fs c)).
Proof. apply throttle_wiring. apply inbound_applyStickData. Qed.

Lemma throttle_resetStick now c : throttle_inv c -> throttle_inv (final (resetStick now c)).
Proof.
  intros H. unfold resetStick. apply throttle_andThen; [now apply throttle_applyStickData|].
  intros c' H'. cbn [final]. now apply throttle_queueStickSend.
Qed.

Lemma throttle_handlePointerEvent now ev c :
  throttle_inv c -> throttle_inv (final (handlePointerEvent now ev c)).
Proof.
  intros H. unfold handlePointerEvent. destruct (negb _); [exact H|]. cbv zeta.
  apply throttle_andThen; [now apply throttle_applyStickData|].
  intros c' H'. cbn [final]. now apply throttle_queueStickSend.
Qed.

Lemma throttle_step now ev c : throttle_inv c -> throttle_inv (step now ev c).
Proof.
  intros H. destruct ev; cbn [step].
  - apply throttle_settle. unfold onOpen. cbv zeta. unfold setStatus.
    set (c1 := with_reconnectDelay _ _).
    assert (H1 : throttle_inv c1) by (revert H; now apply throttle_same).
    clearbody c1. apply throttle_andThen.
    + destruct (is_string _ _); cbn [final];
        [now apply throttle_queueStickSend | now apply throttle_resetStick].
    + intros c' H'. cbn [final]. revert H'. apply throttle_wiring, wiring_sendMessage.
  - revert H. apply throttle_wiring. apply inbound_step.
  - unfold onClose, setStatus. apply throttle_scheduleReconnect, throttle_emit.
    revert H. now apply throttle_same.
  - unfold onError, setStatus. now repeat apply throttle_emit.
  - unfold timerFired. destruct (armed id (timers c)) as [[|]|] eqn:Ha; [| |exact H].
    + apply throttle_sendStickPayload. destruct H as (Hok & Hp & Hr).
      split; [apply (timers_ok_cancel id c Hok)|]. split; [discriminate|].
      cbn [reconnectTimer with_pendingStickTimeout with_timers timers fresh].
      intros r E. destruct (Hr r E) as [Hlt Hk]. split; [exact Hlt|].
      intros k Hin. apply in_cancel in Hin. now apply Hk.
    + apply throttle_connectSocket. destruct H as (Hok & Hp & Hr).
      split; [apply (timers_ok_cancel id c Hok)|]. split.
      * cbn [pendingStickTimeout with_reconnectDelay with_timers timers].
        intros p E. apply in_cancel. split; [now apply Hp|].
        intros ->. apply Hp in E. apply (In_armed _ _ _ (proj2 Hok)) in E. congruence.
      * cbn [reconnectTimer with_reconnectDelay with_timers timers fresh].
        intros r E. destruct (Hr r E) as [Hlt Hk]. split; [exact Hlt|].
        intros k Hin. apply in_cancel in Hin. now apply Hk.
  - apply throttle_settle. unfold onModeSwitchChange. cbv zeta. apply throttle_andThen.
    + revert H. apply throttle_wiring.
      now rewrite (wiring_setMode now _ false (with_modeSwitchChecked checked c)).
    + intros c' H'. destruct (String.eqb _ _); [now apply throttle_resetStick | exact H'].
  - apply throttle_settle. unfold onPointerDown. destruct (negb _); [exact H|].
    apply throttle_handlePointerEvent. revert H. now apply throttle_same.
  - apply throttle_settle. unfold onPointerMove.
    destruct (negb _ || negb _); [exact H | now apply throttle_handlePointerEvent].
  - apply throttle_settle. unfold endPointer. destruct (negb _); [exact H|].
    apply throttle_resetStick. revert H. now apply throttle_same.
  - apply throttle_settle. unfold onLostPointerCapture. destruct (isDragging c); [|exact H].
    apply throttle_resetStick. revert H. now apply throttle_same.
  - unfold onResize. cbv zeta. revert H. now apply throttle_same.
Qed.

Lemma throttle_run events : forall c, throttle_inv c -> throttle_inv (run events c).
Proof.
  induction events as [|[t ev] rest IH]; intros c H; [exact H|].
  apply IH, throttle_step, H.
Qed.

Lemma throttle_start now created page : throttle_inv (start now created page).
Proof.
  unfold start. apply throttle_connectSocket, throttle_settle.
  apply (throttle_wiring (init page)); [apply wiring_setMode|].
  split; [apply inv_init|]. split; discriminate.
Qed.

(** X17.  A deferred stick message is never lost: in every state the
    client reaches, a set [pendingStickTimeout] names a timer of the
    throttle that is armed; and when a timer of the throttle runs with the
    socket open, the stick is sent as it is at that moment and the variable
    is reset. *)
Theorem deferred_stick_is_sent :
  forall (events : list (Z * Event)) (now : Z) (created : bool) (page : Layout),
    let c := run events (start now created page) in
    (forall id, pendingStickTimeout c = Some id -> armed id (timers c) = Some StickTimer) /\
    (forall id t created',
       armed id (timers c) = Some StickTimer ->
       socket c = Some OPEN ->
       let c' := step t (TimerFired id created') c in
       log c' = log c ++ [SocketSend (StickMsg (x (stick (state c))) (y (stick (state c)))
                                               (mag (stick (state c))) (deg (stick (state c))) t)] /\
       pendingStickTimeout c' = None /\
       lastStickSend c' = t /\
       armed id (timers c') = None).
Proof.
  intros events now created page c.
  destruct (throttle_run events _ (throttle_start now created page)) as (Hok & Hp & _).
  fold c in Hok, Hp. split.
  - intros id E. apply In_armed; [exact (proj2 Hok) | now apply Hp].
  - intros id t created' Ha Hs c'. subst c'. cbn [step]. unfold timerFired. rewrite Ha.
    cbv zeta. rewrite sendStickPayload_open by exact Hs.
    repeat split.
    cbn [timers emit with_pendingStickTimeout with_lastStickSend with_timers].
    destruct (armed id (cancel id (timers c))) as [k|] eqn:E; [|reflexivity].
    apply armed_In, in_cancel in E. tauto.
Qed.

End Deferred.

Section Bearing.
Import Client.
Local Open Scope R_scope.

Lemma Rtrunc_small_neg r : -1 < r < 0 -> Rtrunc r = 0%Z.
Proof.
  intros [L U]. destruct (Rtrunc_neg r U) as [A B].
  assert (H1 : (Rtrunc r < 1)%Z) by (apply lt_IZR; lra).
  assert (H2 : (-1 < Rtrunc r)%Z) by (apply lt_IZR; lra).
  lia.
Qed.

Lemma rem_small_neg a b : - b < a < 0 -> rem (Fin a) (Fin b) = Fin a.
Proof.
  intros [L U]. unfold rem. rewrite Reqb_false by lra.
  assert (Hb : 0 < b) by lra.
  assert (Hinv : 0 < / b) by (apply Rinv_0_lt_compat; lra).
  assert (Hq : -1 < a / b < 0).
  { unfold Rdiv. split.
    - assert (H : - b * / b < a * / b) by nra.
      replace (- b * / b) with (-1) in H by (field; lra). exact H.
    - nra. }
  rewrite (Rtrunc_small_neg _ Hq). f_equal. lra.
Qed.

Lemma normalizeDegrees_neg d : -360 < d < 0 -> normalizeDegrees (Fin d) = Fin (d + 360).
Proof.
  intros H. unfold normalizeDegrees. rewrite rem_small_neg by lra. cbn [add].
  apply rem_small. lra.
Qed.

(** The angle in degrees: [-180 <= Ratan2 b a * (180 / PI) <= 180], by
    quadrant. *)
Lemma degrees_of_atan t : - PI / 2 < t < PI / 2 -> -90 < t * (180 / PI) < 90.
Proof.
  intros [L U]. pose proof PI_RGT_0 as HPI.
  assert (K : 0 < 180 / PI) by (apply Rdiv_lt_0_compat; lra).
  assert (E : PI * (180 / PI) = 180) by (field; lra).
  split; nra.
Qed.

Lemma not_tiny a b :
  (/ 2 ^ 52 <= Rabs a \/ / 2 ^ 52 <= Rabs b) ->
  lt (Math_abs (Fin a)) Number_EPSILON && lt (Math_abs (Fin b)) Number_EPSILON = false.
Proof.
  unfold Number_EPSILON. cbn [Math_abs lt]. intros [H|H].
  - now rewrite (Rltb_false (Rabs a)).
  - rewrite (Rltb_false (Rabs b)) by exact H. apply andb_false_r.
Qed.

Ltac by_halves :=
  repeat split; intros;
  repeat match goal with
         | H : ?P -> _, H' : ?P |- _ => specialize (H H')
         end;
  first [lra | left; lra | right; lra].

(** X18.  [calculateJoystickDegrees] is a compass bearing: off the dead
    zone around the origin the angle is in [[0, 360)], measured clockwise
    from straight up.  It is 0 straight up, 90 to the right, 180 straight
    down and 270 to the left; a stick in the right half gives an angle from 0
    to 180, one in the left half an angle from 180 on (or 0), one in the upper
    half an angle up to 90 or from 270 on, one in the lower half an angle from
    90 to 270.  Inside the dead zone (both coordinates below
    [Number.EPSILON] in absolute value) it is 0. *)
Theorem bearing_is_clockwise_from_up :
  forall (a b : R),
    (Rabs a < / 2 ^ 52 -> Rabs b < / 2 ^ 52 ->
     calculateJoystickDegrees (Fin a) (Fin b) = Fin 0) /\
    ((/ 2 ^ 52 <= Rabs a \/ / 2 ^ 52 <= Rabs b) ->
     exists r,
       calculateJoystickDegrees (Fin a) (Fin b) = Fin r /\
       0 <= r < 360 /\
       (0 < a -> 0 <= r <= 180) /\
       (a < 0 -> r = 0 \/ 180 <= r) /\
       (0 < b -> r <= 90 \/ 270 <= r) /\
       (b < 0 -> 90 <= r <= 270) /\
       (a = 0 -> 0 < b -> r = 0) /\
       (0 < a -> b = 0 -> r = 90) /\
       (a = 0 -> b < 0 -> r = 180) /\
       (a < 0 -> b = 0 -> r = 270)).
Proof.
  intros a b. pose proof PI_RGT_0 as HPI. split.
  - intros Ha Hb. unfold calculateJoystickDegrees, Number_EPSILON. cbn [Math_abs lt].
    now rewrite !Rltb_true.
  - intros Hbig. unfold calculateJoystickDegrees. rewrite (not_tiny a b Hbig).
    rewrite div_180_PI. cbn [Math_atan2 mul sub neg add].
    assert (E180 : PI * (180 / PI) = 180) by (field; lra).
    assert (E90 : PI / 2 * (180 / PI) = 90) by (field; lra).
    assert (K : 0 < 180 / PI) by (apply Rdiv_lt_0_compat; lra).
    unfold Ratan2.
    destruct (Rlt_dec 0 a) as [Hpos|Hnpos].
    + rewrite Rltb_true by exact Hpos.
      destruct (degrees_of_atan _ (atan_bound (b / a))) as [L U].
      assert (Hinv : 0 < / a) by now apply Rinv_0_lt_compat.
      assert (Hbp : 0 < b -> 0 < atan (b / a) * (180 / PI)).
      { intros Hb. assert (Hq : 0 < b / a) by (unfold Rdiv; nra).
        pose proof (atan_pos _ Hq). nra. }
      assert (Hbn : b < 0 -> atan (b / a) * (180 / PI) <= 0).
      { intros Hb. assert (Hq : b / a <= 0) by (unfold Rdiv; nra).
        pose proof (atan_nonpos _ Hq). nra. }
      assert (Hb0 : b = 0 -> atan (b / a) * (180 / PI) = 0).
      { intros ->. unfold Rdiv. rewrite Rmult_0_l, atan_0. ring. }
      exists (90 - atan (b / a) * (180 / PI)).
      split; [|split; [lra|]].
      * replace (90 + - (atan (b / a) * (180 / PI))) with (90 - atan (b / a) * (180 / PI))
          by ring.
        apply normalizeDegrees_inside. lra.
      * by_halves.
    + rewrite (Rltb_false 0 a) by lra. destruct (Rlt_dec a 0) as [Hneg|Hz].
      * rewrite (Rltb_true a 0) by exact Hneg.
        assert (Hinv : / a < 0) by now apply Rinv_lt_0_compat.
        destruct (degrees_of_atan _ (atan_bound (b / a))) as [L U].
        destruct (Rlt_dec b 0) as [Hbn|Hbp].
        -- rewrite Rltb_true by exact Hbn.
           assert (Hq : 0 < b / a) by (unfold Rdiv; nra).
           pose proof (atan_pos _ Hq) as Hat.
           assert (P : 0 < atan (b / a) * (180 / PI)) by nra.
           exists (270 - atan (b / a) * (180 / PI)).
           split; [|split; [lra|]].
           ++ replace (90 + - ((atan (b / a) - PI) * (180 / PI)))
                with (270 - atan (b / a) * (180 / PI)) by (ring_simplify; lra).
              apply normalizeDegrees_inside. lra.
           ++ by_halves.
        -- rewrite Rltb_false by lra.
           assert (Hq : b / a <= 0) by (unfold Rdiv; nra).
           pose proof (atan_nonpos _ Hq) as Hat.
           assert (P : atan (b / a) * (180 / PI) <= 0) by nra.
           assert (Hb0 : b = 0 -> atan (b / a) * (180 / PI) = 0).
           { intros ->. unfold Rdiv. rewrite Rmult_0_l, atan_0. ring. }
           exists (270 - atan (b / a) * (180 / PI)).
           split; [|split; [lra|]].
           ++ replace (270 - atan (b / a) * (180 / PI))
                with (90 + - ((atan (b / a) + PI) * (180 / PI)) + 360) by (ring_simplify; lra).
              apply normalizeDegrees_neg. lra.
           ++ by_halves.
      * rewrite (Rltb_false a 0) by lra.
        assert (Ea : a = 0) by lra.
        destruct (Rlt_dec 0 b) as [Hbp|Hbn].
        -- rewrite Rltb_true by exact Hbp. exists 0.
           split; [|split; [lra|]].
           ++ replace (90 + - (PI / 2 * (180 / PI))) with 0 by lra.
              apply normalizeDegrees_inside. lra.
           ++ by_halves.
        -- rewrite (Rltb_false 0 b) by lra.
           destruct (Rlt_dec b 0) as [Hb|Hb0].
           ++ rewrite Rltb_true by exact Hb. exists 180.
              split; [|split; [lra|]].
              ** replace (90 + - (- (PI / 2) * (180 / PI))) with 180 by lra.
                 apply normalizeDegrees_inside. lra.
              ** by_halves.
           ++ exfalso. assert (Eb : b = 0) by lra. subst a b.
              rewrite Rabs_R0 in Hbig.
              assert (0 < / 2 ^ 52) by (apply Rinv_0_lt_compat, pow_lt; lra).
              lra.
Qed.

End Bearing.

Section DeferredDispatch.
Import Server.
Local Open Scope Z_scope.

Lemma fwd_same s s' :
  timers s' = timers s -> fresh s' = fresh s ->
  nodeRedTimeout s' = nodeRedTimeout s -> nodeRedCooldownTimer s' = nodeRedCooldownTimer s ->
  forwarder_inv s -> forwarder_inv s'.
Proof. unfold forwarder_inv. intros Ht Hf Hd Hc. now rewrite Ht, Hf, Hd, Hc. Qed.

Lemma fwd_arm (ts : list (nat * TimerKind)) k n :
  ((forall id k', In (id, k') ts -> (id < n)%nat) /\ NoDup (map fst ts)) ->
  (forall id k', In (id, k') (ts ++ [(n, k)]) -> (id < S n)%nat) /\
  NoDup (map fst (ts ++ [(n, k)])).
Proof.
  intros [Hlt ND]. split.
  - intros id k' Hin. apply in_app_or in Hin. destruct Hin as [Hin|[E|[]]].
    + apply Hlt in Hin. lia.
    + injection E as <- _. lia.
  - rewrite map_app. cbn [map fst]. apply NoDup_app. repeat split.
    + exact ND.
    + constructor; [intros [] | constructor].
    + intros i Hin [<-|[]]. apply in_map_iff in Hin. destruct Hin as ([j k'] & E & Hin).
      cbn [fst] in E. subst j. apply Hlt in Hin. lia.
Qed.

Lemma fwd_cancel (ts : list (nat * TimerKind)) id n :
  ((forall i k, In (i, k) ts -> (i < n)%nat) /\ NoDup (map fst ts)) ->
  (forall i k, In (i, k) (cancel id ts) -> (i < n)%nat) /\ NoDup (map fst (cancel id ts)).
Proof.
  intros [Hlt ND]. split.
  - intros i k Hin. apply in_cancel in Hin. destruct Hin as [Hin _]. eauto.
  - unfold cancel. now apply NoDup_map_filter.
Qed.

(** Two timers of different kinds have different handles. *)
Lemma other_kind (ts : list (nat * TimerKind)) i j k k' :
  NoDup (map fst ts) -> In (i, k) ts -> In (j, k') ts -> k <> k' -> i <> j.
Proof.
  intros ND Hi Hj Hk ->. apply Hk.
  apply (In_armed _ _ _ ND) in Hi. apply (In_armed _ _ _ ND) in Hj. congruence.
Qed.

Lemma fwd_dispatch cfg now s :
  ((forall id k, In (id, k) (timers s) -> (id < fresh s)%nat) /\ NoDup (map fst (timers s))) ->
  (forall id, nodeRedCooldownTimer s = Some id -> In (id, CooldownTimer) (timers s)) ->
  forwarder_inv (dispatch cfg now s).
Proof.
  intros Hok Hc. unfold dispatch, postToNodeRed. cbv zeta.
  repeat match goal with |- context [if ?b then _ else _] => destruct b end;
    (split; [exact Hok|]; split; [discriminate | exact Hc]).
Qed.

Lemma fwd_scheduleNodeRedPush cfg now s :
  forwarder_inv s -> forwarder_inv (scheduleNodeRedPush cfg now s).
Proof.
  intros H. unfold scheduleNodeRedPush.
  destruct (negb (NODE_RED_ENABLED cfg)); [exact H|].
  destruct (now - lastNodeRedDispatch s >=? NODE_RED_THROTTLE_MS);
    [apply fwd_dispatch; apply H|].
  destruct (nodeRedTimeout s) eqn:Hd; [exact H|].
  destruct H as (Hok & _ & Hc). unfold setTimeout. cbv zeta. split; [|split].
  - now apply fwd_arm.
  - cbn [nodeRedTimeout with_nodeRedTimeout timers emit with_fresh with_timers].
    intros id E. injection E as <-. apply in_or_app. right. now left.
  - cbn [nodeRedCooldownTimer with_nodeRedTimeout timers emit with_fresh with_timers].
    intros id E. apply in_or_app. left. now apply Hc.
Qed.

Lemma fwd_settled cfg now o s :
  forwarder_inv s -> forwarder_inv (postToNodeRed_settled cfg now o s).
Proof.
  intros H. pose proof H as (Hok & Hd & Hc). unfold postToNodeRed_settled.
  destruct o as [ok| |code].
  - cbv zeta.
    set (s1 := with_nodeRedSuppressedWarningLogged false _).
    assert (H1 : forwarder_inv s1) by (revert H; apply fwd_same; unfold s1; now destruct (negb ok)).
    assert (E1 : nodeRedCooldownTimer s1 = nodeRedCooldownTimer s)
      by (unfold s1; now destruct (negb ok)).
    clearbody s1. clear H Hok Hd Hc. pose proof H1 as (Hok & Hd & Hc).
    destruct (nodeRedCooldownTimer s1) as [id|] eqn:Ec; [|exact H1].
    unfold clearTimeout. split; [now apply fwd_cancel|]. split; [|discriminate].
    cbn [nodeRedTimeout with_nodeRedCooldownTimer with_timers timers].
    intros d E. apply in_cancel. split; [now apply Hd|].
    apply (other_kind (timers s1) d id DispatchTimer CooldownTimer (proj2 Hok));
      [now apply Hd | now apply Hc | discriminate].
  - revert H. now apply fwd_same.
  - destruct (is_string code "ECONNREFUSED"); [|revert H; now apply fwd_same].
    cbv zeta.
    set (s1 := if negb _ then _ else _).
    assert (H1 : forwarder_inv s1)
      by (revert H; apply fwd_same; unfold s1; now destruct (negb _)).
    clearbody s1. clear H Hok Hd Hc. pose proof H1 as (Hok & Hd & Hc).
    destruct (nodeRedCooldownTimer s1) as [id|] eqn:Ec; [exact H1|].
    unfold setTimeout. cbv zeta. split; [|split].
    + now apply fwd_arm.
    + cbn [nodeRedTimeout with_nodeRedCooldownTimer timers emit with_fresh with_timers].
      intros d E. apply in_or_app. left. now apply Hd.
    + cbn [nodeRedCooldownTimer with_nodeRedCooldownTimer timers emit with_fresh with_timers].
      intros d E. injection E as <-. apply in_or_app. right. now left.
Qed.

Lemma fwd_timerFired cfg now id s :
  forwarder_inv s -> forwarder_inv (timerFired cfg now id s).
Proof.
  intros H. pose proof H as (Hok & Hd & Hc). unfold timerFired.
  destruct (armed id (timers s)) as [[|]|] eqn:Ha; [| |exact H]; apply armed_In in Ha.
  - apply fwd_dispatch; [now apply fwd_cancel|].
    cbn [nodeRedCooldownTimer with_timers timers]. intros c E. apply in_cancel.
    split; [now apply Hc|].
    apply (other_kind (timers s) c id CooldownTimer DispatchTimer (proj2 Hok));
      [now apply Hc | exact Ha | discriminate].
  - apply fwd_scheduleNodeRedPush. split; [now apply fwd_cancel|]. split.
    + cbn [nodeRedTimeout with_nodeRedCooldownTimer with_timers timers].
      intros d E. apply in_cancel. split; [now apply Hd|].
      apply (other_kind (timers s) d id DispatchTimer CooldownTimer (proj2 Hok));
        [now apply Hd | exact Ha | discriminate].
    + discriminate.
Qed.

Lemma fwd_step cfg now ev s : forwarder_inv s -> forwarder_inv (step cfg now ev s).
Proof.
  intros H. destruct ev as [ws|ws data|ws|ws| |id|o]; cbn [step].
  - revert H. apply fwd_same; unfold onConnection; now destruct (existsb _ _).
  - assert (U : forall ns p, forwarder_inv (broadcast p None (updateState cfg now ns s))).
    { intros ns p. apply (fwd_same (updateState cfg now ns s));
        try (rewrite broadcast_emits, emits_eq; reflexivity).
      unfold updateState. apply fwd_scheduleNodeRedPush. revert H. now apply fwd_same. }
    unfold onMessage. destruct data as [|message]; [revert H; now apply fwd_same|].
    destruct (negb (truthy message) || negb (typeof_object message)); [exact H|].
    destruct (is_string (get "type" message) "setMode").
    + destruct (negb (validateMode (get "mode" message))); [revert H; now apply fwd_same|].
      apply U.
    + destruct (is_string (get "type" message) "stick"); [|revert H; now apply fwd_same].
      destruct (normalizeStickPayload message); [apply U | revert H; now apply fwd_same].
  - revert H. now apply fwd_same.
  - revert H. now apply fwd_same.
  - revert H. apply fwd_same; unfold heartbeat;
      destruct (heartbeatSweep (clients s)) as [kept done]; now rewrite emits_eq.
  - now apply fwd_timerFired.
  - now apply fwd_settled.
Qed.

Lemma fwd_run cfg events : forall s, forwarder_inv s -> forwarder_inv (run cfg events s).
Proof.
  induction events as [|[t ev] rest IH]; intros s H; [exact H|].
  apply IH, fwd_step, H.
Qed.

Lemma fwd_boot cfg t0 : forwarder_inv (boot cfg t0).
Proof.
  unfold boot. apply fwd_scheduleNodeRedPush.
  split; [split; [intros id k [] | constructor]|]. split; discriminate.
Qed.

(** X19.  A deferred dispatch is never lost: in every state the server
    reaches, a set [nodeRedTimeout] names an armed dispatch timer and a set
    [nodeRedCooldownTimer] an armed cool-down timer; and when a dispatch
    timer runs, forwarding being on and the breaker closed, the shared state
    as it is at that moment is posted, [nodeRedTimeout] is reset and the
    throttle window starts anew. *)
Theorem deferred_dispatch_is_posted :
  forall (cfg : Config) (t0 : Z) (events : list (Z * Event)),
    let s := run cfg events (boot cfg t0) in
    (forall id, nodeRedTimeout s = Some id -> armed id (timers s) = Some DispatchTimer) /\
    (forall id, nodeRedCooldownTimer s = Some id -> armed id (timers s) = Some CooldownTimer) /\
    (forall id t,
       armed id (timers s) = Some DispatchTimer ->
       NODE_RED_ENABLED cfg = true ->
       breakerOpen t s = false ->
       let s' := step cfg t (TimerFired id) s in
       log s' = log s ++ [Fetch (state s)] /\
       nodeRedTimeout s' = None /\
       lastNodeRedDispatch s' = t /\
       armed id (timers s') = None).
Proof.
  intros cfg t0 events s.
  destruct (fwd_run cfg events _ (fwd_boot cfg t0)) as (Hok & Hd & Hc).
  fold s in Hok, Hd, Hc. split; [|split].
  - intros id E. apply In_armed; [exact (proj2 Hok) | now apply Hd].
  - intros id E. apply In_armed; [exact (proj2 Hok) | now apply Hc].
  - intros id t Ha En Hb s'. subst s'. cbn [step]. unfold timerFired. rewrite Ha.
    unfold dispatch, postToNodeRed. cbv zeta.
    cbn [nodeRedNextAttemptAt with_nodeRedTimeout with_lastNodeRedDispatch with_timers state].
    unfold breakerOpen in Hb. rewrite Hb, En. cbn [negb].
    repeat split.
    cbn [timers emit with_nodeRedTimeout with_lastNodeRedDispatch with_timers].
    destruct (armed id (cancel id (timers s))) as [k|] eqn:E; [|reflexivity].
    apply armed_In, in_cancel in E. tauto.
Qed.

End DeferredDispatch.

(** ** The window of the breaker over runs of the server: C6 *)

Section Breaker.
Import Server.
Local Open Scope Z_scope.

(** C6, as stated, fails on the warning.  The request of start-up is
    refused at 1200: one warning, the window ends at 11200.  The cool-down
    timer runs then and posts again, the breaker being closed; that request is
    refused at 11300, the breaker opens until 21300 and a second cool-down
    timer is armed, but no warning is logged for this window: the flag is
    still set, only a response resets it. *)
Lemma second_window_logs_no_warning :
  count isFetch (log reattempted_server) = 2%nat /\
  breakerOpen 11300 reattempted_server = false /\
  nodeRedSuppressedWarningLogged reattempted_server = true /\
  breakerOpen 11300 refused_again_server = true /\
  nodeRedNextAttemptAt refused_again_server = 21300 /\
  log refused_again_server
  = log reattempted_server ++ [SetTimeout 1 CooldownTimer 10000] /\
  count isSuppressWarning (log refused_again_server) = 1%nat.
Proof. vm_compute. repeat split; reflexivity. Qed.

(** What the cool-down timer does when a second request has been refused
    inside the window: the second refusal moves the end of the window to 11300
    and arms nothing, a timer being held; that timer runs at 11200, finds the
    breaker open and posts nothing, and no timer is left to try again. *)
Lemma refusal_inside_window_loses_reattempt :
  nodeRedNextAttemptAt twice_refused_server = 11300 /\
  timers twice_refused_server = [(0%nat, CooldownTimer)] /\
  log (step defaultConfig 11200 (TimerFired 0) twice_refused_server)
  = log twice_refused_server /\
  timers (step defaultConfig 11200 (TimerFired 0) twice_refused_server) = [] /\
  nodeRedTimeout (step defaultConfig 11200 (TimerFired 0) twice_refused_server) = None.
Proof. vm_compute. repeat split; reflexivity. Qed.

Lemma fwd_reachable cfg start history : forwarder_inv (run cfg history (boot cfg start)).
Proof. apply fwd_run, fwd_boot. Qed.

Lemma held_cooldown_armed s id :
  forwarder_inv s -> nodeRedCooldownTimer s = Some id ->
  armed id (timers s) = Some CooldownTimer.
Proof. intros (Hok & _ & Hc) E. apply In_armed; [exact (proj2 Hok) | now apply Hc]. Qed.

Lemma count_refusal_log p (flag : bool) (held : option nat) l w a :
  p w = false -> p a = false ->
  count p (l ++ (if flag then [] else [w]) ++ match held with Some _ => [] | None => [a] end)
  = count p l.
Proof.
  intros Hw Ha. rewrite !count_app. unfold count.
  destruct flag, held; cbn [filter]; rewrite ?Hw, ?Ha; cbn; lia.
Qed.

(** The cool-down timer at the end of a window nothing has moved. *)
Lemma cooldown_timer_reattempts cfg now id s :
  forwarder_inv s ->
  armed id (timers s) = Some CooldownTimer ->
  NODE_RED_ENABLED cfg = true ->
  nodeRedNextAttemptAt s <= now ->
  let after := step cfg now (TimerFired id) s in
  nodeRedCooldownTimer after = None /\
  ((NODE_RED_THROTTLE_MS <= now - lastNodeRedDispatch s /\
    log after = log s ++ [Fetch (state s)]) \/
   (now - lastNodeRedDispatch s < NODE_RED_THROTTLE_MS /\
    exists d, nodeRedTimeout after = Some d /\
              armed d (timers after) = Some DispatchTimer)).
Proof.
  intros Hinv Ha He Hnext after.
  assert (Hafter : forwarder_inv after) by (apply fwd_step, Hinv).
  subst after. cbn [step] in *. unfold timerFired in *. rewrite Ha in *.
  set (s1 := with_nodeRedCooldownTimer None (with_timers (cancel id (timers s)) s)) in *.
  split; [exact (proj1 (arms_scheduleNodeRedPush cfg now s1))|].
  unfold scheduleNodeRedPush in *. rewrite He in *. cbn [negb] in *.
  change (lastNodeRedDispatch s1) with (lastNodeRedDispatch s) in *.
  destruct (now - lastNodeRedDispatch s >=? NODE_RED_THROTTLE_MS) eqn:Et.
  - left. split; [apply Z.geb_le in Et; lia|].
    unfold dispatch, postToNodeRed. cbv zeta. rewrite He.
    cbn [nodeRedNextAttemptAt with_nodeRedTimeout with_lastNodeRedDispatch
           with_nodeRedCooldownTimer with_timers s1 negb].
    assert (E : (now <? nodeRedNextAttemptAt s) = false) by (apply Z.ltb_ge; lia).
    rewrite E, andb_false_r. reflexivity.
  - right. split; [rewrite Z.geb_leb in Et; apply Z.leb_gt in Et; lia|].
    destruct Hafter as (Hok & Hd & _).
    change (nodeRedTimeout s1) with (nodeRedTimeout s) in *.
    destruct (nodeRedTimeout s) as [d|] eqn:En.
    + exists d. split; [exact En|]. apply In_armed; [exact (proj2 Hok)|]. now apply Hd.
    + eexists. split; [reflexivity|]. apply In_armed; [exact (proj2 Hok)|]. now apply Hd.
Qed.

(** C6 (amended).  A request that ends with ECONNREFUSED, in whatever state
    the server has reached, sets the next attempt to the cool-down (10 s by
    default) later; it logs the warning unless the warning has been logged
    since start-up or since the last response, and arms the cool-down timer
    unless one is held.  Whatever happens inside the window short of a
    response and of that timer running (frames, other timers, further
    requests that fail or time out), no request is issued, no warning is
    logged and no cool-down timer is armed, and the one cool-down timer is the
    only one armed.  No event issues a request while the breaker is open.
    When no further request has been refused inside the window, the
    cool-down timer, run at its end, posts the shared state at once or, the
    throttle of 50 ms not having elapsed, leaves a dispatch timer armed.  A
    response closes the breaker and resets the warning flag; a response with
    an error status, a time-out and any other failure never open it. *)
Theorem breaker_opens_for_cooldown_window :
  NODE_RED_RETRY_COOLDOWN_MS defaultConfig = 10000 /\
  (forall (cfg : Config) (start : Z) (history : list (Z * Event)) (t0 : Z)
          (events : list (Z * Event)),
     let cooldown := NODE_RED_RETRY_COOLDOWN_MS cfg in
     let s := run cfg history (boot cfg start) in
     let opened := step cfg t0 (FetchSettled refused) s in
     let id := match nodeRedCooldownTimer s with Some i => i | None => fresh s end in
     let later := run cfg events opened in
     0 <= t0 ->
     Forall (in_window t0 cooldown id) events ->
     nodeRedNextAttemptAt opened = t0 + cooldown /\
     nodeRedSuppressedWarningLogged opened = true /\
     log opened
     = log s
       ++ (if nodeRedSuppressedWarningLogged s then [] else [ConsoleWarn NodeRedSuppressing])
       ++ match nodeRedCooldownTimer s with
          | Some _ => []
          | None => [SetTimeout id CooldownTimer cooldown]
          end /\
     count isFetch (log later) = count isFetch (log s) /\
     count isSuppressWarning (log later) = count isSuppressWarning (log opened) /\
     count isCooldownArming (log later) = count isCooldownArming (log opened) /\
     (forall i, In (i, CooldownTimer) (timers later) <-> i = id)) /\
  (forall (cfg : Config) (now : Z) (e : Event) (s : Server),
     breakerOpen now s = true ->
     count isFetch (log (step cfg now e s)) = count isFetch (log s)) /\
  (forall (cfg : Config) (start : Z) (history : list (Z * Event)) (t0 : Z)
          (events : list (Z * Event)) (now : Z),
     let cooldown := NODE_RED_RETRY_COOLDOWN_MS cfg in
     let s := run cfg history (boot cfg start) in
     let opened := step cfg t0 (FetchSettled refused) s in
     let id := match nodeRedCooldownTimer s with Some i => i | None => fresh s end in
     let later := run cfg events opened in
     let after := step cfg now (TimerFired id) later in
     NODE_RED_ENABLED cfg = true ->
     0 <= t0 ->
     Forall (calm t0 cooldown id) events ->
     t0 + cooldown <= now ->
     nodeRedCooldownTimer after = None /\
     ((NODE_RED_THROTTLE_MS <= now - lastNodeRedDispatch later /\
       log after = log later ++ [Fetch (state later)]) \/
      (now - lastNodeRedDispatch later < NODE_RED_THROTTLE_MS /\
       exists d, nodeRedTimeout after = Some d /\
                 armed d (timers after) = Some DispatchTimer))) /\
  (forall (cfg : Config) (now : Z) (ok : bool) (s : Server),
     breaker (step cfg now (FetchSettled (Responded ok)) s) = (0, false, None)) /\
  (forall (cfg : Config) (now : Z) (o : Outcome) (s : Server),
     match o with
     | Failed code => is_string code "ECONNREFUSED" = false
     | _ => True
     end ->
     forall t, breakerOpen t (step cfg now (FetchSettled o) s) = true ->
               breakerOpen t s = true).
Proof.
  split; [reflexivity|]. split; [|split; [|split; [|split]]].
  - intros cfg start history t0 events cooldown s opened id later H0 Hall.
    pose proof (tracked_reachable cfg start history) as Htr. fold s in Htr.
    destruct (settled_refused_any cfg t0 s Htr) as (Hinv & Hnext & Hlog).
    fold (step cfg t0 (FetchSettled refused) s) in Hinv, Hnext, Hlog.
    fold opened id cooldown in Hinv, Hnext, Hlog.
    destruct (run_in_window cfg t0 id events opened Hinv H0 Hall) as (A & B & C).
    pose proof (run_window_inv cfg t0 id events opened Hinv H0 Hall) as Hlater.
    fold later in A, B, C, Hlater.
    assert (Hfwd : forwarder_inv later).
    { apply fwd_run, fwd_step, fwd_reachable. }
    split; [exact Hnext|]. split; [exact (proj1 Hinv)|]. split.
    { rewrite Hlog. unfold id. now destruct (nodeRedCooldownTimer s). }
    split; [|split; [exact B|split; [exact C|]]].
    + rewrite A, Hlog. now apply count_refusal_log.
    + destruct Hlater as (_ & Hcd & _ & Htr'). intros i. split.
      * intros Hin. apply Htr' in Hin. congruence.
      * intros ->. destruct Hfwd as (_ & _ & Hc). now apply Hc.
  - intros cfg now e s. apply no_fetch_while_open.
  - intros cfg start history t0 events now cooldown s opened id later after He H0 Hcalm Hnow.
    pose proof (tracked_reachable cfg start history) as Htr. fold s in Htr.
    destruct (settled_refused_any cfg t0 s Htr) as (Hinv & Hnext & _).
    fold (step cfg t0 (FetchSettled refused) s) in Hinv, Hnext.
    fold opened id cooldown in Hinv, Hnext.
    assert (Hall : Forall (in_window t0 cooldown id) events).
    { revert Hcalm. apply Forall_impl. now intros te [H _]. }
    pose proof (run_window_inv cfg t0 id events opened Hinv H0 Hall) as Hlater.
    pose proof (next_run_calm cfg t0 id events opened Hinv H0 Hcalm) as Hn.
    fold later in Hlater, Hn.
    assert (Hfwd : forwarder_inv later).
    { apply fwd_run, fwd_step, fwd_reachable. }
    apply cooldown_timer_reattempts; [exact Hfwd | | exact He | lia].
    apply held_cooldown_armed; [exact Hfwd | exact (proj1 (proj2 Hlater))].
  - intros cfg now ok s. apply settled_responded.
  - intros cfg now o s Ho t. cbn [step]. unfold breakerOpen.
    destruct (settled_other_keeps_closed cfg now o s Ho) as [-> | ->]; [trivial|].
    discriminate.
Qed.

Lemma breaker_opens_for_cooldown_window_witness :
  count isFetch
    (log (run defaultConfig
            [(1300, Message 1 Malformed); (2000, FetchSettled Aborted);
             (3000, FetchSettled refused)]
            (step defaultConfig 1200 (FetchSettled refused)
               (run defaultConfig [] (boot defaultConfig 1000)))))
  = count isFetch (log (run defaultConfig [] (boot defaultConfig 1000))) /\
  count isSuppressWarning
    (log (run defaultConfig
            [(1300, Message 1 Malformed); (2000, FetchSettled Aborted);
             (3000, FetchSettled refused)]
            (step defaultConfig 1200 (FetchSettled refused)
               (run defaultConfig [] (boot defaultConfig 1000)))))
  = count isSuppressWarning
      (log (step defaultConfig 1200 (FetchSettled refused)
              (run defaultConfig [] (boot defaultConfig 1000)))).
Proof.
  destruct breaker_opens_for_cooldown_window as (_ & Hwindow & _).
  destruct (Hwindow defaultConfig 1000 [] 1200
              [(1300, Message 1 Malformed); (2000, FetchSettled Aborted);
               (3000, FetchSettled refused)])
    as (_ & _ & _ & A & B & _).
  - lia.
  - repeat constructor; cbn; try lia; discriminate.
  - split; [exact A | exact B].
Defined.

End Breaker.

Section EndToEnd.
Local Open Scope Z_scope.

(** X20.  A stick movement on one client reaches every other client: a
    stick message with a stick in range (as every stick the client sends is)
    is stored by the server with its [x], [y] and [mag] as they are and its
    [deg] wrapped once more, goes out like that to every open connection of
    the registry with the time of the handler, and the client that receives
    that broadcast ends with the same [x], [y] and [mag] and the [deg] wrapped
    a second time as its local stick. *)
Theorem stick_reaches_every_open_client :
  forall (v : StickVector) (ts : Z)
         (cfg : Server.Config) (t : Z) (ws : nat) (s : Server.Server) (k : Server.Connection)
         (now : Z) (receiver : Client.Client),
    valid_stick v ->
    In k (Server.clients s) ->
    Server.isOpen k = true ->
    let sent := Client.StickMsg (x v) (y v) (mag v) (deg v) ts in
    let s' := Server.step cfg t (Server.Message ws (Server.Parsed (fromClient sent))) s in
    Server.state s' = Server.mkState (Server.mode (Server.state s)) (rewrap v) t /\
    In (Server.Send (Server.conn k) (Server.MsgStick (rewrap v) t)) (Server.log s') /\
    Client.state
      (Client.step now
         (Client.SocketMessage (Client.Parsed (fromServer (Server.MsgStick (rewrap v) t))))
         receiver)
    = Client.mkState (Client.mode (Client.state receiver)) (rewrap (rewrap v)).
Proof.
  intros v ts cfg t ws s k now receiver Hv Hk Hopen sent s'.
  rewrite !(rewrap_valid v Hv).
  destruct v as [a b m d]. cbn [x y mag deg] in sent. subst sent s'.
  assert (Hn : Server.normalizeStickPayload (fromClient (Client.StickMsg a b m d ts))
               = Ok (mkStick a b m d))
    by (apply server_fixed; [exact Hv | now apply carries_fromClient]).
  split; [|split].
  - exact (server_stores_valid (Client.StickMsg a b m d ts) cfg t ws s Hv).
  - cbn [Server.step]. unfold fromClient, obj in *.
    match type of Hn with
    | Server.normalizeStickPayload (JObj ?props ?n) = _ =>
        destruct (log_onMessage_stick cfg t s props n _ eq_refl Hn) as (l & -> & _)
    end.
    apply in_or_app. right. apply in_or_app. right.
    apply (in_map (fun c => Server.Send c (Server.MsgStick (mkStick a b m d) t))).
    apply In_recipients. exists k. repeat split; auto. discriminate.
  - now destruct (client_adopts_valid (Server.MsgStick (mkStick a b m d) t) now receiver Hv)
      as [_ ->].
Qed.

Lemma stick_reaches_every_open_client_witness :
  Server.state
    (Server.step Server.defaultConfig 1050
       (Server.Message 1
          (Server.Parsed (fromClient (Client.StickMsg (Fin 0) (Fin 0) (Fin 0) (Fin 0) 1040))))
       (Server.step Server.defaultConfig 1005 (Server.Connection_ 2)
          (Server.boot Server.defaultConfig 1000)))
  = Server.mkState
      (Server.mode (Server.state (Server.step Server.defaultConfig 1005 (Server.Connection_ 2)
                                    (Server.boot Server.defaultConfig 1000))))
      (rewrap zeroStick) 1050.
Proof.
  apply (stick_reaches_every_open_client zeroStick 1040 Server.defaultConfig 1050 1
           (Server.step Server.defaultConfig 1005 (Server.Connection_ 2)
              (Server.boot Server.defaultConfig 1000))
           (Server.mkConnection 2 true true) 1060 (Client.init page0)).
  - unfold valid_stick, zeroStick, between, below. cbn [x y mag deg].
    repeat split; lra.
  - left. reflexivity.
  - reflexivity.
Defined.

End EndToEnd.

Section Switch.
Import Client.
Local Open Scope Z_scope.

Lemma switch_refl c : switch_frame c c.
Proof. now split. Qed.

Lemma switch_trans c1 c2 c3 : switch_frame c1 c2 -> switch_frame c2 c3 -> switch_frame c1 c3.
Proof. unfold switch_frame. intros [A B] [C D]. split; congruence. Qed.

Lemma switch_keeps c c' : switch_frame c c' -> switch_shows_mode c -> switch_shows_mode c'.
Proof. unfold switch_frame, switch_shows_mode. intros [-> ->]. tauto. Qed.

Lemma switch_sendMessage p c : switch_frame c (sendMessage p c).
Proof. unfold sendMessage. destruct (socket c) as [[| | |]|]; now split. Qed.

Lemma switch_applyStickData raw fs c : switch_frame c (final (applyStickData raw fs c)).
Proof.
  unfold applyStickData. destruct (normalizeStick raw); [|apply switch_refl].
  destruct (_ || _); now split.
Qed.

Lemma switch_sendStickPayload now c : switch_frame c (sendStickPayload now c).
Proof.
  unfold sendStickPayload. destruct (socket c) as [[| | |]|]; try apply switch_refl.
  eapply switch_trans; [|apply switch_sendMessage]. now split.
Qed.

Lemma switch_queueStickSend now c : switch_frame c (queueStickSend now c).
Proof.
  unfold queueStickSend. destruct (_ >=? _); [apply switch_sendStickPayload|].
  destruct (pendingStickTimeout c); now split.
Qed.

Lemma switch_andThen c o k :
  switch_frame c (final o) -> (forall c', switch_frame c' (final (k c'))) ->
  switch_frame c (final (andThen o k)).
Proof.
  intros Ho Hk. destruct o as [c'|c']; cbn [andThen final] in *; [|exact Ho].
  eapply switch_trans; [exact Ho | apply Hk].
Qed.

Lemma switch_resetStick now c : switch_frame c (final (resetStick now c)).
Proof.
  unfold resetStick. apply switch_andThen; [apply switch_applyStickData|].
  intros c'. apply switch_queueStickSend.
Qed.

Lemma switch_handlePointerEvent now ev c : switch_frame c (final (handlePointerEvent now ev c)).
Proof.
  unfold handlePointerEvent. destruct (negb _); [apply switch_refl|]. cbv zeta.
  apply switch_andThen; [apply switch_applyStickData|].
  intros c'. apply switch_queueStickSend.
Qed.

Lemma switch_scheduleReconnect c : switch_frame c (scheduleReconnect c).
Proof. unfold scheduleReconnect, clearTimeout. destruct (reconnectTimer c); now split. Qed.

Lemma switch_connectSocket created c : switch_frame c (connectSocket created c).
Proof.
  unfold connectSocket. cbv zeta. unfold setStatus. destruct created.
  - unfold clearTimeout. destruct (reconnectTimer c); now split.
  - eapply switch_trans; [|apply switch_scheduleReconnect].
    unfold clearTimeout. destruct (reconnectTimer c); now split.
Qed.

(** After [setMode] the switch shows the mode: of a client whose switch
    does, or when the mode is one of the two. *)
Lemma shows_setMode now m fs c :
  switch_shows_mode c \/ valid_mode m ->
  switch_shows_mode (final (setMode now m fs c)).
Proof.
  intros H. unfold setMode.
  destruct (negb (is_string m "automatic") && negb (is_string m "manual")) eqn:E.
  - destruct H as [H|[H|H]]; [exact H | | ]; rewrite H in E; cbn in E; try discriminate.
    rewrite andb_false_r in E. discriminate.
  - clear E. cbv zeta. set (c1 := with_modeSwitchChecked _ _).
    assert (H1 : switch_shows_mode c1) by reflexivity. clearbody c1.
    refine (switch_keeps _ _ _ H1). apply switch_andThen.
    + destruct (negb _ && negb (isDragging c1));
        [apply switch_applyStickData | apply switch_refl].
    + intros c'. destruct (negb fs); cbn [final]; [apply switch_sendMessage | apply switch_refl].
Qed.

Lemma shows_andThen o k :
  switch_shows_mode (final o) ->
  (forall c', switch_shows_mode c' -> switch_shows_mode (final (k c'))) ->
  switch_shows_mode (final (andThen o k)).
Proof. destruct o; cbn [andThen final]; auto. Qed.

Lemma shows_dispatchMessage now message c :
  switch_shows_mode c -> switch_shows_mode (final (dispatchMessage now message c)).
Proof.
  intros H.
  assert (A : forall raw c', switch_shows_mode c' ->
            switch_shows_mode (final (if truthy raw then applyStickData raw true c'
                                      else Done c'))).
  { intros raw c' H'. destruct (truthy raw); [|exact H'].
    exact (switch_keeps _ _ (switch_applyStickData raw true c') H'). }
  assert (B : forall m c', switch_shows_mode c' ->
            switch_shows_mode (final (if truthy m then setMode now m true c' else Done c'))).
  { intros m c' H'. destruct (truthy m); [apply shows_setMode; now left | exact H']. }
  unfold dispatchMessage.
  destruct message; try exact H;
    (destruct (is_string _ "state");
     [apply shows_andThen; [now apply B | intros; now apply A]|];
     destruct (is_string _ "mode"); [now apply B|];
     destruct (is_string _ "stick"); [now apply A|];
     exact H).
Qed.

Lemma shows_step now ev c : switch_shows_mode c -> switch_shows_mode (step now ev c).
Proof.
  intros H.
  assert (S : forall o, switch_shows_mode (final o) -> switch_shows_mode (settle o))
    by (intros [c1|c1]; cbn [settle final]; tauto).
  destruct ev; cbn [step].
  - apply S. refine (switch_keeps c _ _ H). unfold onOpen. cbv zeta. unfold setStatus.
    set (c1 := with_reconnectDelay _ _).
    assert (H1 : switch_frame c c1) by now split. clearbody c1.
    apply (switch_trans _ _ _ H1). apply switch_andThen.
    + destruct (is_string _ _); cbn [final];
        [apply switch_queueStickSend | apply switch_resetStick].
    + intros c'. cbn [final]. apply switch_sendMessage.
  - unfold onMessage. destruct data as [|message]; [exact H|].
    pose proof (shows_dispatchMessage now message c H) as H'.
    destruct (dispatchMessage now message c); exact H'.
  - refine (switch_keeps c _ _ H). unfold onClose, setStatus.
    eapply switch_trans; [|apply switch_scheduleReconnect]. now split.
  - exact H.
  - refine (switch_keeps c _ _ H). unfold timerFired.
    destruct (armed id (timers c)) as [[|]|]; [| |apply switch_refl].
    + eapply switch_trans; [|apply switch_sendStickPayload]. now split.
    + eapply switch_trans; [|apply switch_connectSocket]. now split.
  - apply S. unfold onModeSwitchChange. cbv zeta.
    set (o := setMode now _ false _).
    assert (Ho : switch_shows_mode (final o)).
    { apply shows_setMode. right. cbn [modeSwitchChecked with_modeSwitchChecked].
      destruct checked; [now right | now left]. }
    clearbody o. destruct o as [c1|c1]; cbn [andThen final] in *; [|exact Ho].
    destruct (String.eqb _ _); [|exact Ho].
    exact (switch_keeps _ _ (switch_resetStick now c1) Ho).
  - apply S. refine (switch_keeps c _ _ H). unfold onPointerDown.
    destruct (negb _); [apply switch_refl|].
    eapply switch_trans; [|apply switch_handlePointerEvent]. now split.
  - apply S. refine (switch_keeps c _ _ H). unfold onPointerMove.
    destruct (negb _ || negb _); [apply switch_refl | apply switch_handlePointerEvent].
  - apply S. refine (switch_keeps c _ _ H). unfold endPointer.
    destruct (negb _); [apply switch_refl|].
    eapply switch_trans; [|apply switch_resetStick]. now split.
  - apply S. refine (switch_keeps c _ _ H). unfold onLostPointerCapture.
    destruct (isDragging c); [|apply switch_refl].
    eapply switch_trans; [|apply switch_resetStick]. now split.
  - exact H.
Qed.

(** X21.  The switch of the page always shows the mode: in every state
    the client reaches from the loading of the page, whatever the events
    (the operator, frames of the server with either mode or with a mode that
    is none, reconnections), the switch is checked exactly when the local
    mode is manual. *)
Theorem switch_always_shows_mode :
  forall (events : list (Z * Event)) (now : Z) (created : bool) (page : Layout),
    modeSwitchChecked (run events (start now created page))
    = is_string (mode (state (run events (start now created page)))) "manual".
Proof.
  intros events now created page.
  assert (R : forall evs c, switch_shows_mode c -> switch_shows_mode (run evs c)).
  { induction evs as [|[t ev] rest IH]; intros c H; [exact H|].
    apply IH, shows_step, H. }
  apply R. unfold start.
  refine (switch_keeps _ _ (switch_connectSocket created _) _).
  assert (H0 : switch_shows_mode (final (setMode now (mode (state (init page))) true (init page))))
    by (apply shows_setMode; now left).
  destruct (setMode now (mode (state (init page))) true (init page)); exact H0.
Qed.

End Switch.

Section SharedState.
Import Server.
Local Open Scope Z_scope.

(** X22.  Only frames of clients change the shared state: connections,
    pongs, closes, heartbeat ticks, timers and the outcome of requests leave
    it as it is; a frame that changes it is a [setMode] with one of the two
    modes, which replaces the mode alone, or a [stick] frame, which replaces
    the stick alone, and both stamp [ts] with the time of the handler. *)
Theorem only_frames_change_shared_state :
  forall (cfg : Config) (now : Z) (ev : Event) (s : Server),
    state (step cfg now ev s) = state s \/
    exists ws message,
      ev = Message ws (Parsed message) /\
      ((is_string (get "type" message) "setMode" = true /\
        validateMode (get "mode" message) = true /\
        state (step cfg now ev s) = mkState (get "mode" message) (stick (state s)) now) \/
       (is_string (get "type" message) "stick" = true /\
        exists v, normalizeStickPayload message = Ok v /\
                  state (step cfg now ev s) = mkState (mode (state s)) v now)).
Proof.
  intros cfg now ev s. destruct ev as [ws|ws data|ws|ws| |id|o]; cbn [step].
  - left. apply state_onConnection.
  - unfold onMessage. destruct data as [|message]; [now left|].
    destruct (negb (truthy message) || negb (typeof_object message)); [now left|].
    destruct (is_string (get "type" message) "setMode") eqn:Et.
    + destruct (validateMode (get "mode" message)) eqn:Ev; cbn [negb]; [|now left].
      right. exists ws, message. split; [reflexivity|]. left.
      split; [exact Et|]. split; [exact Ev|].
      cbv zeta. rewrite state_broadcast, state_updateState. cbn [newMode newStick].
      destruct (validateMode_string _ Ev) as (m & n & ->). reflexivity.
    + destruct (is_string (get "type" message) "stick") eqn:Es; [|now left].
      destruct (normalizeStickPayload message) as [v|] eqn:En; [|now left].
      right. exists ws, message. split; [reflexivity|]. right.
      split; [exact Es|]. exists v. split; [exact En|].
      cbv zeta. rewrite state_broadcast, state_updateState. reflexivity.
  - now left.
  - now left.
  - left. apply state_heartbeat.
  - left. apply state_timerFired.
  - left. apply state_postToNodeRed_settled.
Qed.

End SharedState.

Section Page.
Import Client.
Local Open Scope Z_scope.

Lemma page_refl c : page_frame c c.
Proof. repeat split. Qed.

Lemma page_trans c1 c2 c3 : page_frame c1 c2 -> page_frame c2 c3 -> page_frame c1 c3.
Proof.
  unfold page_frame. intros (A1 & A2 & A3 & A4 & A5) (B1 & B2 & B3 & B4 & B5).
  repeat split; congruence.
Qed.

Lemma page_keeps c c' : page_frame c c' -> page_inv c -> page_inv c'.
Proof.
  unfold page_frame, page_inv, thumb_shows_stick, drag_tracked.
  intros (-> & -> & -> & -> & ->). tauto.
Qed.

Lemma page_sendMessage p c : page_frame c (sendMessage p c).
Proof. unfold sendMessage. destruct (socket c) as [[| | |]|]; repeat split. Qed.

Lemma page_sendStickPayload now c : page_frame c (sendStickPayload now c).
Proof.
  unfold sendStickPayload. destruct (socket c) as [[| | |]|]; try apply page_refl.
  eapply page_trans; [|apply page_sendMessage]. repeat split.
Qed.

Lemma page_queueStickSend now c : page_frame c (queueStickSend now c).
Proof.
  unfold queueStickSend. destruct (_ >=? _); [apply page_sendStickPayload|].
  destruct (pendingStickTimeout c); repeat split.
Qed.

Lemma page_scheduleReconnect c : page_frame c (scheduleReconnect c).
Proof. unfold scheduleReconnect, clearTimeout. destruct (reconnectTimer c); repeat split. Qed.

Lemma page_connectSocket created c : page_frame c (connectSocket created c).
Proof.
  unfold connectSocket. cbv zeta. unfold setStatus. destruct created.
  - unfold clearTimeout. destruct (reconnectTimer c); repeat split.
  - eapply page_trans; [|apply page_scheduleReconnect].
    unfold clearTimeout. destruct (reconnectTimer c); repeat split.
Qed.

Lemma normalizeStick_own v : exists v', normalizeStick (stick_value v) = Ok v'.
Proof. unfold normalizeStick, stick_value. cbn [get lookup String.eqb Ascii.eqb Bool.eqb Number bind]. eauto. Qed.

(** [applyStickData] keeps the page in order; applied to a stick of the
    page's own it puts the thumb where the stick is, whatever was drawn. *)
Lemma page_applyStickData raw fs c :
  page_inv c -> page_inv (final (applyStickData raw fs c)).
Proof.
  intros [Ht Hd]. unfold applyStickData. destruct (normalizeStick raw) as [v|]; [|now split].
  cbn [isDragging with_state].
  destruct (isDragging c) eqn:E; cbn [negb orb]; [destruct fs; cbn [negb]|];
    cbn [final]; split; try exact Hd; intros H; cbn [isDragging setThumbPosition with_thumb with_state] in H;
    try congruence; reflexivity.
Qed.

Lemma page_applyStickData_own v c :
  drag_tracked c -> page_inv (final (applyStickData (stick_value v) false c)).
Proof.
  intros Hd. unfold applyStickData. destruct (normalizeStick_own v) as (v' & ->).
  cbn [negb]. rewrite orb_true_r. cbn [final]. split; [|exact Hd]. intros _. reflexivity.
Qed.

Lemma page_andThen o k :
  page_inv (final o) -> (forall c', page_inv c' -> page_inv (final (k c'))) ->
  page_inv (final (andThen o k)).
Proof. destruct o; cbn [andThen final]; auto. Qed.

Lemma page_settle o : page_inv (final o) -> page_inv (settle o).
Proof. destruct o; cbn [settle final]; [tauto|]. now apply page_keeps. Qed.

Lemma page_resetStick now c : drag_tracked c -> page_inv (final (resetStick now c)).
Proof.
  intros Hd. unfold resetStick. apply page_andThen; [now apply page_applyStickData_own|].
  intros c' H'. cbn [final]. exact (page_keeps _ _ (page_queueStickSend now c') H').
Qed.

Lemma page_handlePointerEvent now ev c :
  page_inv c -> page_inv (final (handlePointerEvent now ev c)).
Proof.
  intros H. unfold handlePointerEvent. destruct (negb _); [exact H|]. cbv zeta.
  apply page_andThen; [apply page_applyStickData_own, H|].
  intros c' H'. cbn [final]. exact (page_keeps _ _ (page_queueStickSend now c') H').
Qed.

Lemma page_setMode now m fs c : page_inv c -> page_inv (final (setMode now m fs c)).
Proof.
  intros H. unfold setMode.
  destruct (negb (is_string m "automatic") && negb (is_string m "manual")); [exact H|].
  cbv zeta. set (c1 := with_modeSwitchChecked _ _).
  assert (H1 : page_inv c1) by (revert H; apply page_keeps; repeat split).
  clearbody c1. apply page_andThen.
  - destruct (negb _ && negb (isDragging c1)); [now apply page_applyStickData | exact H1].
  - intros c' H'. destruct (negb fs); cbn [final]; [|exact H'].
    exact (page_keeps _ _ (page_sendMessage _ c') H').
Qed.

Lemma page_dispatchMessage now message c :
  page_inv c -> page_inv (final (dispatchMessage now message c)).
Proof.
  intros H.
  assert (A : forall raw c', page_inv c' ->
            page_inv (final (if truthy raw then applyStickData raw true c' else Done c'))).
  { intros raw c' H'. destruct (truthy raw); [now apply page_applyStickData | exact H']. }
  assert (B : forall m c', page_inv c' ->
            page_inv (final (if truthy m then setMode now m true c' else Done c'))).
  { intros m c' H'. destruct (truthy m); [now apply page_setMode | exact H']. }
  unfold dispatchMessage.
  destruct message; try exact H;
    (destruct (is_string _ "state");
     [apply page_andThen; [now apply B | intros; now apply A]|];
     destruct (is_string _ "mode"); [now apply B|];
     destruct (is_string _ "stick"); [now apply A|];
     cbn [final]; revert H; apply page_keeps; repeat split).
Qed.

Lemma page_step now ev c : page_inv c -> page_inv (step now ev c).
Proof.
  intros H. destruct ev; cbn [step].
  - apply page_settle. unfold onOpen. cbv zeta. unfold setStatus.
    set (c1 := with_reconnectDelay _ _).
    assert (H1 : page_inv c1) by (revert H; apply page_keeps; repeat split).
    clearbody c1. apply page_andThen.
    + destruct (is_string _ _); cbn [final];
        [exact (page_keeps _ _ (page_queueStickSend now c1) H1)
        | apply page_resetStick, H1].
    + intros c' H'. cbn [final]. exact (page_keeps _ _ (page_sendMessage _ c') H').
  - unfold onMessage. destruct data as [|message]; [revert H; apply page_keeps; repeat split|].
    pose proof (page_dispatchMessage now message c H) as H'.
    destruct (dispatchMessage now message c); cbn [final] in H'; [exact H'|].
    revert H'. apply page_keeps. repeat split.
  - revert H. apply page_keeps. unfold onClose, setStatus.
    eapply page_trans; [|apply page_scheduleReconnect]. repeat split.
  - revert H. apply page_keeps. repeat split.
  - revert H. apply page_keeps. unfold timerFired.
    destruct (armed id (timers c)) as [[|]|]; [| |apply page_refl].
    + eapply page_trans; [|apply page_sendStickPayload]. repeat split.
    + eapply page_trans; [|apply page_connectSocket]. repeat split.
  - apply page_settle. unfold onModeSwitchChange. cbv zeta. apply page_andThen.
    + apply page_setMode. revert H. apply page_keeps. repeat split.
    + intros c' H'. destruct (String.eqb _ _); [apply page_resetStick, H' | exact H'].
  - apply page_settle. unfold onPointerDown. destruct (negb _); [exact H|].
    unfold handlePointerEvent.
    destruct (negb (is_string (mode (state (with_drag true (Some (pointerId event)) c))) "manual")).
    + cbn [final]. split; [discriminate|]. split; [discriminate | reflexivity].
    + cbv zeta. apply page_andThen.
      * apply page_applyStickData_own. split; [discriminate | reflexivity].
      * intros c' H'. cbn [final]. exact (page_keeps _ _ (page_queueStickSend now c') H').
  - apply page_settle. unfold onPointerMove.
    destruct (negb _ || negb _); [exact H | now apply page_handlePointerEvent].
  - apply page_settle. unfold endPointer. destruct (negb _); [exact H|].
    apply page_resetStick. split; [discriminate | intros E; now elim E].
  - apply page_settle. unfold onLostPointerCapture. destruct (isDragging c); [|exact H].
    apply page_resetStick. split; [discriminate | intros E; now elim E].
  - unfold onResize. cbv zeta. split; [intros _; reflexivity | apply H].
Qed.

Lemma page_run events : forall c, page_inv c -> page_inv (run events c).
Proof.
  induction events as [|[t ev] rest IH]; intros c H; [exact H|].
  apply IH, page_step, H.
Qed.

Lemma page_start now created page : page_inv (start now created page).
Proof.
  unfold start.
  refine (page_keeps _ _ (page_connectSocket created _) _). apply page_settle.
  unfold setMode. cbn [init state mode is_string String.eqb Ascii.eqb Bool.eqb negb andb].
  cbv zeta. cbn [with_state with_modeSwitchChecked state mode isDragging is_string String.eqb
                   Ascii.eqb Bool.eqb negb andb].
  apply page_andThen.
  - apply page_applyStickData_own. split; [discriminate | intros E; now elim E].
  - intros c' H'. exact H'.
Qed.

(** X23.  Outside a drag the thumb is drawn where the local stick is: in
    every state the client reaches from the loading of the page in which no
    drag is in progress, the position of the thumb is the one
    [setThumbPosition] computes from the stick of the local state and the
    geometry of the page as it is then. *)
Theorem thumb_shows_stick_outside_drag :
  forall (events : list (Z * Event)) (now : Z) (created : bool) (page : Layout),
    let c := run events (start now created page) in
    isDragging c = false ->
    thumb c = Some (thumbOffsets (layout c) (x (stick (state c))) (y (stick (state c)))).
Proof.
  intros events now created page c.
  exact (proj1 (page_run events _ (page_start now created page))).
Qed.

Lemma thumb_shows_stick_outside_drag_witness :
  thumb (run [(10, SocketOpen); (20, Resize (mkLayout (Fin 0) (Fin 0) (Fin 300) (Fin 300) (Fin 40)))]
           (start 0 true page0))
  = Some (thumbOffsets
            (layout (run [(10, SocketOpen);
                          (20, Resize (mkLayout (Fin 0) (Fin 0) (Fin 300) (Fin 300) (Fin 40)))]
                       (start 0 true page0)))
            (x (stick (state (run [(10, SocketOpen);
                                   (20, Resize (mkLayout (Fin 0) (Fin 0) (Fin 300) (Fin 300) (Fin 40)))]
                                (start 0 true page0)))))
            (y (stick (state (run [(10, SocketOpen);
                                   (20, Resize (mkLayout (Fin 0) (Fin 0) (Fin 300) (Fin 300) (Fin 40)))]
                                (start 0 true page0)))))).
Proof.
  apply (thumb_shows_stick_outside_drag
           [(10, SocketOpen); (20, Resize (mkLayout (Fin 0) (Fin 0) (Fin 300) (Fin 300) (Fin 40)))]
           0 true page0).
  reflexivity.
Defined.

(** X24.  A drag is in progress exactly when a pointer is the active one,
    in every state the client reaches from the loading of the page; so
    outside a drag a pointer that moves, is lifted or loses its capture does
    nothing at all, and during one the events of any other pointer do
    nothing. *)
Theorem only_the_active_pointer_drags :
  forall (events : list (Z * Event)) (now : Z) (created : bool) (page : Layout),
    let c := run events (start now created page) in
    (isDragging c = true <-> activePointerId c <> None) /\
    (forall t ev,
       same_pointer (pointerId ev) (activePointerId c) = false ->
       step t (PointerMove ev) c = c /\ step t (PointerUp ev) c = c) /\
    (isDragging c = false ->
     forall t ev,
       step t (PointerMove ev) c = c /\ step t (PointerUp ev) c = c /\
       step t LostPointerCapture c = c).
Proof.
  intros events now created page c.
  destruct (page_run events _ (page_start now created page)) as [_ Hd]. fold c in Hd.
  assert (K : forall t ev, same_pointer (pointerId ev) (activePointerId c) = false ->
              step t (PointerMove ev) c = c /\ step t (PointerUp ev) c = c).
  { intros t ev Hp. cbn [step]. unfold onPointerMove, endPointer. rewrite Hp.
    cbn [negb]. rewrite orb_true_r. split; reflexivity. }
  split; [exact Hd|]. split; [exact K|].
  intros Hn t ev.
  assert (Ha : activePointerId c = None).
  { destruct (activePointerId c) as [p|] eqn:E; [|reflexivity].
    assert (H : isDragging c = true) by (apply (proj2 Hd); rewrite ?E; discriminate). congruence. }
  assert (Hp : same_pointer (pointerId ev) (activePointerId c) = false) by now rewrite Ha.
  destruct (K t ev Hp) as [K1 K2]. split; [exact K1|]. split; [exact K2|].
  cbn [step]. unfold onLostPointerCapture. now rewrite Hn.
Qed.

End Page.

